(** * sim-operator: the reconciliation and load-scaling engine

  A shallow embedding of the controller of [jtaleric/sim-operator]
  (package [controllers], with the types of [api/v1]) and the
  properties of its specification.

  - [Float64]: IEEE-754 binary64 as Go's [float64], on the Standard
    Library's [spec_float] (round to nearest, ties to even).
  - [Strconv]: [strconv.ParseFloat], [strconv.Atoi], [strconv.FormatFloat].
  - the API types, the environment (object store, clock, random source)
    and the programs of the controller as interaction trees over it. *)

From Stdlib Require Import ZArith Lia Bool List Ascii String.
From Stdlib Require Import SpecFloat Sorted Permutation.
From stdpp Require Import base tactics option list numbers strings gmap pretty sorting.

Local Open Scope Z_scope.

(** ** Machine integers *)

(** Go's conversion to a signed [w]-bit integer keeps the low [w] bits. *)
Definition wrap (w : Z) (z : Z) : Z :=
(z + 2 ^ (w - 1)) mod 2 ^ w - 2 ^ (w - 1).

Definition int32 (z : Z) : Z := wrap 32 z.
Definition int64 (z : Z) : Z := wrap 64 z.

Definition minInt32 : Z := - 2 ^ 31.
Definition maxInt32 : Z := 2 ^ 31 - 1.
Definition minInt64 : Z := - 2 ^ 63.
Definition maxInt64 : Z := 2 ^ 63 - 1.

Definition inInt32 (z : Z) : Prop := minInt32 <= z <= maxInt32.
Definition inInt64 (z : Z) : Prop := minInt64 <= z <= maxInt64.

(** ** float64 *)

Module Float64.

Definition prec : Z := 53.
Definition emax : Z := 1024.

Abbreviation float64 := spec_float.

Definition mul : float64 -> float64 -> float64 := SFmul prec emax.
Definition add : float64 -> float64 -> float64 := SFadd prec emax.
Definition div : float64 -> float64 -> float64 := SFdiv prec emax.
Definition ltb : float64 -> float64 -> bool := SFltb.
Definition gtb (x y : float64) : bool := SFltb y x.

(** [float64(n)] for an integer [n]: the nearest double. *)
Definition of_Z (n : Z) : float64 := binary_normalize prec emax n 0 false.

(** The double nearest to [n / d], for [d > 0]. *)
Definition of_ratio (neg : bool) (n : Z) (d : positive) : float64 :=
  match n with
  | Zpos p => SFdiv prec emax (S754_finite neg p 0) (S754_finite false d 0)
  | _ => S754_zero neg
  end.

Definition is_finite (x : float64) : bool :=
  match x with
  | S754_zero _ | S754_finite _ _ _ => true
  | _ => false
  end.

Definition sign (x : float64) : bool :=
  match x with
  | S754_zero s | S754_infinity s | S754_finite s _ _ => s
  | S754_nan => false
  end.

(** [math.Ceil]: the least integer value not below [x]; zeros,
    infinities and NaN are returned as they are. *)
Definition Ceil (x : float64) : float64 :=
  match x with
  | S754_finite s m e =>
      if 0 <=? e then x
      else
        let d := 2 ^ (- e) in
        let q := Z.pos m / d in
        let c := if s then - q
                 else if Z.pos m mod d =? 0 then q else q + 1 in
        if c =? 0 then S754_zero s else of_Z c
  | _ => x
  end.

(** The integer part of a finite value, rounding toward zero. *)
Definition trunc (x : float64) : option Z :=
  match x with
  | S754_zero _ => Some 0
  | S754_finite s m e =>
      let a := if 0 <=? e then Z.pos m * 2 ^ e else Z.pos m / 2 ^ (- e) in
      Some (if s then - a else a)
  | _ => None
  end.

(** The greatest integer not above a finite value. *)
Definition floor (x : float64) : option Z :=
  match x with
  | S754_zero _ => Some 0
  | S754_finite s m e =>
      if 0 <=? e then Some ((if s then - Z.pos m else Z.pos m) * 2 ^ e)
      else Some ((if s then - Z.pos m else Z.pos m) / 2 ^ (- e))
  | _ => None
  end.

(** Conversion of a float to a [w]-bit integer type discards the
    fraction.  When the value is not representable (NaN, infinite, out
    of range) Go leaves the result implementation-dependent: [None]. *)
Definition to_int (w : Z) (x : float64) : option Z :=
  match trunc x with
  | Some z => if (- 2 ^ (w - 1) <=? z) && (z <? 2 ^ (w - 1)) then Some z else None
  | None => None
  end.

Definition to_int64 : float64 -> option Z := to_int 64.
Definition to_int32 : float64 -> option Z := to_int 32.

(** Literals of the source. *)
Definition zero : float64 := S754_zero false.
Definition lit_0_2 : float64 := of_ratio false 2 10.
Definition lit_0_4 : float64 := of_ratio false 4 10.
Definition lit_0_6 : float64 := of_ratio false 6 10.
Definition lit_1_0 : float64 := of_Z 1.
Definition lit_10_0 : float64 := of_Z 10.

End Float64.

Import Float64.


(** ** strconv *)

Module Strconv.

Inductive NumError := ErrSyntax | ErrRange.

Definition code (c : ascii) : Z := Z.of_N (N_of_ascii c).

Definition isDigit (c : ascii) : bool := (48 <=? code c) && (code c <=? 57).

(** [lower(c)] of strconv: [c | ('x' - 'X')]. *)
Definition lower (c : ascii) : ascii := ascii_of_N (N.lor (N_of_ascii c) 32).

Definition isHexLetter (c : ascii) : bool :=
  (97 <=? code (lower c)) && (code (lower c) <=? 102).

Definition digitVal (c : ascii) : Z := code c - 48.
Definition hexLetterVal (c : ascii) : Z := code (lower c) - 97 + 10.

(** Letters A-Z to lower case, as [commonPrefixLenIgnoreCase] folds them. *)
Definition foldCase (c : ascii) : ascii :=
  if (65 <=? code c) && (code c <=? 90) then ascii_of_N (N_of_ascii c + 32) else c.

Definition eqb_chars (a b : list ascii) : bool :=
  bool_decide (a = b).

Definition readSign (s : list ascii) : bool * list ascii :=
  match s with
  | "+"%char :: r => (false, r)
  | "-"%char :: r => (true, r)
  | _ => (false, s)
  end.

(** [special]: the strings for infinities and NaN, read in full. *)
Definition special (s : list ascii) : option float64 :=
  let inf r := eqb_chars (foldCase <$> r) (list_ascii_of_string "inf")
               || eqb_chars (foldCase <$> r) (list_ascii_of_string "infinity") in
  match s with
  | "+"%char :: r => if inf r then Some (S754_infinity false) else None
  | "-"%char :: r => if inf r then Some (S754_infinity true) else None
  | _ =>
      if inf s then Some (S754_infinity false)
      else if eqb_chars (foldCase <$> s) (list_ascii_of_string "nan")
           then Some S754_nan else None
  end.

(** [underscoreOK]: an underscore stands only between digits, or between
    a base prefix and a digit. *)
Inductive saw := SawStart | SawDigit | SawUnderscore | SawOther.

Fixpoint underscoreScan (hex : bool) (last : saw) (s : list ascii) : bool :=
  match s with
  | [] => match last with SawUnderscore => false | _ => true end
  | c :: r =>
      if isDigit c || (hex && isHexLetter c) then underscoreScan hex SawDigit r
      else if Ascii.eqb c "_" then
        match last with
        | SawDigit => underscoreScan hex SawUnderscore r
        | _ => false
        end
      else
        match last with
        | SawUnderscore => false
        | _ => underscoreScan hex SawOther r
        end
  end.

Definition underscoreOK (s : list ascii) : bool :=
  let s := match s with
           | "+"%char :: r | "-"%char :: r => r
           | _ => s
           end in
  match s with
  | "0"%char :: b :: r =>
      if Ascii.eqb (lower b) "b" || Ascii.eqb (lower b) "o" || Ascii.eqb (lower b) "x"
      then underscoreScan (Ascii.eqb (lower b) "x") SawDigit r
      else underscoreScan false SawStart s
  | _ => underscoreScan false SawStart s
  end.

(** The digits of a mantissa: their value as an integer in the base, the
    number of digits after the point, and what was seen. *)
Record mantissa := Mantissa {
  m_val : Z;
  m_frac : Z;
  m_sawdot : bool;
  m_sawdigits : bool
}.

Definition pushDigit (base : Z) (d : Z) (m : mantissa) : mantissa :=
  {| m_val := m_val m * base + d;
     m_frac := if m_sawdot m then m_frac m + 1 else m_frac m;
     m_sawdot := m_sawdot m;
     m_sawdigits := true |}.

Fixpoint readMantissa (hex : bool) (s : list ascii) (m : mantissa)
  : mantissa * list ascii :=
  match s with
  | [] => (m, [])
  | c :: r =>
      if Ascii.eqb c "_" then readMantissa hex r m
      else if Ascii.eqb c "." then
        if m_sawdot m then (m, s)
        else readMantissa hex r
               {| m_val := m_val m; m_frac := m_frac m;
                  m_sawdot := true; m_sawdigits := m_sawdigits m |}
      else if isDigit c then
        readMantissa hex r (pushDigit (if hex then 16 else 10) (digitVal c) m)
      else if hex && isHexLetter c then
        readMantissa hex r (pushDigit 16 (hexLetterVal c) m)
      else (m, s)
  end.

(** The digits of an exponent; the value stops growing at 10000. *)
Fixpoint readExpDigits (s : list ascii) (e : Z) : Z * list ascii :=
  match s with
  | c :: r =>
      if Ascii.eqb c "_" then readExpDigits r e
      else if isDigit c then
        readExpDigits r (if e <? 10000 then e * 10 + digitVal c else e)
      else (e, s)
  | [] => (e, [])
  end.

(** The optional exponent after the mantissa: [None] is a syntax error. *)
Definition readExponent (hex : bool) (s : list ascii) : option (Z * list ascii) :=
  match s with
  | c :: r =>
      if Ascii.eqb (lower c) (if hex then "p" else "e") then
        let '(neg, r) :=
          match r with
          | "+"%char :: r' => (false, r')
          | "-"%char :: r' => (true, r')
          | _ => (false, r)
          end in
        match r with
        | d :: _ =>
            if isDigit d then
              let '(e, rest) := readExpDigits r 0 in
              Some (if neg then - e else e, rest)
            else None
        | [] => None
        end
      else if hex then None else Some (0, s)
  | [] => if hex then None else Some (0, [])
  end.

(** The double nearest to [(-1)^neg * m * base^e] (base 10, or 2 for a
    hexadecimal mantissa). *)
Definition roundDecimal (neg : bool) (m e : Z) : float64 :=
  match m with
  | Zpos _ =>
      if 0 <=? e then of_Z ((if neg then - m else m) * 10 ^ e)
      else of_ratio neg m (Z.to_pos (10 ^ (- e)))
  | _ => S754_zero neg
  end.

Definition roundBinary (neg : bool) (m e : Z) : float64 :=
  binary_normalize prec emax (if neg then - m else m) e neg.

(** [strconv.ParseFloat(s, 64)]: the value and the error.  A well-formed
    number is rounded to the nearest double; one that rounds to an
    infinity is a range error. *)
Definition ParseFloat (str : string) : float64 * option NumError :=
  let s := list_ascii_of_string str in
  match special s with
  | Some f => (f, None)
  | None =>
      let '(neg, r) := readSign s in
      let '(hex, r) :=
        match r with
        | "0"%char :: x :: c :: r' =>
            if Ascii.eqb (lower x) "x" then (true, c :: r') else (false, r)
        | _ => (false, r)
        end in
      let '(m, r) := readMantissa hex r (Mantissa 0 0 false false) in
      if negb (m_sawdigits m) then (zero, Some ErrSyntax)
      else
        match readExponent hex r with
        | Some (e, []) =>
            if negb (underscoreOK s) then (zero, Some ErrSyntax)
            else
              let f := if hex then roundBinary neg (m_val m) (e - 4 * m_frac m)
                       else roundDecimal neg (m_val m) (e - m_frac m) in
              match f with
              | S754_infinity _ => (f, Some ErrRange)
              | _ => (f, None)
              end
        | _ => (zero, Some ErrSyntax)
        end
  end.

(** [strconv.Atoi]: an optional sign and decimal digits, in the range of
    [int] (64 bits). *)
Fixpoint readDigits (s : list ascii) (n : Z) : option Z :=
  match s with
  | [] => Some n
  | c :: r => if isDigit c then readDigits r (n * 10 + digitVal c) else None
  end.

Definition Atoi (str : string) : Z * option NumError :=
  let '(neg, r) := readSign (list_ascii_of_string str) in
  match r with
  | [] => (0, Some ErrSyntax)
  | _ =>
      match readDigits r 0 with
      | None => (0, Some ErrSyntax)
      | Some n =>
          let v := if neg then - n else n in
          if v <? minInt64 then (minInt64, Some ErrRange)
          else if maxInt64 <? v then (maxInt64, Some ErrRange)
          else (v, None)
      end
  end.

(** Nearest integer to [n / d] for [0 <= n], [0 < d], ties to even. *)
Definition roundHalfEven (n d : Z) : Z :=
  let q := n / d in
  let r := n mod d in
  match 2 * r ?= d with
  | Lt => q
  | Gt => q + 1
  | Eq => if Z.even q then q else q + 1
  end.

Definition zeroPad (width : nat) (s : string) : string :=
  String.append (string_of_list_ascii (replicate (width - String.length s)%nat "0"%char)) s.

(** [strconv.FormatFloat(f, 'f', digits, 64)]: decimal notation with
    [digits] digits after the point, the exact value rounded to nearest,
    ties to even. *)
Definition FormatFloat_f (f : float64) (digits : nat) : string :=
  let fixed (neg : bool) (n d : Z) : string :=
    let scale := 10 ^ Z.of_nat digits in
    let u := roundHalfEven (n * scale) d in
    String.append (if neg then "-" else "")
      (String.append (pretty (u / scale))
         (match digits with
          | O => ""
          | _ => String.append "." (zeroPad digits (pretty (u mod scale)))
          end)) in
  match f with
  | S754_nan => "NaN"
  | S754_infinity false => "+Inf"
  | S754_infinity true => "-Inf"
  | S754_zero s => fixed s 0 1
  | S754_finite s m e =>
      if 0 <=? e then fixed s (Z.pos m * 2 ^ e) 1
      else fixed s (Z.pos m) (2 ^ (- e))
  end.

(** [strconv.FormatInt(i, 10)] and the [%d] verb of [fmt]. *)
Definition FormatInt (i : Z) : string := pretty i.

End Strconv.

(** ** time *)

(** A [time.Time] is its instant in nanoseconds since the Unix epoch; a
    [time.Duration] is a count of nanoseconds in an [int64]. *)
Abbreviation Time := Z (only parsing).
Abbreviation Duration := Z (only parsing).

Module GoTime.

(** The zero [time.Time]: January 1, year 1, 00:00:00 UTC. *)
Definition zeroTime : Time := - 62135596800 * 10 ^ 9.
Definition IsZero (t : Time) : bool := t =? zeroTime.

Definition Millisecond : Duration := 10 ^ 6.
Definition Second : Duration := 10 ^ 9.
Definition Minute : Duration := 60 * Second.
Definition Hour : Duration := 60 * Minute.

(** [t.Sub(u)]: the difference, kept within the range of a Duration. *)
Definition Sub (t u : Time) : Duration :=
  Z.max minInt64 (Z.min maxInt64 (t - u)).

Definition Before (t u : Time) : bool := t <? u.

(** [d.Hours()]: [float64(d / Hour) + float64(d % Hour) / (60*60*1e9)]. *)
Definition Hours (d : Duration) : float64 :=
  add (of_Z (Z.quot d Hour)) (div (of_Z (Z.rem d Hour)) (of_Z (60 * 60 * 10 ^ 9))).

(** [d.Minutes()]: [float64(d / Minute) + float64(d % Minute) / (60*1e9)]. *)
Definition Minutes (d : Duration) : float64 :=
  add (of_Z (Z.quot d Minute)) (div (of_Z (Z.rem d Minute)) (of_Z (60 * 10 ^ 9))).

Definition Milliseconds (d : Duration) : Z := Z.quot d Millisecond.

End GoTime.

(** ** API types ([api/v1] and the Kubernetes objects the controller uses) *)

Module ObjectMeta.
Record t := mk {
  Name : string;
  Namespace : string;
  Labels : gmap string string;
  Annotations : gmap string string;
  CreationTimestamp : Time;
  DeletionTimestamp : option Time;
  Finalizers : list string;
  Generation : Z
}.
Definition named (name ns : string) (labels : gmap string string) : t :=
  mk name ns labels ∅ GoTime.zeroTime None [] 0.
Definition withAnnotations (a : gmap string string) (m : t) : t :=
  mk (Name m) (Namespace m) (Labels m) a (CreationTimestamp m)
     (DeletionTimestamp m) (Finalizers m) (Generation m).
Definition withFinalizers (f : list string) (m : t) : t :=
  mk (Name m) (Namespace m) (Labels m) (Annotations m) (CreationTimestamp m)
     (DeletionTimestamp m) f (Generation m).
End ObjectMeta.

Module LoadProfile.
(** [APICallRateStatic] and [APICallRatePerNode] are fields the tests of
    the package set; the rate limiter reads them. *)
Record t := mk {
  Profile : string;
  NamespacesPerNode : option string;
  ResourcesPerNamespace : option Z;
  APICallRate : option Z;
  APICallRateStatic : option Z;
  APICallRatePerNode : option Z
}.
End LoadProfile.

Module NamespaceConfig.
Record t := mk {
  NamespacePrefix : string;
  Labels : gmap string string;
  Annotations : gmap string string
}.
End NamespaceConfig.

Module AnnotationChurnConfig.
Record t := mk {
  Enabled : bool;
  NetworkingAnnotations : bool;
  MachineConfigAnnotations : bool;
  UpdateIntervalMin : Z;
  UpdateIntervalMax : Z
}.
End AnnotationChurnConfig.

Module ResourceTypeConfig.
Record t := mk {
  Enabled : bool;
  Count : Z;
  NamespaceInterval : Z
}.
End ResourceTypeConfig.

Module EventTypeConfig.
Record t := mk {
  Type_ : string;
  Reason : string;
  Message : string;
  Weight : Z
}.
End EventTypeConfig.

Module EventsConfig.
Record t := mk {
  Enabled : bool;
  EventsPerNodePerHour : Z;
  EventTypes : list EventTypeConfig.t
}.
End EventsConfig.

Module ResourceChurnConfig.
Record t := mk {
  ConfigMaps : ResourceTypeConfig.t;
  Secrets : ResourceTypeConfig.t;
  Routes : ResourceTypeConfig.t;
  ImageStreams : ResourceTypeConfig.t;
  BuildConfigs : ResourceTypeConfig.t;
  Events : EventsConfig.t
}.
End ResourceChurnConfig.

Module CleanupConfig.
Record t := mk {
  Enabled : bool;
  GracefulDeletes : bool;
  CleanupDelaySeconds : Z;
  OrphanCleanup : bool
}.
End CleanupConfig.

Module ScaleLoadConfigSpec.
Record t := mk {
  Enabled : bool;
  KwokNodeSelector : gmap string string;
  LoadProfile : LoadProfile.t;
  NamespaceConfig : NamespaceConfig.t;
  AnnotationChurn : AnnotationChurnConfig.t;
  ResourceChurn : ResourceChurnConfig.t;
  CleanupConfig : CleanupConfig.t
}.
End ScaleLoadConfigSpec.

Module ResourceCounts.
Record t := mk {
  ConfigMaps : Z;
  Secrets : Z;
  Routes : Z;
  ImageStreams : Z;
  BuildConfigs : Z;
  Events : Z
}.
Definition zero : t := mk 0 0 0 0 0 0.
End ResourceCounts.

Module LoadGenerationMetrics.
Record t := mk {
  APICallsPerMinute : string;
  AverageReconcileTime : string;
  ErrorRate : string;
  ResourceCreationRate : string;
  ResourceUpdateRate : string;
  ResourceDeletionRate : string
}.
Definition zero : t := mk "" "" "" "" "" "".
End LoadGenerationMetrics.

Inductive ConditionStatus := ConditionTrue | ConditionFalse | ConditionUnknown.

Module Condition.
Record t := mk {
  Type_ : string;
  Status : ConditionStatus;
  LastTransitionTime : Time;
  Reason : string;
  Message : string
}.
End Condition.

Module ScaleLoadConfigStatus.
Record t := mk {
  ObservedGeneration : Z;
  KwokNodeCount : Z;
  GeneratedNamespaces : Z;
  TotalResources : ResourceCounts.t;
  LastReconcileTime : option Time;
  Conditions : list Condition.t;
  Metrics : LoadGenerationMetrics.t
}.
Definition zero : t :=
  mk 0 0 0 ResourceCounts.zero None [] LoadGenerationMetrics.zero.
End ScaleLoadConfigStatus.

Module ScaleLoadConfig.
Record t := mk {
  Meta : ObjectMeta.t;
  Spec : ScaleLoadConfigSpec.t;
  Status : ScaleLoadConfigStatus.t
}.
Definition Name (c : t) : string := ObjectMeta.Name (Meta c).
End ScaleLoadConfig.

Module Namespace.
(** [Phase] is [Status.Phase]: "Active", "Terminating" or empty. *)
Record t := mk {
  Meta : ObjectMeta.t;
  Phase : string
}.
Definition Name (n : t) : string := ObjectMeta.Name (Meta n).
Definition Labels (n : t) : gmap string string := ObjectMeta.Labels (Meta n).
Definition CreationTimestamp (n : t) : Time := ObjectMeta.CreationTimestamp (Meta n).
End Namespace.

Module Node.
Record t := mk { Meta : ObjectMeta.t }.
Definition Name (n : t) : string := ObjectMeta.Name (Meta n).
Definition Annotations (n : t) : gmap string string := ObjectMeta.Annotations (Meta n).
Definition withAnnotations (a : gmap string string) (n : t) : t :=
  mk (ObjectMeta.withAnnotations a (Meta n)).
End Node.

(** The namespaced objects the controller generates.  An object is its
    kind and its metadata: the generated payload (configuration text,
    credentials, route and build specifications, event messages) is not
    read back by the controller and is not part of the model. *)
Inductive Kind :=
  ConfigMap | Secret | Route | Service | ImageStream | BuildConfig | Event.

#[export] Instance Kind_eq_dec : EqDecision Kind.
Proof. solve_decision. Defined.

Module Object.
Record t := mk {
  Kind_ : Kind;
  Meta : ObjectMeta.t
}.
Definition Name (o : t) : string := ObjectMeta.Name (Meta o).
Definition Annotations (o : t) : gmap string string := ObjectMeta.Annotations (Meta o).
Definition withAnnotations (a : gmap string string) (o : t) : t :=
  mk (Kind_ o) (ObjectMeta.withAnnotations a (Meta o)).
End Object.

(** ** Errors *)

(** The reasons of an API status error that the controller tells apart
    ([errors.IsNotFound], [errors.IsAlreadyExists], [errors.IsConflict]). *)
Inductive StatusReason :=
  ReasonNotFound | ReasonAlreadyExists | ReasonConflict | ReasonOther.

(** A Go [error] value: a status error of the object store, an error made
    by [fmt.Errorf] (alone, or wrapping its cause with [%w]), or the
    timeout of [wait.ExponentialBackoff]. *)
Inductive error :=
| StatusError (r : StatusReason)
| Errorf (msg : string)
| Wrap (msg : string) (cause : error)
| ErrWaitTimeout.

Fixpoint reasonForError (e : error) : option StatusReason :=
  match e with
  | StatusError r => Some r
  | Wrap _ c => reasonForError c
  | Errorf _ | ErrWaitTimeout => None
  end.

Definition IsNotFound (e : error) : bool :=
  match reasonForError e with Some ReasonNotFound => true | _ => false end.
Definition IsAlreadyExists (e : error) : bool :=
  match reasonForError e with Some ReasonAlreadyExists => true | _ => false end.
Definition IsConflict (e : error) : bool :=
  match reasonForError e with Some ReasonConflict => true | _ => false end.

(** ** The reconciler and its environment *)

Module ResourceManager.
Record t := mk {
  namespace : string;
  associatedNode : string;
  lastUpdate : Time;
  resourceCounters : gmap string Z;
  updateTimers : gmap string Time
}.
End ResourceManager.

(** The fields of [ScaleLoadConfigReconciler] that a reconciliation reads
    or writes.  [resourceManagers] is [None] for the nil map.  A gauge
    holds the last value set, the counter the number of increments, the
    histogram the observed durations. *)
Module Reconciler.
Record t := mk {
  lastReconcileTime : Time;
  resourceManagers : option (gmap string ResourceManager.t);
  apiCallCounter : Z;
  lastRateLimitReset : Time;
  KwokNodeCount : Z;
  GeneratedNamespaces : Z;
  ErrorCount : Z;
  ReconcileTime : list Duration
}.
Definition init : t := mk GoTime.zeroTime None 0 GoTime.zeroTime 0 0 0 [].
End Reconciler.

(** What the controller asks of its environment: the client of the object
    store, the clock, the random source, the error log, and the fields of
    the reconciler itself.  A list call is made for a kind and answers
    with the metadata of the objects of this kind (the typed list of the
    client).  [Generated what] is the text made by one of
    the helpers that only draw random text (random names, addresses,
    hashes, identifiers); [what] names the helper. *)
Inductive Op : Type -> Type :=
| GetScaleLoadConfig (name : string) : Op (error + ScaleLoadConfig.t)
| UpdateScaleLoadConfig (c : ScaleLoadConfig.t) : Op (option error)
| StatusUpdate (c : ScaleLoadConfig.t) : Op (option error)
| ListNodes (selector : gmap string string) : Op (error + list Node.t)
| GetNode (name : string) : Op (error + Node.t)
| UpdateNode (n : Node.t) : Op (option error)
| ListNamespaces (selector : gmap string string) : Op (error + list Namespace.t)
| GetNamespace (name : string) : Op (error + Namespace.t)
| CreateNamespace (n : Namespace.t) : Op (option error)
| DeleteNamespace (n : Namespace.t) (gracePeriodSeconds : option Z) : Op (option error)
| List (k : Kind) (namespace : string) (selector : gmap string string)
  : Op (error + list ObjectMeta.t)
| Create (o : Object.t) : Op (option error)
| Delete (o : Object.t) : Op (option error)
| Update (o : Object.t) : Op (option error)
| Now : Op Time
| Sleep (d : Duration) : Op unit
| RandFloat64 : Op float64
| RandIntn (n : Z) : Op Z
| RandInt31n (n : Z) : Op Z
| RandInt63n (n : Z) : Op Z
| Generated (what : string) : Op string
| LogError (e : error) (msg : string) : Op unit
| ReadFields : Op Reconciler.t
| WriteFields (r : Reconciler.t) : Op unit.

(** Why a program stops without returning: a run-time panic, or a value
    the language leaves to the implementation. *)
Inductive StopReason :=
| Panic (msg : string)
| ImplementationDependent (what : string).

(** A program: it returns, stops, or performs an operation and goes on
    with the answer. *)
Inductive Prog (A : Type) : Type :=
| Ret (a : A)
| Stop (r : StopReason)
| Vis {X : Type} (op : Op X) (k : X -> Prog A).

Arguments Ret {A} a.
Arguments Stop {A} r.
Arguments Vis {A X} op k.

Fixpoint bind {A B : Type} (p : Prog A) (f : A -> Prog B) : Prog B :=
  match p with
  | Ret a => f a
  | Stop r => Stop r
  | Vis op k => Vis op (fun x => bind (k x) f)
  end.

#[export] Instance Prog_ret : MRet Prog := @Ret.
#[export] Instance Prog_bind : MBind Prog := fun A B f p => bind p f.

Definition call {X : Type} (op : Op X) : Prog X := Vis op Ret.

Definition readFields : Prog Reconciler.t := call ReadFields.
Definition modifyFields (f : Reconciler.t -> Reconciler.t) : Prog unit :=
  r ← readFields; call (WriteFields (f r)).

(** A [for] loop over the values [l] of its variable.  The body gets the
    variables the loop updates and gives them back ([inl]), or leaves the
    function with a result ([inr]). *)
Fixpoint forEach {I S R : Type} (l : list I) (s : S)
  (body : I -> S -> Prog (S + R)) : Prog (S + R) :=
  match l with
  | [] => Ret (inl s)
  | i :: l' =>
      r ← body i s;
      match r with
      | inl s' => forEach l' s' body
      | inr v => Ret (inr v)
      end
  end.

(** [math/rand]: [Intn], [Int31n] and [Int63n] panic unless [n > 0]. *)
Definition Intn (n : Z) : Prog Z :=
  if n <=? 0 then Stop (Panic "invalid argument to Intn") else call (RandIntn n).
Definition Int31n (n : Z) : Prog Z :=
  if n <=? 0 then Stop (Panic "invalid argument to Int31n") else call (RandInt31n n).
Definition Int63n (n : Z) : Prog Z :=
  if n <=? 0 then Stop (Panic "invalid argument to Int63n") else call (RandInt63n n).

(** [time.Since(t)]. *)
Definition Since (t : Time) : Prog Duration :=
  now ← call Now; mret (GoTime.Sub now t).

(** *** Running a program *)

(** One interaction: the operation and the answer of the environment. *)
Inductive Interaction : Type :=
| Did (X : Type) (op : Op X) (x : X).
Arguments Did {X} op x.

Inductive Outcome (A : Type) :=
| Returned (a : A)
| Stopped (r : StopReason).
Arguments Returned {A} a.
Arguments Stopped {A} r.

(** An environment: a state of the world and its answer to every
    operation.  The fields of the reconciler are kept by the run itself. *)
Definition Handler (W : Type) : Type := forall X : Type, Op X -> W -> X * W.

Module Run.
Record t (A W : Type) := mk {
  outcome : Outcome A;
  fields : Reconciler.t;
  world : W;
  trace : list Interaction
}.
Arguments mk {A W}.
Arguments outcome {A W}.
Arguments fields {A W}.
Arguments world {A W}.
Arguments trace {A W}.
End Run.

Definition answer {W X : Type} (h : Handler W) (op : Op X)
  (r : Reconciler.t) (w : W) : X * Reconciler.t * W :=
  match op in Op X return X * Reconciler.t * W with
  | ReadFields => (r, r, w)
  | WriteFields r' => (tt, r', w)
  | op' => let '(x, w') := h _ op' w in (x, r, w')
  end.

(** Operations on the fields of the reconciler leave no trace. *)
Definition silent {X : Type} (op : Op X) : bool :=
  match op with
  | ReadFields | WriteFields _ => true
  | _ => false
  end.

Fixpoint run {W A : Type} (h : Handler W) (p : Prog A)
  (r : Reconciler.t) (w : W) : Run.t A W :=
  match p with
  | Ret a => Run.mk (Returned a) r w []
  | Stop why => Run.mk (Stopped why) r w []
  | Vis op k =>
      let '(x, r', w') := answer h op r w in
      let res := run h (k x) r' w' in
      Run.mk (Run.outcome res) (Run.fields res) (Run.world res)
        (if silent op then Run.trace res else Did op x :: Run.trace res)
  end.


(** ** Scaling plan ([scaleloadconfig_controller.go]) *)

Section Paths.
Variable config : ScaleLoadConfig.t.
Definition spec : ScaleLoadConfigSpec.t := ScaleLoadConfig.Spec config.
Definition loadProfile : LoadProfile.t := ScaleLoadConfigSpec.LoadProfile spec.
Definition resourceChurn : ResourceChurnConfig.t := ScaleLoadConfigSpec.ResourceChurn spec.
Definition annotationChurn : AnnotationChurnConfig.t := ScaleLoadConfigSpec.AnnotationChurn spec.
Definition cleanupConfig : CleanupConfig.t := ScaleLoadConfigSpec.CleanupConfig spec.
Definition namespaceConfig : NamespaceConfig.t := ScaleLoadConfigSpec.NamespaceConfig spec.
End Paths.

(** [parseFloat] parses a string as float64. *)
Definition parseFloat (s : string) : float64 * option Strconv.NumError :=
  Strconv.ParseFloat s.

(** [int(math.Ceil(float64(nodeCount) * ratio))], [int] being 64 bits wide. *)
Definition ceilTimes (nodeCount : Z) (ratio : float64) : option Z :=
  to_int64 (Ceil (mul (of_Z nodeCount) ratio)).

(** [calculateTargetNamespaces] computes how many namespaces should exist
    based on node count and profile. *)
Definition calculateTargetNamespaces (config : ScaleLoadConfig.t) (nodeCount : Z)
  : option Z :=
  match LoadProfile.NamespacesPerNode (loadProfile config) with
  | Some s =>
      match parseFloat s with
      | (namespacesPerNode, None) => ceilTimes nodeCount namespacesPerNode
      | (_, Some _) => ceilTimes nodeCount lit_0_6
      end
  | None =>
      let profile := LoadProfile.Profile (loadProfile config) in
      if String.eqb profile "development" then ceilTimes nodeCount lit_0_2
      else if String.eqb profile "staging" then ceilTimes nodeCount lit_0_4
      else if String.eqb profile "extreme" then ceilTimes nodeCount lit_1_0
      else ceilTimes nodeCount lit_0_6
  end.

(** [calculateReconcileInterval] determines how often to reconcile based on
    load profile. *)
Definition calculateReconcileInterval (config : ScaleLoadConfig.t) : Duration :=
  let profile := LoadProfile.Profile (loadProfile config) in
  if String.eqb profile "development" then 2 * GoTime.Minute
  else if String.eqb profile "staging" then 90 * GoTime.Second
  else if String.eqb profile "extreme" then 30 * GoTime.Second
  else 60 * GoTime.Second.

(** ** Library interfaces left open *)

(** The [time.RFC3339] layout: [t.Format(time.RFC3339)] and
    [time.Parse(time.RFC3339, s)]. *)
Class TimeLayout := {
  FormatRFC3339 : Time -> string;
  ParseRFC3339 : string -> option Time
}.

(** [sort.Slice]: some permutation of the slice in which no element is
    before ([less]) an earlier one; the order of elements that compare
    equal is not specified. *)
Class SliceSorter := {
  sortSlice : forall A : Type, (A -> A -> bool) -> list A -> list A;
  sortSlice_Permutation :
    forall (A : Type) (less : A -> A -> bool) (l : list A),
      Permutation (sortSlice A less l) l;
  sortSlice_Sorted :
    forall (A : Type) (key : A -> Z) (l : list A),
      Sorted (fun a b => key a <= key b) (sortSlice A (fun a b => key a <? key b) l)
}.
Arguments sortSlice {_ A} less l.

(** A [for] loop without early exit, over the values [l] of its variable. *)
Fixpoint forAll {I S : Type} (l : list I) (s : S) (body : I -> S -> Prog S)
  : Prog S :=
  match l with
  | [] => mret s
  | i :: l' => s' ← body i s; forAll l' s' body
  end.

(** The values [hi, hi - 1, ..., lo] of a descending loop variable. *)
Definition countDown (hi lo : Z) : list Z := reverse (seqZ lo (hi - lo + 1)).

(** [l[i]] for a slice: out of range it panics ([None]). *)
Definition index {A : Type} (l : list A) (i : Z) : option A :=
  if i <? 0 then None else l !! Z.to_nat i.

Definition len {A : Type} (l : list A) : Z := Z.of_nat (length l).

(** ** Resources of a namespace ([resource_manager.go]) *)

Section ResourceManager.
Context `{TimeLayout}.

Definition managedBy : string := "scale.openshift.io/managed-by".
Definition resourceType : string := "scale.openshift.io/resource-type".
Definition createdBy : string := "scale.openshift.io/created-by".
Definition namespaceIndex : string := "scale.openshift.io/namespace-index".

(** [client.MatchingLabels] of the list calls. *)
Definition matchingLabels (config : ScaleLoadConfig.t) (type : string)
  : gmap string string :=
  {[ managedBy := ScaleLoadConfig.Name config; resourceType := type ]}.

(** The generated objects: [load-<kind>-<index>] with the labels of the
    operator. *)
Definition generated (k : Kind) (config : ScaleLoadConfig.t) (name namespace : string)
  (type component : string) (i : Z) : Object.t :=
  Object.mk k
    (ObjectMeta.named name namespace
       {[ managedBy := ScaleLoadConfig.Name config;
          resourceType := type;
          createdBy := "sim-operator";
          "app.kubernetes.io/name" := "load-app-" +:+ Strconv.FormatInt i;
          "app.kubernetes.io/component" := component ]}).

Definition generateConfigMap (config : ScaleLoadConfig.t) (namespace : string) (i : Z) :=
  generated ConfigMap config ("load-config-" +:+ Strconv.FormatInt i) namespace
    "configmap" "configuration" i.

Definition generateSecret (config : ScaleLoadConfig.t) (namespace : string) (i : Z) :=
  generated Secret config ("load-secret-" +:+ Strconv.FormatInt i) namespace
    "secret" "credentials" i.

Definition generateRoute (config : ScaleLoadConfig.t) (namespace : string) (i : Z) :=
  generated Route config ("load-route-" +:+ Strconv.FormatInt i) namespace
    "route" "frontend" i.

Definition generateService (config : ScaleLoadConfig.t) (namespace : string) (i : Z) :=
  generated Service config ("load-service-" +:+ Strconv.FormatInt i) namespace
    "service" "backend" i.

Definition generateImageStream (config : ScaleLoadConfig.t) (namespace : string) (i : Z) :=
  generated ImageStream config ("load-image-" +:+ Strconv.FormatInt i) namespace
    "imagestream" "image" i.

Definition generateBuildConfig (config : ScaleLoadConfig.t) (namespace : string) (i : Z) :=
  generated BuildConfig config ("load-build-" +:+ Strconv.FormatInt i) namespace
    "buildconfig" "build" i.

(** [checkNamespaceStatus] checks namespace existence and returns readiness
    status with phase info. *)
Definition checkNamespaceStatus (namespaceName : string) : Prog (bool * string) :=
  got ← call (GetNamespace namespaceName);
  match got with
  | inl _ => mret (false, "NotFound")
  | inr namespace =>
      let phase := if String.eqb (Namespace.Phase namespace) "" then "Unknown"
                   else Namespace.Phase namespace in
      let ready := String.eqb (Namespace.Phase namespace) "Active"
                   || String.eqb (Namespace.Phase namespace) "" in
      mret (ready, phase)
  end.

(** [isNamespaceReady] checks if a namespace exists and is in Active phase. *)
Definition isNamespaceReady (namespaceName : string) : Prog bool :=
  '(ready, _) ← checkNamespaceStatus namespaceName; mret ready.

(** [shouldCreateResourceForNamespace] checks if a resource should be
    created based on namespace interval. *)
Definition shouldCreateResourceForNamespace (namespace : Namespace.t) (interval : Z)
  : bool :=
  if interval <=? 1 then true
  else
    match Namespace.Labels namespace !! namespaceIndex with
    | None => true
    | Some indexStr =>
        match Strconv.Atoi indexStr with
        | (_, Some _) => true
        | (i, None) => Z.rem i interval =? 0
        end
    end.

(** [performResourceChurn] simulates realistic resource update patterns:
    each resource is updated with chance 0.1; a failed update is skipped.
    It returns the number of updates that succeeded. *)
Definition performResourceChurn (config : ScaleLoadConfig.t)
  (resources : list Object.t) (namespace type : string) : Prog Z :=
  if len resources =? 0 then mret 0
  else
    let updateChance := of_ratio false 1 10 in
    forAll resources 0 (fun resource updatedCount =>
      draw ← call RandFloat64;
      if ltb draw updateChance then
        now ← call Now;
        iteration ← Intn 1000;
        let annotations :=
          <[ "scale.openshift.io/churn-iteration" := Strconv.FormatInt iteration ]>
            (<[ "scale.openshift.io/last-churn" := FormatRFC3339 now ]>
               (Object.Annotations resource)) in
        e ← call (Update (Object.withAnnotations annotations resource));
        match e with
        | Some _ => mret updatedCount
        | None => mret (int32 (updatedCount + 1))
        end
      else mret updatedCount).

(** [manageConfigMaps] creates and manages ConfigMap resources. *)
Definition manageConfigMaps (config : ScaleLoadConfig.t) (namespace : string)
  (targetCount : Z) : Prog (Z * option error) :=
  listed ← call (List ConfigMap namespace (matchingLabels config "configmap"));
  match listed with
  | inl err => mret (0, Some (Wrap "failed to list ConfigMaps" err))
  | inr listed =>
      let items := Object.mk ConfigMap <$> listed in
      let currentCount := len items in
      up ← (if int32 currentCount <? targetCount then
              forEach (seqZ (int32 currentCount) (targetCount - int32 currentCount)) 0
                (fun i created =>
                   e ← call (Create (generateConfigMap config namespace i));
                   match e with
                   | Some err =>
                       _ ← call (LogError err "Failed to create ConfigMap");
                       mret (inr (int32 (int32 currentCount + created),
                                  Some (Wrap "failed to create ConfigMap" err)))
                   | None => mret (inl (int32 (created + 1)))
                   end)
            else mret (inl 0));
      match up with
      | inr result => mret result
      | inl created =>
          down ← (if targetCount <? int32 currentCount then
                    forEach (countDown (int32 (int32 (len items) - 1)) targetCount) 0
                      (fun i deleted =>
                         match index items i with
                         | None => Stop (Panic "index out of range")
                         | Some item =>
                             e ← call (Delete item);
                             match e with
                             | Some err =>
                                 _ ← call (LogError err "Failed to delete ConfigMap");
                                 mret (inr (int32 (int32 currentCount - deleted),
                                            Some (Wrap "failed to delete ConfigMap" err)))
                             | None => mret (inl (int32 (deleted + 1)))
                             end
                         end)
                  else mret (inl 0));
          match down with
          | inr result => mret result
          | inl deleted =>
              updatedCount ← performResourceChurn config items namespace "configmap";
              mret (targetCount, None)
          end
      end
  end.

(** [manageSecrets] creates and manages Secret resources. *)
Definition manageSecrets (config : ScaleLoadConfig.t) (namespace : string)
  (targetCount : Z) : Prog (Z * option error) :=
  listed ← call (List Secret namespace (matchingLabels config "secret"));
  match listed with
  | inl err => mret (0, Some (Wrap "failed to list Secrets" err))
  | inr listed =>
      let items := Object.mk Secret <$> listed in
      let currentCount := len items in
      up ← (if int32 currentCount <? targetCount then
              forEach (seqZ (int32 currentCount) (targetCount - int32 currentCount)) 0
                (fun i created =>
                   e ← call (Create (generateSecret config namespace i));
                   match e with
                   | Some err =>
                       _ ← call (LogError err "Failed to create Secret");
                       mret (inr (int32 (int32 currentCount + created),
                                  Some (Wrap "failed to create Secret" err)))
                   | None => mret (inl (int32 (created + 1)))
                   end)
            else mret (inl 0));
      match up with
      | inr result => mret result
      | inl created =>
          down ← (if targetCount <? int32 currentCount then
                    forEach (countDown (int32 (int32 (len items) - 1)) targetCount) 0
                      (fun i deleted =>
                         match index items i with
                         | None => Stop (Panic "index out of range")
                         | Some item =>
                             e ← call (Delete item);
                             match e with
                             | Some err =>
                                 _ ← call (LogError err "Failed to delete Secret");
                                 mret (inr (int32 (int32 currentCount - deleted),
                                            Some (Wrap "failed to delete Secret" err)))
                             | None => mret (inl (int32 (deleted + 1)))
                             end
                         end)
                  else mret (inl 0));
          match down with
          | inr result => mret result
          | inl deleted =>
              updatedCount ← performResourceChurn config items namespace "secret";
              mret (targetCount, None)
          end
      end
  end.

(** [manageRoutes] creates and manages Route resources; every route has a
    Service, created before it and deleted after it. *)
Definition manageRoutes (config : ScaleLoadConfig.t) (namespace : string)
  (targetCount : Z) : Prog (Z * option error) :=
  listed ← call (List Route namespace (matchingLabels config "route"));
  match listed with
  | inl err => mret (0, Some (Wrap "failed to list Routes" err))
  | inr listed =>
      let items := Object.mk Route <$> listed in
      let currentCount := len items in
      up ← (if int32 currentCount <? targetCount then
              forEach (seqZ (int32 currentCount) (targetCount - int32 currentCount)) tt
                (fun i _ =>
                   e ← call (Create (generateService config namespace i));
                   match e with
                   | Some err =>
                       if negb (IsAlreadyExists err) then
                         mret (inr (int32 currentCount,
                                    Some (Wrap "failed to create Service" err)))
                       else
                         e ← call (Create (generateRoute config namespace i));
                         match e with
                         | Some err =>
                             mret (inr (int32 currentCount,
                                        Some (Wrap "failed to create Route" err)))
                         | None => mret (inl tt)
                         end
                   | None =>
                       e ← call (Create (generateRoute config namespace i));
                       match e with
                       | Some err =>
                           mret (inr (int32 currentCount,
                                      Some (Wrap "failed to create Route" err)))
                       | None => mret (inl tt)
                       end
                   end)
            else mret (inl tt));
      match up with
      | inr result => mret result
      | inl _ =>
          down ← (if targetCount <? int32 currentCount then
                    forEach (countDown (int32 (int32 (len items) - 1)) targetCount) tt
                      (fun i _ =>
                         match index items i with
                         | None => Stop (Panic "index out of range")
                         | Some item =>
                             e ← call (Delete item);
                             match e with
                             | Some err =>
                                 mret (inr (int32 currentCount,
                                            Some (Wrap "failed to delete Route" err)))
                             | None =>
                                 let service :=
                                   Object.mk Service
                                     (ObjectMeta.named
                                        ("load-service-" +:+ Strconv.FormatInt i)
                                        namespace ∅) in
                                 e ← call (Delete service);
                                 match e with
                                 | Some err =>
                                     if negb (IsNotFound err) then
                                       mret (inr (int32 currentCount,
                                                  Some (Wrap "failed to delete Service" err)))
                                     else mret (inl tt)
                                 | None => mret (inl tt)
                                 end
                             end
                         end)
                  else mret (inl tt));
          match down with
          | inr result => mret result
          | inl _ => mret (targetCount, None)
          end
      end
  end.

(** [manageImageStreams] creates and manages ImageStream resources. *)
Definition manageImageStreams (config : ScaleLoadConfig.t) (namespace : string)
  (targetCount : Z) : Prog (Z * option error) :=
  listed ← call (List ImageStream namespace (matchingLabels config "imagestream"));
  match listed with
  | inl err => mret (0, Some (Wrap "failed to list ImageStreams" err))
  | inr listed =>
      let items := Object.mk ImageStream <$> listed in
      let currentCount := len items in
      up ← (if int32 currentCount <? targetCount then
              forEach (seqZ (int32 currentCount) (targetCount - int32 currentCount)) tt
                (fun i _ =>
                   e ← call (Create (generateImageStream config namespace i));
                   match e with
                   | Some err =>
                       mret (inr (int32 currentCount,
                                  Some (Wrap "failed to create ImageStream" err)))
                   | None => mret (inl tt)
                   end)
            else mret (inl tt));
      match up with
      | inr result => mret result
      | inl _ =>
          down ← (if targetCount <? int32 currentCount then
                    forEach (countDown (int32 (int32 (len items) - 1)) targetCount) tt
                      (fun i _ =>
                         match index items i with
                         | None => Stop (Panic "index out of range")
                         | Some item =>
                             e ← call (Delete item);
                             match e with
                             | Some err =>
                                 mret (inr (int32 currentCount,
                                            Some (Wrap "failed to delete ImageStream" err)))
                             | None => mret (inl tt)
                             end
                         end)
                  else mret (inl tt));
          match down with
          | inr result => mret result
          | inl _ => mret (targetCount, None)
          end
      end
  end.

(** [manageBuildConfigs] creates and manages BuildConfig resources. *)
Definition manageBuildConfigs (config : ScaleLoadConfig.t) (namespace : string)
  (targetCount : Z) : Prog (Z * option error) :=
  listed ← call (List BuildConfig namespace (matchingLabels config "buildconfig"));
  match listed with
  | inl err => mret (0, Some (Wrap "failed to list BuildConfigs" err))
  | inr listed =>
      let items := Object.mk BuildConfig <$> listed in
      let currentCount := len items in
      up ← (if int32 currentCount <? targetCount then
              forEach (seqZ (int32 currentCount) (targetCount - int32 currentCount)) tt
                (fun i _ =>
                   e ← call (Create (generateBuildConfig config namespace i));
                   match e with
                   | Some err =>
                       mret (inr (int32 currentCount,
                                  Some (Wrap "failed to create BuildConfig" err)))
                   | None => mret (inl tt)
                   end)
            else mret (inl tt));
      match up with
      | inr result => mret result
      | inl _ =>
          down ← (if targetCount <? int32 currentCount then
                    forEach (countDown (int32 (int32 (len items) - 1)) targetCount) tt
                      (fun i _ =>
                         match index items i with
                         | None => Stop (Panic "index out of range")
                         | Some item =>
                             e ← call (Delete item);
                             match e with
                             | Some err =>
                                 mret (inr (int32 currentCount,
                                            Some (Wrap "failed to delete BuildConfig" err)))
                             | None => mret (inl tt)
                             end
                         end)
                  else mret (inl tt));
          match down with
          | inr result => mret result
          | inl _ => mret (targetCount, None)
          end
      end
  end.

(** The event types generated when the configuration gives none. *)
Definition defaultEventTypes : list EventTypeConfig.t :=
  [ EventTypeConfig.mk "Normal" "Started" "Container started successfully" 30;
    EventTypeConfig.mk "Normal" "Created" "Created container %s" 25;
    EventTypeConfig.mk "Normal" "Pulled" "Successfully pulled image" 20;
    EventTypeConfig.mk "Warning" "FailedMount" "Unable to mount volumes" 10;
    EventTypeConfig.mk "Warning" "FailedScheduling" "Pod scheduling failed" 8;
    EventTypeConfig.mk "Normal" "Scheduled" "Successfully assigned pod" 7 ].

(** The first event whose running weight exceeds [randomValue]. *)
Fixpoint pickWeighted (events : list EventTypeConfig.t) (randomValue currentWeight : Z)
  : option EventTypeConfig.t :=
  match events with
  | [] => None
  | event :: rest =>
      let currentWeight := int32 (currentWeight + EventTypeConfig.Weight event) in
      if randomValue <? currentWeight then Some event
      else pickWeighted rest randomValue currentWeight
  end.

Definition totalWeight (events : list EventTypeConfig.t) : Z :=
  fold_left (fun total event => int32 (total + EventTypeConfig.Weight event)) events 0.

(** [selectWeightedEventType]: a random event type, by weight. *)
Definition selectWeightedEventType (events : list EventTypeConfig.t)
  : Prog EventTypeConfig.t :=
  randomValue ← Int31n (totalWeight events);
  match pickWeighted events randomValue 0 with
  | Some event => mret event
  | None =>
      match events with
      | event :: _ => mret event
      | [] => Stop (Panic "index out of range")
      end
  end.

(** [t.Unix()]: seconds since the epoch. *)
Definition Unix (t : Time) : Z := t / 10 ^ 9.

(** The event types in use: those of the configuration when it has any. *)
Definition eventTypesOf (config : ScaleLoadConfig.t) : list EventTypeConfig.t :=
  let custom := EventsConfig.EventTypes (ResourceChurnConfig.Events (resourceChurn config)) in
  if 0 <? len custom then custom else defaultEventTypes.

(** The event [load-event-<index>-<unix time>] of a namespace. *)
Definition eventAt (config : ScaleLoadConfig.t) (namespace : string) (i : Z) (t : Time)
  : Object.t :=
  Object.mk Event
    (ObjectMeta.named
       ("load-event-" +:+ Strconv.FormatInt i +:+ "-" +:+ Strconv.FormatInt (Unix t))
       namespace
       {[ managedBy := ScaleLoadConfig.Name config; createdBy := "sim-operator" ]}).

(** [generateEvent] creates realistic Event resources. *)
Definition generateEvent (config : ScaleLoadConfig.t) (namespace : string) (i : Z)
  : Prog Object.t :=
  selectedEvent ← selectWeightedEventType (eventTypesOf config);
  named ← call Now;
  firstTimestamp ← call Now;
  lastTimestamp ← call Now;
  mret (eventAt config namespace i named).

(** The rate of events per hour in use: 50 unless the configuration gives
    a positive one. *)
Definition eventsPerHourOf (config : ScaleLoadConfig.t) : Z :=
  let configured :=
    EventsConfig.EventsPerNodePerHour (ResourceChurnConfig.Events (resourceChurn config)) in
  if configured <=? 0 then 50 else configured.

(** The time since the last reconcile as [manageEvents] takes it: a minute
    on the first run. *)
Definition sinceLastReconcile (r : Reconciler.t) (now : Time) : Duration :=
  if GoTime.IsZero (Reconciler.lastReconcileTime r) then 1 * GoTime.Minute
  else GoTime.Sub now (Reconciler.lastReconcileTime r).

(** [float64(eventsPerHour) * timeSinceLastReconcile.Hours()]. *)
Definition eventsDue (config : ScaleLoadConfig.t) (since : Duration) : float64 :=
  mul (of_Z (eventsPerHourOf config)) (GoTime.Hours since).

(** [manageEvents] creates realistic Event resources to simulate cluster
    activity.  It returns the number of events created. *)
Definition manageEvents (config : ScaleLoadConfig.t) (namespace : string)
  : Prog (Z * option error) :=
  let eventsPerHour := eventsPerHourOf config in
  r ← readFields;
  now ← call Now;
  let timeSinceLastReconcile := sinceLastReconcile r now in
  match to_int32 (eventsDue config timeSinceLastReconcile) with
  | None => Stop (ImplementationDependent "float64 to int32 conversion out of range")
  | Some computed =>
      let eventsToCreate := if 10 <? computed then 10 else computed in
      '(createdCount, failedCount) ←
        forAll (seqZ 0 eventsToCreate) (0, 0) (fun i '(createdCount, failedCount) =>
          event ← generateEvent config namespace i;
          e ← call (Create event);
          match e with
          | Some _ => mret (createdCount, int32 (failedCount + 1))
          | None => mret (int32 (createdCount + 1), failedCount)
          end);
      mret (createdCount, None)
  end.

(** One of the five blocks of [manageNamespaceResources] that are alike:
    a kind that is enabled and passes the interval gate of the namespace
    is managed toward its configured count, and the count its manage
    function returned is recorded under [key]; a failure is logged and
    records nothing. *)
Definition managed (config : ScaleLoadConfig.t) (namespace : Namespace.t)
  (type : ResourceTypeConfig.t) (key : string)
  (manage : ScaleLoadConfig.t -> string -> Z -> Prog (Z * option error))
  (failure : string) (resourceCounts : gmap string Z) : Prog (gmap string Z) :=
  if ResourceTypeConfig.Enabled type then
    if shouldCreateResourceForNamespace namespace (ResourceTypeConfig.NamespaceInterval type)
    then
      '(count, err) ← manage config (Namespace.Name namespace) (ResourceTypeConfig.Count type);
      match err with
      | Some e => _ ← call (LogError e failure); mret resourceCounts
      | None => mret (<[ key := count ]> resourceCounts)
      end
    else mret resourceCounts
  else mret resourceCounts.

(** The events block of [manageNamespaceResources]. *)
Definition managedEvents (config : ScaleLoadConfig.t) (name : string)
  (resourceCounts : gmap string Z) : Prog (gmap string Z) :=
  if EventsConfig.Enabled (ResourceChurnConfig.Events (resourceChurn config)) then
    '(count, err) ← manageEvents config name;
    match err with
    | Some e => _ ← call (LogError e "Failed to manage Events"); mret resourceCounts
    | None => mret (<[ "events" := count ]> resourceCounts)
    end
  else mret resourceCounts.

(** [manageNamespaceResources] creates and manages resources within a
    namespace.  Its result maps a resource kind to the count its manage
    function returned. *)
Definition manageNamespaceResources (config : ScaleLoadConfig.t)
  (namespace : Namespace.t) : Prog (gmap string Z * option error) :=
  let churn := resourceChurn config in
  let name := Namespace.Name namespace in
  startTime ← call Now;
  '(ready, phase) ← checkNamespaceStatus name;
  if negb ready then
    mret (∅, Some (Errorf ("namespace " +:+ name +:+ " is not ready (phase: " +:+ phase +:+ ")")))
  else
    resourceCounts ← managed config namespace (ResourceChurnConfig.ConfigMaps churn)
                       "configMaps" manageConfigMaps "Failed to manage ConfigMaps" ∅;
    resourceCounts ← managed config namespace (ResourceChurnConfig.Secrets churn)
                       "secrets" manageSecrets "Failed to manage Secrets" resourceCounts;
    resourceCounts ← managed config namespace (ResourceChurnConfig.Routes churn)
                       "routes" manageRoutes "Failed to manage Routes" resourceCounts;
    resourceCounts ← managed config namespace (ResourceChurnConfig.ImageStreams churn)
                       "imageStreams" manageImageStreams "Failed to manage ImageStreams"
                       resourceCounts;
    resourceCounts ← managed config namespace (ResourceChurnConfig.BuildConfigs churn)
                       "buildConfigs" manageBuildConfigs "Failed to manage BuildConfigs"
                       resourceCounts;
    resourceCounts ← managedEvents config name resourceCounts;
    duration ← Since startTime;
    mret (resourceCounts, None).

End ResourceManager.

(** ** [k8s.io/apimachinery/pkg/util/wait] *)

Module Backoff.
(** [wait.Backoff]; a zero [Cap] is no cap. *)
Record t := mk {
  Duration_ : Duration;
  Factor : float64;
  Jitter : float64;
  Steps : Z;
  Cap : Duration
}.
End Backoff.

(** [time.Duration(f)] for a float [f]. *)
Definition durationOfFloat (f : float64) : Prog Duration :=
  match to_int64 f with
  | Some d => mret d
  | None => Stop (ImplementationDependent "float64 to int64 conversion out of range")
  end.

(** [wait.Jitter]: [duration] plus a random share of [maxFactor * duration]. *)
Definition Jitter (duration : Duration) (maxFactor : float64) : Prog Duration :=
  let maxFactor := if ltb zero maxFactor then maxFactor else lit_1_0 in
  draw ← call RandFloat64;
  extra ← durationOfFloat (mul (mul draw maxFactor) (of_Z duration));
  mret (int64 (duration + extra)).

(** [Backoff.Step]: the next wait, and the backoff after it. *)
Definition Step (b : Backoff.t) : Prog (Duration * Backoff.t) :=
  if Backoff.Steps b <? 1 then
    if ltb zero (Backoff.Jitter b) then
      d ← Jitter (Backoff.Duration_ b) (Backoff.Jitter b); mret (d, b)
    else mret (Backoff.Duration_ b, b)
  else
    let steps := Backoff.Steps b - 1 in
    let duration := Backoff.Duration_ b in
    next ← (if SFeqb (Backoff.Factor b) zero then mret (duration, steps)
            else
              grown ← durationOfFloat (mul (of_Z duration) (Backoff.Factor b));
              if (0 <? Backoff.Cap b) && (Backoff.Cap b <? grown)
              then mret (Backoff.Cap b, 0)
              else mret (grown, steps));
    let b' := Backoff.mk (fst next) (Backoff.Factor b) (Backoff.Jitter b) (snd next)
                (Backoff.Cap b) in
    if ltb zero (Backoff.Jitter b) then
      d ← Jitter duration (Backoff.Jitter b); mret (d, b')
    else mret (duration, b').

(** [wait.ExponentialBackoff]: it runs [condition] until it holds or
    fails, at most [Steps] times, sleeping a growing time between two
    attempts; when the attempts are used up the error is [ErrWaitTimeout]. *)
Fixpoint backoffLoop (fuel : nat) (b : Backoff.t)
  (condition : Prog (bool * option error)) : Prog (option error) :=
  match fuel with
  | O => mret (Some ErrWaitTimeout)
  | S fuel' =>
      if Backoff.Steps b <=? 0 then mret (Some ErrWaitTimeout)
      else
        '(ok, err) ← condition;
        match err : option error with
        | Some e => mret (Some e)
        | None =>
            if ok : bool then mret None
            else if Backoff.Steps b =? 1 then mret (Some ErrWaitTimeout)
            else
              '(d, b') ← Step b;
              _ ← call (Sleep d);
              backoffLoop fuel' b' condition
        end
  end.

Definition ExponentialBackoff (b : Backoff.t) (condition : Prog (bool * option error))
  : Prog (option error) :=
  backoffLoop (Z.to_nat (Backoff.Steps b)) b condition.

(** ** Namespaces ([scaleloadconfig_controller.go]) *)

Module Result.
(** [ctrl.Result]. *)
Record t := mk {
  Requeue : bool;
  RequeueAfter : Duration
}.
Definition empty : t := mk false 0.
End Result.

Section Controller.
Context `{TimeLayout} `{SliceSorter}.

Definition setResourceManagers (m : option (gmap string ResourceManager.t))
  (r : Reconciler.t) : Reconciler.t :=
  Reconciler.mk (Reconciler.lastReconcileTime r) m (Reconciler.apiCallCounter r)
    (Reconciler.lastRateLimitReset r) (Reconciler.KwokNodeCount r)
    (Reconciler.GeneratedNamespaces r) (Reconciler.ErrorCount r)
    (Reconciler.ReconcileTime r).

(** [delete(r.resourceManagers, name)]: nothing happens on the nil map. *)
Definition forgetResourceManager (name : string) : Prog unit :=
  modifyFields (fun r =>
    setResourceManagers (delete name <$> Reconciler.resourceManagers r) r).

(** [getKwokNodes] retrieves nodes matching the KWOK selector. *)
Definition getKwokNodes (selector : gmap string string) : Prog (error + list Node.t) :=
  let selector := if decide (size selector = 0%nat) then {[ "type" := "kwok" ]} else selector in
  listed ← call (ListNodes selector);
  match listed with
  | inl err => mret (inl (Wrap "failed to list KWOK nodes" err))
  | inr items => mret (inr items)
  end.

(** [getManagedNamespaces] gets namespaces managed by this operator. *)
Definition getManagedNamespaces (config : ScaleLoadConfig.t)
  : Prog (error + list Namespace.t) :=
  call (ListNamespaces {[ managedBy := ScaleLoadConfig.Name config ]}).

(** [createNamespaces] creates new namespaces with proper labeling. *)
Definition createNamespaces (config : ScaleLoadConfig.t) (kwokNodes : list Node.t)
  (count : Z) : Prog (option error) :=
  let configured := NamespaceConfig.NamespacePrefix (namespaceConfig config) in
  let prefix := if String.eqb configured "" then "openshift-fake-" else configured in
  existing ← getManagedNamespaces config;
  match existing with
  | inl err => mret (Some (Wrap "failed to get existing namespaces for indexing" err))
  | inr existingNamespaces =>
      let startIndex := len existingNamespaces in
      created ← forEach (seqZ 0 count) tt (fun i _ =>
        suffix ← call (Generated "generateRandomString");
        now ← call Now;
        let namespaceName :=
          prefix +:+ suffix +:+ "-" +:+ Strconv.FormatInt (Z.rem (Unix now) 10000) in
        associatedNode ←
          (if 0 <? len kwokNodes then
             chosen ← Intn (len kwokNodes);
             match index kwokNodes chosen with
             | Some node => mret (Node.Name node)
             | None => Stop (Panic "index out of range")
             end
           else mret "");
        let labels : gmap string string :=
          NamespaceConfig.Labels (namespaceConfig config)
          ∪ {[ managedBy := ScaleLoadConfig.Name config;
               "scale.openshift.io/associated-node" := associatedNode;
               createdBy := "sim-operator";
               namespaceIndex := Strconv.FormatInt (int64 (startIndex + i)) ]} in
        let namespace :=
          Namespace.mk
            (ObjectMeta.withAnnotations (NamespaceConfig.Annotations (namespaceConfig config))
               (ObjectMeta.named namespaceName "" labels)) "" in
        e ← call (CreateNamespace namespace);
        match e with
        | Some err =>
            mret (inr (Some (Wrap ("failed to create namespace " +:+ namespaceName) err)))
        | None =>
            lastUpdate ← call Now;
            r ← readFields;
            match Reconciler.resourceManagers r with
            | None => Stop (Panic "assignment to entry in nil map")
            | Some managers =>
                _ ← call (WriteFields
                      (setResourceManagers
                         (Some (<[ namespaceName :=
                                   ResourceManager.mk namespaceName associatedNode lastUpdate ∅ ∅ ]>
                                  managers)) r));
                mret (inl tt)
            end
        end);
      match created with
      | inr result => mret result
      | inl _ => mret None
      end
  end.

(** [deleteNamespaces] removes the specified number of namespaces: it
    sorts by creation time to delete oldest first, and deletes
    [namespaces[i]] for [i < count] and [i < len(namespaces)]. *)
Definition deleteNamespaces (config : ScaleLoadConfig.t) (namespaces : list Namespace.t)
  (count : Z) : Prog (option error) :=
  let namespaces :=
    sortSlice (fun a b => GoTime.Before (Namespace.CreationTimestamp a)
                                        (Namespace.CreationTimestamp b)) namespaces in
  deleted ← forEach (take (Z.to_nat count) namespaces) tt (fun ns _ =>
    e ← (if CleanupConfig.GracefulDeletes (cleanupConfig config)
         then call (DeleteNamespace ns (Some 30))
         else call (DeleteNamespace ns None));
    match e with
    | Some err =>
        mret (inr (Some (Wrap ("failed to delete namespace " +:+ Namespace.Name ns) err)))
    | None =>
        _ ← forgetResourceManager (Namespace.Name ns);
        mret (inl tt)
    end);
  match deleted with
  | inr result => mret result
  | inl _ => mret None
  end.

(** [resourceCounts[resourceType] += count] for every entry of [counts]. *)
Definition addCounts (resourceCounts counts : gmap string Z) : gmap string Z :=
  union_with (fun total count => Some (int64 (total + count))) resourceCounts counts.

(** [manageLoadResources] creates/updates/deletes namespaces and their
    resources.  It returns the namespace count, the per-kind counts summed
    over the namespaces, and the error. *)
Definition manageLoadResources (config : ScaleLoadConfig.t) (kwokNodes : list Node.t)
  (targetNamespaces : Z) : Prog (Z * gmap string Z * option error) :=
  existing ← getManagedNamespaces config;
  match existing with
  | inl err => mret (0, ∅, Some (Wrap "failed to get managed namespaces" err))
  | inr existingNamespaces =>
      let currentNamespaceCount := len existingNamespaces in
      up ← (if currentNamespaceCount <? targetNamespaces then
              let namespacesToCreate := int64 (targetNamespaces - currentNamespaceCount) in
              e ← createNamespaces config kwokNodes namespacesToCreate;
              match e with
              | Some err =>
                  mret (inr (currentNamespaceCount, ∅,
                             Some (Wrap "failed to create namespaces" err)))
              | None =>
                  again ← getManagedNamespaces config;
                  match again with
                  | inl err => mret (inr (currentNamespaceCount, ∅, Some err))
                  | inr refreshed => mret (inl (refreshed, len refreshed))
                  end
              end
            else mret (inl (existingNamespaces, currentNamespaceCount)));
      match up with
      | inr result => mret result
      | inl (existingNamespaces, currentNamespaceCount) =>
          down ← (if targetNamespaces <? currentNamespaceCount then
                    let namespacesToDelete := int64 (currentNamespaceCount - targetNamespaces) in
                    e ← deleteNamespaces config existingNamespaces namespacesToDelete;
                    match e with
                    | Some err =>
                        mret (inr (currentNamespaceCount, ∅,
                                   Some (Wrap "failed to delete namespaces" err)))
                    | None => mret (inl targetNamespaces)
                    end
                  else mret (inl currentNamespaceCount));
          match down with
          | inr result => mret result
          | inl currentNamespaceCount =>
              current ← getManagedNamespaces config;
              match current with
              | inl err =>
                  mret (currentNamespaceCount, ∅,
                        Some (Wrap "failed to get current namespaces" err))
              | inr currentNamespaces =>
                  resourceCounts ←
                    forAll currentNamespaces ∅ (fun ns resourceCounts =>
                      ready ← isNamespaceReady (Namespace.Name ns);
                      if negb ready then mret resourceCounts
                      else
                        '(counts, err) ← manageNamespaceResources config ns;
                        match err with
                        | Some e =>
                            _ ← call (LogError e "Failed to manage namespace resources");
                            mret resourceCounts
                        | None => mret (addCounts resourceCounts counts)
                        end);
                  mret (currentNamespaceCount, resourceCounts, None)
              end
          end
      end
  end.

(** ** Node annotations ([node_annotation_manager.go]) *)

Definition lastAnnotationUpdate : string := "scale.openshift.io/last-annotation-update".

Definition annotate (key value : string) (node : Node.t) : Node.t :=
  Node.withAnnotations (<[ key := value ]> (Node.Annotations node)) node.

(** [shouldUpdateNodeAnnotations] determines if a node's annotations should
    be updated. *)
Definition shouldUpdateNodeAnnotations (node : Node.t) (minInterval maxInterval : Duration)
  : Prog bool :=
  match Node.Annotations node !! lastAnnotationUpdate with
  | None => mret true
  | Some lastUpdateStr =>
      match ParseRFC3339 lastUpdateStr with
      | None => mret true
      | Some lastUpdate =>
          drawn ← Int63n (int64 (maxInterval - minInterval));
          let randomInterval := int64 (minInterval + drawn) in
          since ← Since lastUpdate;
          mret (randomInterval <=? since)
      end
  end.

(** One entry of a table of annotation generators: the key, and the
    program that makes a value for a node. *)
Definition generator : Type := string * (Node.t -> Prog string).

Definition oneOf (choices : list string) : Prog string :=
  chosen ← Intn (len choices);
  match index choices chosen with
  | Some s => mret s
  | None => Stop (Panic "index out of range")
  end.

(** The OVN annotations of [updateNetworkingAnnotations]. *)
Definition ovnAnnotations : list generator :=
  [ ("k8s.ovn.org/host-cidrs", fun _ => call (Generated "host-cidrs"));
    ("k8s.ovn.org/l3-gateway-config", fun _ => call (Generated "generateL3GatewayConfig"));
    ("k8s.ovn.org/node-chassis-id", fun _ => call (Generated "generateRandomUUID"));
    ("k8s.ovn.org/node-encap-ips", fun _ => call (Generated "node-encap-ips"));
    ("k8s.ovn.org/node-primary-ifaddr", fun _ => call (Generated "node-primary-ifaddr"));
    ("k8s.ovn.org/node-subnets", fun _ => call (Generated "node-subnets"));
    ("k8s.ovn.org/node-transit-switch-port-ifaddr",
      fun _ => call (Generated "node-transit-switch-port-ifaddr"));
    ("k8s.ovn.org/zone-name", fun node => mret (Node.Name node));
    ("k8s.ovn.org/remote-zone-migrated", fun node => mret (Node.Name node));
    ("k8s.ovn.org/layer2-topology-version", fun _ => oneOf ["2.0"; "2.1"; "2.2"]) ].

(** The annotations of [updateMachineConfigAnnotations]. *)
Definition machineConfigAnnotations : list generator :=
  [ ("machineconfiguration.openshift.io/currentConfig",
      fun _ => h ← call (Generated "generateRandomHash"); mret ("rendered-worker-" +:+ h));
    ("machineconfiguration.openshift.io/desiredConfig",
      fun _ => h ← call (Generated "generateRandomHash"); mret ("rendered-worker-" +:+ h));
    ("machineconfiguration.openshift.io/desiredDrain",
      fun _ => h ← call (Generated "generateRandomHash");
               mret ("uncordon-rendered-worker-" +:+ h));
    ("machineconfiguration.openshift.io/lastAppliedDrain",
      fun _ => h ← call (Generated "generateRandomHash");
               mret ("uncordon-rendered-worker-" +:+ h));
    ("machineconfiguration.openshift.io/state",
      fun _ => oneOf ["Done"; "Working"; "Degraded"]);
    ("machineconfiguration.openshift.io/reason",
      fun _ => draw ← call RandFloat64;
               if ltb draw (of_ratio false 8 10) then mret ""
               else oneOf ["Updating"; "Rebooting"; "ConfigChange"]);
    ("machineconfiguration.openshift.io/lastSyncedControllerConfigResourceVersion",
      fun _ => n ← Intn 100000; mret (Strconv.FormatInt (int64 (2900000 + n))));
    ("machineconfiguration.openshift.io/controlPlaneTopology",
      fun _ => mret "HighlyAvailable");
    ("machineconfiguration.openshift.io/lastObservedServerCAAnnotation",
      fun _ => mret "false");
    ("machineconfiguration.openshift.io/post-config-action", fun _ => mret "") ].

(** The loop over a table: each annotation is rewritten with the given
    chance.  (Go ranges over the table, a map, in an order of its own;
    the model takes the order of the source text.) *)
Definition churnAnnotations (table : list generator) (chance : float64)
  (node : Node.t) : Prog (Node.t * bool) :=
  forAll table (node, false) (fun '(annotation, generate) '(node, updated) =>
    draw ← call RandFloat64;
    if ltb draw chance then
      value ← generate node;
      mret (annotate annotation value node, true)
    else mret (node, updated)).

(** [updateNetworkingAnnotations] simulates OVN/networking annotation
    updates. *)
Definition updateNetworkingAnnotations (node : Node.t) : Prog (Node.t * bool) :=
  now ← call Now;
  '(node, updated) ← churnAnnotations ovnAnnotations (of_ratio false 3 10) node;
  draw ← call RandFloat64;
  '(node, updated) ←
    (if ltb draw (of_ratio false 2 10) then
       value ← call (Generated "generateEgressIPConfig");
       mret (annotate "cloud.network.openshift.io/egress-ipconfig" value node, true)
     else mret (node, updated));
  if updated : bool then
    iteration ← Intn 10000;
    mret (annotate "scale.openshift.io/networking-churn-iteration"
            (Strconv.FormatInt iteration)
            (annotate lastAnnotationUpdate (FormatRFC3339 now) node), true)
  else mret (node, false).

(** [updateMachineConfigAnnotations] simulates machine-config-daemon
    annotation updates. *)
Definition updateMachineConfigAnnotations (node : Node.t) : Prog (Node.t * bool) :=
  now ← call Now;
  '(node, updated) ← churnAnnotations machineConfigAnnotations (of_ratio false 4 10) node;
  if updated : bool then
    iteration ← Intn 10000;
    mret (annotate "scale.openshift.io/machine-config-churn-iteration"
            (Strconv.FormatInt iteration)
            (annotate lastAnnotationUpdate (FormatRFC3339 now) node), true)
  else mret (node, false).

(** [generateMachineReference]: the last six bytes of the node name are
    part of the reference; a shorter name is a slice out of range. *)
Definition generateMachineReference (nodeName : string) : Prog string :=
  let n := String.length nodeName in
  if (n <? 6)%nat then Stop (Panic "slice bounds out of range")
  else
    random ← call (Generated "generateRandomString");
    mret ("openshift-machine-api/ci-op-" +:+ random +:+ "-worker-us-west-2a-"
          +:+ String.substring (n - 6) 6 nodeName).

(** [updateClusterAnnotations] simulates other cluster-level annotation
    updates; it always reports an update. *)
Definition updateClusterAnnotations (node : Node.t) : Prog (Node.t * bool) :=
  now ← call Now;
  draw ← call RandFloat64;
  node ← (if ltb draw (of_ratio false 1 10) then
            value ← call (Generated "generateCSINodeID");
            mret (annotate "csi.volume.kubernetes.io/nodeid" value node)
          else mret node);
  draw ← call RandFloat64;
  node ← (if ltb draw (of_ratio false 5 100) then
            value ← generateMachineReference (Node.Name node);
            mret (annotate "machine.openshift.io/machine" value node)
          else mret node);
  mret (annotate "scale.openshift.io/last-seen" (FormatRFC3339 now)
          (annotate "scale.openshift.io/load-generator-managed" "true" node), true).

(** The backoff of [updateNodeWithRetry]. *)
Definition retryBackoff : Backoff.t :=
  Backoff.mk (100 * GoTime.Millisecond) (of_Z 2) (of_ratio false 1 10) 5 0.

(** The node an attempt writes: the latest version of the node with the
    annotations of [nodeUpdate] laid over its own. *)
Definition merged (nodeUpdate currentNode : Node.t) : Node.t :=
  Node.withAnnotations (Node.Annotations nodeUpdate ∪ Node.Annotations currentNode)
    currentNode.

(** One attempt of [updateNodeWithRetry]: get the latest version of the
    node, apply the annotation updates to it, attempt the update. *)
Definition updateAttempt (nodeName : string) (nodeUpdate : Node.t)
  : Prog (bool * option error) :=
  got ← call (GetNode nodeName);
  match got with
  | inl err => mret (false, Some err)
  | inr currentNode =>
      e ← call (UpdateNode (merged nodeUpdate currentNode));
      match e with
      | Some err => if IsConflict err then mret (false, None) else mret (false, Some err)
      | None => mret (true, None)
      end
  end.

(** [updateNodeWithRetry] implements retry logic with exponential backoff
    for node updates. *)
Definition updateNodeWithRetry (nodeName : string) (nodeUpdate : Node.t)
  : Prog (option error) :=
  ExponentialBackoff retryBackoff (updateAttempt nodeName nodeUpdate).

(** The first half of the body of the loop of [updateNodeAnnotations]:
    whether the node is due, and the node with its new annotations when
    one of the three groups changed it. *)
Definition prepareUpdate (config : ScaleLoadConfig.t) (minInterval maxInterval : Duration)
  (node : Node.t) : Prog (option Node.t) :=
  shouldUpdate ← shouldUpdateNodeAnnotations node minInterval maxInterval;
  if negb shouldUpdate then mret None
  else
    let nodeToUpdate := node in
    '(nodeToUpdate, updated) ←
      (if AnnotationChurnConfig.NetworkingAnnotations (annotationChurn config) then
         '(n, u) ← updateNetworkingAnnotations nodeToUpdate; mret (n, u || false)
       else mret (nodeToUpdate, false));
    '(nodeToUpdate, updated) ←
      (if AnnotationChurnConfig.MachineConfigAnnotations (annotationChurn config) then
         '(n, u) ← updateMachineConfigAnnotations nodeToUpdate; mret (n, u || updated)
       else mret (nodeToUpdate, updated));
    '(nodeToUpdate, updated) ←
      ('(n, u) ← updateClusterAnnotations nodeToUpdate; mret (n, u || updated));
    mret (if updated : bool then Some nodeToUpdate else None).

(** The second half: the update with retry; its failure is logged and the
    loop goes on. *)
Definition applyUpdate (nodeName : string) (nodeToUpdate : Node.t) : Prog unit :=
  e ← updateNodeWithRetry nodeName nodeToUpdate;
  match e with
  | Some err => call (LogError err "Failed to update node annotations")
  | None => mret tt
  end.

(** What [updateNodeAnnotations] does with one node. *)
Definition updateOneNode (config : ScaleLoadConfig.t) (minInterval maxInterval : Duration)
  (node : Node.t) : Prog unit :=
  prepared ← prepareUpdate config minInterval maxInterval node;
  match prepared with
  | Some nodeToUpdate => applyUpdate (Node.Name node) nodeToUpdate
  | None => mret tt
  end.

(** [updateNodeAnnotations] simulates realistic node annotation churn
    patterns. *)
Definition updateNodeAnnotations (config : ScaleLoadConfig.t) (kwokNodes : list Node.t)
  : Prog (option error) :=
  let minInterval :=
    AnnotationChurnConfig.UpdateIntervalMin (annotationChurn config) * GoTime.Second in
  let maxInterval :=
    AnnotationChurnConfig.UpdateIntervalMax (annotationChurn config) * GoTime.Second in
  _ ← forAll kwokNodes tt (fun node _ =>
        updateOneNode config minInterval maxInterval node);
  mret None.


(** ** Status ([status_manager.go]) *)

(** [getTotalResourceCount] calculates total resources across all types. *)
Definition getTotalResourceCount (resourceCounts : gmap string Z) : Z :=
  map_fold (fun _ count total => int64 (total + count)) 0 resourceCounts.

(** [resourceCounts[key]]: zero for a missing key. *)
Definition countOf (resourceCounts : gmap string Z) (key : string) : Z :=
  default 0 (resourceCounts !! key).

(** [calculateMetrics] computes current performance metrics.  The error
    rate is the constant 0.0. *)
Definition calculateMetrics (config : ScaleLoadConfig.t) (kwokNodeCount namespaceCount : Z)
  (resourceCounts : gmap string Z) : Prog LoadGenerationMetrics.t :=
  now ← call Now;
  r ← readFields;
  let timeSinceLastReconcile :=
    if GoTime.IsZero (Reconciler.lastReconcileTime r) then 1 * GoTime.Minute
    else GoTime.Sub now (Reconciler.lastReconcileTime r) in
  let totalResources := getTotalResourceCount resourceCounts in
  let estimatedAPICalls := mul (of_Z totalResources) (of_ratio false 1 10) in
  let resourceCreationRate :=
    div (of_Z totalResources) (GoTime.Minutes timeSinceLastReconcile) in
  let resourceUpdateRate := mul resourceCreationRate (of_ratio false 3 10) in
  let resourceDeletionRate := mul resourceCreationRate (of_ratio false 5 100) in
  mret (LoadGenerationMetrics.mk
          (Strconv.FormatFloat_f estimatedAPICalls 2)
          (Strconv.FormatInt (GoTime.Milliseconds timeSinceLastReconcile))
          (Strconv.FormatFloat_f zero 2)
          (Strconv.FormatFloat_f resourceCreationRate 2)
          (Strconv.FormatFloat_f resourceUpdateRate 2)
          (Strconv.FormatFloat_f resourceDeletionRate 2)).

(** [updateConditions] updates the status conditions based on current
    state: Ready, Scaling and Degraded, in this order. *)
Definition updateConditions (config : ScaleLoadConfig.t) (kwokNodeCount : Z)
  : Prog (list Condition.t) :=
  now ← call Now;
  let readyCondition :=
    if negb (ScaleLoadConfigSpec.Enabled (spec config)) then
      Condition.mk "Ready" ConditionFalse now "LoadGenerationDisabled"
        "Load generation is disabled"
    else if kwokNodeCount =? 0 then
      Condition.mk "Ready" ConditionFalse now "NoKwokNodes"
        "No KWOK nodes found matching selector"
    else
      Condition.mk "Ready" ConditionTrue now "LoadGenerationActive"
        ("Successfully generating load for " +:+ Strconv.FormatInt kwokNodeCount
         +:+ " KWOK nodes") in
  let scalingCondition :=
    if kwokNodeCount =? 0 then
      Condition.mk "Scaling" ConditionFalse now "NoScaling"
        "No scaling activities due to zero KWOK nodes"
    else
      Condition.mk "Scaling" ConditionTrue now "ResourcesScaling"
        "Resources are scaling with KWOK node count" in
  let degradedCondition :=
    match Strconv.ParseFloat
            (LoadGenerationMetrics.ErrorRate
               (ScaleLoadConfigStatus.Metrics (ScaleLoadConfig.Status config))) with
    | (errorRate, None) =>
        if gtb errorRate lit_10_0 then
          Condition.mk "Degraded" ConditionTrue now "HighErrorRate"
            ("High error rate: " +:+ Strconv.FormatFloat_f errorRate 1 +:+ "%")
        else
          Condition.mk "Degraded" ConditionFalse now "OperatingNormally"
            "Load generation is operating normally"
    | (_, Some _) =>
        Condition.mk "Degraded" ConditionFalse now "OperatingNormally"
          "Load generation is operating normally"
    end in
  mret [readyCondition; scalingCondition; degradedCondition].

(** [updatePrometheusMetrics] updates the Prometheus metrics. *)
Definition updatePrometheusMetrics (config : ScaleLoadConfig.t) : Prog unit :=
  modifyFields (fun r =>
    Reconciler.mk (Reconciler.lastReconcileTime r) (Reconciler.resourceManagers r)
      (Reconciler.apiCallCounter r) (Reconciler.lastRateLimitReset r)
      (ScaleLoadConfigStatus.KwokNodeCount (ScaleLoadConfig.Status config))
      (ScaleLoadConfigStatus.GeneratedNamespaces (ScaleLoadConfig.Status config))
      (Reconciler.ErrorCount r) (Reconciler.ReconcileTime r)).

Definition withStatus (st : ScaleLoadConfigStatus.t) (c : ScaleLoadConfig.t)
  : ScaleLoadConfig.t :=
  ScaleLoadConfig.mk (ScaleLoadConfig.Meta c) (ScaleLoadConfig.Spec c) st.

(** [updateStatus] updates the ScaleLoadConfig status with current state. *)
Definition updateStatus (config : ScaleLoadConfig.t) (kwokNodeCount namespaceCount : Z)
  (resourceCounts : gmap string Z) : Prog (Result.t * option error) :=
  got ← call (GetScaleLoadConfig (ScaleLoadConfig.Name config));
  match got with
  | inl err =>
      _ ← call (LogError err "Failed to fetch latest ScaleLoadConfig for status update");
      mret (Result.empty, Some err)
  | inr latestConfig =>
      metrics ← calculateMetrics latestConfig kwokNodeCount namespaceCount resourceCounts;
      lastReconcileTime ← call Now;
      let totalResources :=
        ResourceCounts.mk
          (int32 (countOf resourceCounts "configMaps"))
          (int32 (countOf resourceCounts "secrets"))
          (int32 (countOf resourceCounts "routes"))
          (int32 (countOf resourceCounts "imageStreams"))
          (int32 (countOf resourceCounts "buildConfigs"))
          (int32 (countOf resourceCounts "events")) in
      let status conditions :=
        ScaleLoadConfigStatus.mk
          (ObjectMeta.Generation (ScaleLoadConfig.Meta latestConfig))
          (int32 kwokNodeCount) (int32 namespaceCount) totalResources
          (Some lastReconcileTime) conditions metrics in
      let latestConfig :=
        withStatus
          (status (ScaleLoadConfigStatus.Conditions (ScaleLoadConfig.Status latestConfig)))
          latestConfig in
      conditions ← updateConditions latestConfig kwokNodeCount;
      let latestConfig := withStatus (status conditions) latestConfig in
      _ ← updatePrometheusMetrics latestConfig;
      e ← call (StatusUpdate latestConfig);
      match e with
      | Some err =>
          _ ← call (LogError err "Failed to update ScaleLoadConfig status");
          mret (Result.empty, Some err)
      | None => mret (Result.empty, None)
      end
  end.

(** [cleanupManagedNamespaces] removes all namespaces managed by a specific
    config; a namespace that cannot be deleted is skipped. *)
Definition cleanupManagedNamespaces (configName : string) : Prog (option error) :=
  listed ← call (ListNamespaces {[ managedBy := configName ]});
  match listed with
  | inl err => mret (Some (Wrap "failed to list managed namespaces" err))
  | inr items =>
      _ ← forAll items tt (fun ns _ =>
            e ← call (DeleteNamespace ns None);
            match e with
            | Some err => call (LogError err "Failed to delete managed namespace")
            | None => forgetResourceManager (Namespace.Name ns)
            end);
      mret None
  end.

(** [handleDeletion] cleans up resources when ScaleLoadConfig is deleted. *)
Definition handleDeletion (name : string) : Prog (Result.t * option error) :=
  e ← cleanupManagedNamespaces name;
  match e with
  | Some err =>
      _ ← call (LogError err "Failed to cleanup managed namespaces");
      mret (Result.mk false (30 * GoTime.Second), Some err)
  | None =>
      _ ← modifyFields (fun r =>
            setResourceManagers ((fun _ => ∅) <$> Reconciler.resourceManagers r) r);
      mret (Result.empty, None)
  end.

Definition cleanupFinalizer : string := "scale.openshift.io/cleanup".

Definition withFinalizers (f : list string) (c : ScaleLoadConfig.t) : ScaleLoadConfig.t :=
  ScaleLoadConfig.mk (ObjectMeta.withFinalizers f (ScaleLoadConfig.Meta c))
    (ScaleLoadConfig.Spec c) (ScaleLoadConfig.Status c).

(** [handleConfigDeletion] handles deletion of ScaleLoadConfig with
    finalizers. *)
Definition handleConfigDeletion (config : ScaleLoadConfig.t)
  : Prog (Result.t * option error) :=
  let removeFinalizer :=
    let config :=
      withFinalizers
        (filter (fun f => f ≠ cleanupFinalizer)
           (ObjectMeta.Finalizers (ScaleLoadConfig.Meta config))) config in
    e ← call (UpdateScaleLoadConfig config);
    match e with
    | Some err => mret (Result.empty, Some err)
    | None => mret (Result.empty, None)
    end in
  if CleanupConfig.Enabled (cleanupConfig config) then
    e ← cleanupManagedNamespaces (ScaleLoadConfig.Name config);
    match e with
    | Some err =>
        _ ← call (LogError err "Failed to cleanup managed namespaces during deletion");
        mret (Result.mk false (30 * GoTime.Second), Some err)
    | None =>
        if 0 <? CleanupConfig.CleanupDelaySeconds (cleanupConfig config) then
          let delay := CleanupConfig.CleanupDelaySeconds (cleanupConfig config) * GoTime.Second in
          since ← Since (default GoTime.zeroTime
                           (ObjectMeta.DeletionTimestamp (ScaleLoadConfig.Meta config)));
          if since <? delay then
            remaining ← Since (default GoTime.zeroTime
                                 (ObjectMeta.DeletionTimestamp (ScaleLoadConfig.Meta config)));
            mret (Result.mk false (10 * GoTime.Second), None)
          else removeFinalizer
        else removeFinalizer
    end
  else removeFinalizer.

(** ** The rate budget *)

(** Modelled from the spec: [getEffectiveAPIRate] is not among the source
    files.  The effective rate per minute, by strict precedence: the
    static total rate; else the per-node rate times the node count; else
    the deprecated single rate, per node; else the default per-node rate
    (20) times the node count. *)
Definition getEffectiveAPIRate (config : ScaleLoadConfig.t) (nodeCount : Z) : Z * string :=
  match LoadProfile.APICallRateStatic (loadProfile config) with
  | Some rate => (rate, "static")
  | None =>
      match LoadProfile.APICallRatePerNode (loadProfile config) with
      | Some rate => (rate * nodeCount, "per-node")
      | None =>
          match LoadProfile.APICallRate (loadProfile config) with
          | Some rate => (rate * nodeCount, "per-node (deprecated)")
          | None => (20 * nodeCount, "per-node (default)")
          end
      end
  end.

(** Modelled from the spec: [checkAPIRateLimit] is not among the source
    files.  When a minute has passed since the window started, the
    counter is reset and the window starts now.  The call is allowed iff
    [counter + estimatedCalls <= effectiveRate]; when allowed the counter
    grows by [estimatedCalls]; otherwise the counter is not changed. *)
Definition checkAPIRateLimit (config : ScaleLoadConfig.t) (estimatedCalls nodeCount : Z)
  : Prog bool :=
  now ← call Now;
  r ← readFields;
  let '(counter, windowStart) :=
    if GoTime.Minute <=? GoTime.Sub now (Reconciler.lastRateLimitReset r)
    then (0, now)
    else (Reconciler.apiCallCounter r, Reconciler.lastRateLimitReset r) in
  let effectiveRate := fst (getEffectiveAPIRate config nodeCount) in
  let allowed := counter + estimatedCalls <=? effectiveRate in
  _ ← call (WriteFields
        (Reconciler.mk (Reconciler.lastReconcileTime r) (Reconciler.resourceManagers r)
           (if allowed then counter + estimatedCalls else counter) windowStart
           (Reconciler.KwokNodeCount r) (Reconciler.GeneratedNamespaces r)
           (Reconciler.ErrorCount r) (Reconciler.ReconcileTime r)));
  mret allowed.

(** ** The reconciliation loop ([scaleloadconfig_controller.go]) *)

Definition errorCountInc : Prog unit :=
  modifyFields (fun r =>
    Reconciler.mk (Reconciler.lastReconcileTime r) (Reconciler.resourceManagers r)
      (Reconciler.apiCallCounter r) (Reconciler.lastRateLimitReset r)
      (Reconciler.KwokNodeCount r) (Reconciler.GeneratedNamespaces r)
      (Reconciler.ErrorCount r + 1) (Reconciler.ReconcileTime r)).

Definition kwokNodeCountSet (n : Z) : Prog unit :=
  modifyFields (fun r =>
    Reconciler.mk (Reconciler.lastReconcileTime r) (Reconciler.resourceManagers r)
      (Reconciler.apiCallCounter r) (Reconciler.lastRateLimitReset r)
      n (Reconciler.GeneratedNamespaces r)
      (Reconciler.ErrorCount r) (Reconciler.ReconcileTime r)).

Definition setLastReconcileTime (t : Time) : Prog unit :=
  modifyFields (fun r =>
    Reconciler.mk t (Reconciler.resourceManagers r)
      (Reconciler.apiCallCounter r) (Reconciler.lastRateLimitReset r)
      (Reconciler.KwokNodeCount r) (Reconciler.GeneratedNamespaces r)
      (Reconciler.ErrorCount r) (Reconciler.ReconcileTime r)).

Definition reconcileTimeObserve (d : Duration) : Prog unit :=
  modifyFields (fun r =>
    Reconciler.mk (Reconciler.lastReconcileTime r) (Reconciler.resourceManagers r)
      (Reconciler.apiCallCounter r) (Reconciler.lastRateLimitReset r)
      (Reconciler.KwokNodeCount r) (Reconciler.GeneratedNamespaces r)
      (Reconciler.ErrorCount r) (Reconciler.ReconcileTime r ++ [d])).

Definition deletionTimestampIsZero (config : ScaleLoadConfig.t) : bool :=
  match ObjectMeta.DeletionTimestamp (ScaleLoadConfig.Meta config) with
  | None => true
  | Some t => GoTime.IsZero t
  end.

(** The part of [Reconcile] for an enabled configuration that is neither
    new nor being deleted: from the listing of the KWOK nodes on. *)
Definition reconcileActive (config : ScaleLoadConfig.t) (startTime : Time)
  : Prog (Result.t * option error) :=
  listed ← getKwokNodes (ScaleLoadConfigSpec.KwokNodeSelector (spec config));
  match listed with
  | inl err =>
      _ ← errorCountInc;
      _ ← call (LogError err "Failed to get KWOK nodes");
      mret (Result.empty, Some err)
  | inr kwokNodes =>
      _ ← kwokNodeCountSet (len kwokNodes);
      match calculateTargetNamespaces config (len kwokNodes) with
      | None => Stop (ImplementationDependent "float64 to int conversion out of range")
      | Some targetNamespaces =>
          let estimatedAPICalls := int32 (int64 (targetNamespaces * 5)) in
          allowed ← checkAPIRateLimit config estimatedAPICalls (len kwokNodes);
          if negb allowed then mret (Result.mk false GoTime.Minute, None)
          else
            '(namespaceCount, resourceCounts, err) ←
              manageLoadResources config kwokNodes targetNamespaces;
            match err with
            | Some e =>
                _ ← errorCountInc;
                _ ← call (LogError e "Failed to manage load resources");
                mret (Result.empty, Some e)
            | None =>
                _ ← setLastReconcileTime startTime;
                reconcileDuration ← Since startTime;
                _ ← (if AnnotationChurnConfig.Enabled (annotationChurn config) then
                       e ← updateNodeAnnotations config kwokNodes;
                       match e with
                       | Some err =>
                           call (LogError err "Failed to update node annotations, continuing")
                       | None => mret tt
                       end
                     else mret tt);
                '(_, err) ← updateStatus config (len kwokNodes) namespaceCount resourceCounts;
                match err with
                | Some e => _ ← errorCountInc; mret (Result.empty, Some e)
                | None => mret (Result.mk false (calculateReconcileInterval config), None)
                end
            end
      end
  end.

(** [Reconcile] implements the main reconciliation loop.  The deferred
    observation of the duration runs when the body has returned. *)
Definition Reconcile (name : string) : Prog (Result.t * option error) :=
  startTime ← call Now;
  result ←
    (got ← call (GetScaleLoadConfig name);
     match got with
     | inl err =>
         if IsNotFound err then handleDeletion name
         else
           _ ← errorCountInc;
           _ ← call (LogError err "Unable to fetch ScaleLoadConfig");
           mret (Result.empty, Some err)
     | inr config =>
         _ ← modifyFields (fun r =>
               match Reconciler.resourceManagers r with
               | None => setResourceManagers (Some ∅) r
               | Some _ => r
               end);
         if negb (bool_decide (cleanupFinalizer ∈ ObjectMeta.Finalizers (ScaleLoadConfig.Meta config)))
         then
           let config :=
             withFinalizers
               (ObjectMeta.Finalizers (ScaleLoadConfig.Meta config) ++ [cleanupFinalizer])
               config in
           e ← call (UpdateScaleLoadConfig config);
           match e with
           | Some err => _ ← errorCountInc; mret (Result.empty, Some err)
           | None => mret (Result.mk true 0, None)
           end
         else if negb (deletionTimestampIsZero config) then handleConfigDeletion config
         else if negb (ScaleLoadConfigSpec.Enabled (spec config)) then
           updateStatus config 0 0 ∅
         else reconcileActive config startTime
     end);
  duration ← Since startTime;
  _ ← reconcileTimeObserve duration;
  mret result.

End Controller.

(** ** Configurations and an environment to run the controller on *)

Module Example.

Definition resourceType (enabled : bool) (count interval : Z) : ResourceTypeConfig.t :=
  ResourceTypeConfig.mk enabled count interval.

(** A configuration with the defaults of the schema, for a profile, an
    optional explicit ratio and a resource churn. *)
Definition configWith (profile : string) (namespacesPerNode : option string)
  (churn : ResourceChurnConfig.t) : ScaleLoadConfig.t :=
  ScaleLoadConfig.mk
    (ObjectMeta.mk "load" "" ∅ ∅ 0 None [ "scale.openshift.io/cleanup" ] 1)
    (ScaleLoadConfigSpec.mk true {[ "type" := "kwok" ]}
       (LoadProfile.mk profile namespacesPerNode (Some 5) None None None)
       (NamespaceConfig.mk "openshift-fake-" ∅ ∅)
       (AnnotationChurnConfig.mk true true true 60 300)
       churn
       (CleanupConfig.mk true true 60 true))
    ScaleLoadConfigStatus.zero.

Definition defaultChurn : ResourceChurnConfig.t :=
  ResourceChurnConfig.mk
    (resourceType true 1 1) (resourceType true 1 1) (resourceType true 1 1)
    (resourceType true 1 1) (resourceType true 1 1)
    (EventsConfig.mk true 50 []).

Definition config (profile : string) (namespacesPerNode : option string)
  : ScaleLoadConfig.t :=
  configWith profile namespacesPerNode defaultChurn.

End Example.

(** ** Observations on a trace *)

(** The objects the program asked to delete, to create and to update, in
    the order of the calls, whatever the answer was. *)
Definition deleteCall (i : Interaction) : option Object.t :=
  match i with
  | Did op _ => match op with Delete o => Some o | _ => None end
  end.

Definition createCall (i : Interaction) : option Object.t :=
  match i with
  | Did op _ => match op with Create o => Some o | _ => None end
  end.

Definition deleteCalls (t : list Interaction) : list Object.t := omap deleteCall t.
Definition createCalls (t : list Interaction) : list Object.t := omap createCall t.

(** The namespaces the program asked to delete, with the grace period. *)
Definition deleteNamespaceCall (i : Interaction) : option (Namespace.t * option Z) :=
  match i with
  | Did op _ => match op with DeleteNamespace n g => Some (n, g) | _ => None end
  end.

Definition deleteNamespaceCalls (t : list Interaction) : list (Namespace.t * option Z) :=
  omap deleteNamespaceCall t.

(** A call to delete a namespace that the store answered without error. *)
Definition namespaceDeleted (i : Interaction) : Prop :=
  match i with
  | Did op x =>
      match op in Op X return X -> Prop with
      | DeleteNamespace _ _ => fun e => e = None
      | _ => fun _ => True
      end x
  end.

(** The calls to create an object with their answers. *)
Definition createAnswer (i : Interaction) : option (Object.t * option error) :=
  match i with
  | Did op x =>
      match op in Op X return X -> option (Object.t * option error) with
      | Create o => fun e => Some (o, e)
      | _ => fun _ => None
      end x
  end.

Definition createAnswers (t : list Interaction) : list (Object.t * option error) :=
  omap createAnswer t.

(** A program that cannot stop: every path ends in a return. *)
Fixpoint returns {A : Type} (p : Prog A) : Prop :=
  match p with
  | Ret _ => True
  | Stop _ => False
  | Vis op k => forall x, returns (k x)
  end.

(** A delete call that went through: the store answered no error, or, for
    the Service of a route, that it was not found. *)
Definition deleteWentThrough (i : Interaction) : Prop :=
  match i with
  | Did op x =>
      match op in Op X return X -> Prop with
      | Delete o => fun e =>
          e = None
          \/ (Object.Kind_ o = Service /\ exists err, e = Some err /\ IsNotFound err = true)
      | _ => fun _ => True
      end x
  end.

(** The interaction is no call to create an object. *)
Definition noCreate (i : Interaction) : Prop := createCall i = None.
Definition noDelete (i : Interaction) : Prop := deleteCall i = None.

(** The Service that [manageRoutes] deletes with the route at position [i]. *)
Definition serviceOf (namespace : string) (i : Z) : Object.t :=
  Object.mk Service
    (ObjectMeta.named ("load-service-" +:+ Strconv.FormatInt i) namespace ∅).

(** The delete calls of [manageRoutes] scaling [items] down to [target]:
    from the last position down, each route and then its Service. *)
Definition routeDeletes (namespace : string) (items : list Object.t) (target : Z)
  : list Object.t :=
  mjoin ((fun i => match index items i with
                   | Some route => [route; serviceOf namespace i]
                   | None => []
                   end) <$> countDown (len items - 1) target).

(** An operation that neither creates nor deletes an object. *)
Definition notCreateDelete (X : Type) (op : Op X) : Prop :=
  match op with
  | Create _ | Delete _ => False
  | _ => True
  end.

(** The kinds of object managed toward a target count. *)
Inductive TargetKind := ConfigMaps | Secrets | Routes | ImageStreams | BuildConfigs.

#[export] Instance TargetKind_eq_dec : EqDecision TargetKind.
Proof. solve_decision. Defined.

Section TargetKinds.
Context `{TimeLayout}.

Definition manage (k : TargetKind)
  : ScaleLoadConfig.t -> string -> Z -> Prog (Z * option error) :=
  match k with
  | ConfigMaps => manageConfigMaps
  | Secrets => manageSecrets
  | Routes => manageRoutes
  | ImageStreams => manageImageStreams
  | BuildConfigs => manageBuildConfigs
  end.

Definition objectKind (k : TargetKind) : Kind :=
  match k with
  | ConfigMaps => ConfigMap
  | Secrets => Secret
  | Routes => Route
  | ImageStreams => ImageStream
  | BuildConfigs => BuildConfig
  end.

Definition typeLabel (k : TargetKind) : string :=
  match k with
  | ConfigMaps => "configmap"
  | Secrets => "secret"
  | Routes => "route"
  | ImageStreams => "imagestream"
  | BuildConfigs => "buildconfig"
  end.

Definition countsKey (k : TargetKind) : string :=
  match k with
  | ConfigMaps => "configMaps"
  | Secrets => "secrets"
  | Routes => "routes"
  | ImageStreams => "imageStreams"
  | BuildConfigs => "buildConfigs"
  end.

Definition typeConfig (k : TargetKind) (config : ScaleLoadConfig.t) : ResourceTypeConfig.t :=
  match k with
  | ConfigMaps => ResourceChurnConfig.ConfigMaps (resourceChurn config)
  | Secrets => ResourceChurnConfig.Secrets (resourceChurn config)
  | Routes => ResourceChurnConfig.Routes (resourceChurn config)
  | ImageStreams => ResourceChurnConfig.ImageStreams (resourceChurn config)
  | BuildConfigs => ResourceChurnConfig.BuildConfigs (resourceChurn config)
  end.

(** The delete calls of a kind scaling [items] down to [target]: the
    objects at the positions from the last one down to [target], each
    route followed by its Service. *)
Definition expectedDeletes (k : TargetKind) (namespace : string) (items : list Object.t)
  (target : Z) : list Object.t :=
  match k with
  | Routes => routeDeletes namespace items target
  | _ => reverse (drop (Z.to_nat target) items)
  end.

End TargetKinds.

(** ** A scripted environment *)

(** An environment whose answers are given in advance, as functions of the
    number of calls answered so far. *)
Module Scripted.

Record t := mk {
  config : nat -> error + ScaleLoadConfig.t;
  nodes : nat -> error + list Node.t;
  namespaces : nat -> error + list Namespace.t;
  objects : Kind -> string -> list ObjectMeta.t;
  written : nat -> option error;
  clock : nat -> Time;
  draw : nat -> float64
}.

Definition handler (s : t) : Handler nat := fun X op n =>
  (match op in Op X return X with
   | GetScaleLoadConfig _ => config s n
   | UpdateScaleLoadConfig _ | StatusUpdate _ | UpdateNode _ | CreateNamespace _
   | DeleteNamespace _ _ | Create _ | Delete _ | Update _ => written s n
   | ListNodes _ => nodes s n
   | GetNode name =>
       match nodes s n with
       | inr l =>
           match filter (fun node => Node.Name node = name) l with
           | node :: _ => inr node
           | [] => inl (StatusError ReasonNotFound)
           end
       | inl e => inl e
       end
   | ListNamespaces _ => namespaces s n
   | GetNamespace name =>
       match namespaces s n with
       | inr l =>
           match filter (fun ns => Namespace.Name ns = name) l with
           | ns :: _ => inr ns
           | [] => inl (StatusError ReasonNotFound)
           end
       | inl e => inl e
       end
   | List k namespace _ => inr (objects s k namespace)
   | Now => clock s n
   | Sleep _ => tt
   | RandFloat64 => draw s n
   | RandIntn _ | RandInt31n _ | RandInt63n _ => 0
   | Generated what => what
   | LogError _ _ => tt
   | ReadFields => Reconciler.init
   | WriteFields _ => tt
   end, S n).

(** The layout of the examples writes an instant as its decimal digits. *)
#[export] Instance layout : TimeLayout := {|
  FormatRFC3339 := Strconv.FormatInt;
  ParseRFC3339 := fun s =>
    match Strconv.Atoi s with
    | (t, None) => Some t
    | _ => None
    end
|}.

End Scripted.

#[export] Existing Instance Scripted.layout.

(** A sorter for the examples: merge sort. *)
#[export] Instance mergeSorter : SliceSorter.
Proof.
  refine {| sortSlice := fun A less =>
              @merge_sort A (fun a b => less b a = false)
                (fun a b => decide (less b a = false)) |}.
  - intros A less l. apply merge_sort_Permutation.
  - intros A key l.
    assert (Total (fun a b : A => (key b <? key a) = false)) as Htot.
    { intros a b. destruct (Z.ltb_spec (key b) (key a)), (Z.ltb_spec (key a) (key b));
        auto; lia. }
    cbv beta.
    match goal with
    | |- Sorted _ (@merge_sort _ ?R ?D _) =>
        pose proof (@Sorted_merge_sort A R D Htot l) as Hs
    end.
    induction Hs as [|a l' Hs IH Hhd]; constructor; auto.
    destruct Hhd as [|b l'' Hab]; constructor. apply Z.ltb_ge. exact Hab.
Defined.

Module Examples.

Definition config : ScaleLoadConfig.t := Example.config "production" (Some "0.6").

Definition node (name : string) : Node.t :=
  Node.mk (ObjectMeta.named name "" {[ "type" := "kwok" ]}).

(** A managed namespace with its index and the time of its creation. *)
Definition namespace (name : string) (i : Z) (created : Time) : Namespace.t :=
  Namespace.mk
    (ObjectMeta.mk name "" {[ managedBy := "load"; namespaceIndex := Strconv.FormatInt i ]}
       ∅ created None [] 0)
    "Active".

Definition threeRoutes : list Object.t :=
  [ generateRoute config "ns" 0; generateRoute config "ns" 1; generateRoute config "ns" 2 ].

(** A store that lists three nodes, two namespaces and, in every
    namespace, three routes and nothing else; every write succeeds; the
    clock advances by a second at each call; no draw is below 0.5. *)
Definition store : Scripted.t :=
  Scripted.mk
    (fun _ => inr config)
    (fun _ => inr [node "kwok-node-0"; node "kwok-node-1"; node "kwok-node-2"])
    (fun _ => inr [namespace "ns" 0 200; namespace "ns-1" 1 100])
    (fun k _ => match k with Route => Object.Meta <$> threeRoutes | _ => [] end)
    (fun _ => None)
    (fun n => Z.of_nat n * GoTime.Second)
    (fun _ => of_ratio false 1 2).

(** The same store, but every write before the seventeenth call meets a
    conflict: the first four writes of a retry do, the fifth does not. *)
Definition conflicts (until : nat) : Scripted.t :=
  Scripted.mk (Scripted.config store) (Scripted.nodes store) (Scripted.namespaces store)
    (Scripted.objects store)
    (fun n => if (n <? until)%nat then Some (StatusError ReasonConflict) else None)
    (Scripted.clock store) (Scripted.draw store).

End Examples.

(** ** Notions the properties are stated with *)

(** A float that is not negative: its sign bit is clear, or it is NaN. *)
Definition nonneg (x : float64) : Prop :=
  match x with
  | S754_zero s | S754_infinity s | S754_finite s _ _ => s = false
  | S754_nan => True
  end.

(** The first byte of a string is not the minus sign. *)
Definition unsigned (str : string) : Prop :=
  match str with
  | String "-" _ => False
  | _ => True
  end.

(** The default ratio of a named profile, following the words of the
    specification: development 0.2, staging 0.4, production 0.6, extreme
    1.0; an unknown name has the ratio of production. *)
Definition profileRatio (profile : string) : float64 :=
  default lit_0_6
    (list_to_map (M := gmap string float64)
       [ ("development", lit_0_2); ("staging", lit_0_4);
         ("production", lit_0_6); ("extreme", lit_1_0) ] !! profile).

(** The pattern of the schema for [namespacesPerNode]:
    [^[0-9]+(\.[0-9]+)?$]. *)
Fixpoint allDigits (s : list ascii) : bool :=
  match s with
  | [] => true
  | c :: r => Strconv.isDigit c && allDigits r
  end.

Fixpoint digitsThenFraction (s : list ascii) : bool :=
  match s with
  | [] => true
  | c :: r =>
      if Ascii.eqb c "." then match r with [] => false | _ => allDigits r end
      else Strconv.isDigit c && digitsThenFraction r
  end.

Definition schemaPattern (str : string) : bool :=
  match list_ascii_of_string str with
  | c :: r => Strconv.isDigit c && digitsThenFraction r
  | [] => false
  end.

(** Every operation a program can perform satisfies [P]. *)
Fixpoint asksOnly {A} (P : forall X, Op X -> Prop) (p : Prog A) : Prop :=
  match p with
  | Ret _ | Stop _ => True
  | Vis op k => P _ op /\ forall x, asksOnly P (k x)
  end.

Definition interactionOp (P : forall X, Op X -> Prop) (i : Interaction) : Prop :=
  match i with Did op _ => P _ op end.

(** What one run of a manage function that scales down does: no create
    call; the delete calls are a prefix of [expected]; and when it returns
    without error it returns the target and has made all of them, each
    gone through. *)
Definition scalesDown {A} (res : Run.t (Z * option error) A) (target : Z)
  (expected : list Object.t) : Prop :=
  exists n err,
    Run.outcome res = Returned (n, err)
    /\ Forall noCreate (Run.trace res)
    /\ deleteCalls (Run.trace res) `prefix_of` expected
    /\ (err = None ->
        n = target
        /\ deleteCalls (Run.trace res) = expected
        /\ Forall deleteWentThrough (Run.trace res)).

(** *** The attempts of [updateNodeWithRetry] *)

(** The wait before the attempt after the [k]-th: 100ms, doubled at each
    attempt. *)
Definition baseWait (k : nat) : Duration := 100 * GoTime.Millisecond * 2 ^ (Z.of_nat k - 1).

(** The backoff when the [k]-th attempt starts ([k] from 1). *)
Definition backoffAt (k : nat) : Backoff.t :=
  Backoff.mk (baseWait k) (of_Z 2) (of_ratio false 1 10) (6 - Z.of_nat k) 0.

(** The traces of [updateNodeWithRetry] from its [k]-th attempt on, with
    the error it returns.  An attempt gets the node and writes the merged
    node.  It ends the retry when the get fails (with that error), when
    the write succeeds (no error) or fails with an error that is no
    conflict (that error), and when the fifth write meets a conflict (the
    timeout).  After a conflict before the fifth attempt it sleeps the
    base wait plus a jitter of at most a tenth of it, drawn at random,
    and attempts again. *)
Inductive attempts (nodeName : string) (nodeUpdate : Node.t)
  : nat -> list Interaction -> option error -> Prop :=
| attempt_get_failed k e :
    attempts nodeName nodeUpdate k [Did (GetNode nodeName) (inl e)] (Some e)
| attempt_written k current :
    attempts nodeName nodeUpdate k
      [Did (GetNode nodeName) (inr current); Did (UpdateNode (merged nodeUpdate current)) None]
      None
| attempt_write_failed k current e :
    IsConflict e = false ->
    attempts nodeName nodeUpdate k
      [Did (GetNode nodeName) (inr current);
       Did (UpdateNode (merged nodeUpdate current)) (Some e)]
      (Some e)
| attempt_last_conflict current e :
    IsConflict e = true ->
    attempts nodeName nodeUpdate 5
      [Did (GetNode nodeName) (inr current);
       Did (UpdateNode (merged nodeUpdate current)) (Some e)]
      (Some ErrWaitTimeout)
| attempt_conflict k current e draw extra rest result :
    (k < 5)%nat ->
    IsConflict e = true ->
    to_int64 (mul (mul draw (of_ratio false 1 10)) (of_Z (baseWait k))) = Some extra ->
    attempts nodeName nodeUpdate (S k) rest result ->
    attempts nodeName nodeUpdate k
      (Did (GetNode nodeName) (inr current)
       :: Did (UpdateNode (merged nodeUpdate current)) (Some e)
       :: Did RandFloat64 draw
       :: Did (Sleep (int64 (baseWait k + extra))) tt
       :: rest)
      result.

(** The writes of a node with their answers, and the reads. *)
Definition updateNodeAnswer (i : Interaction) : option (Node.t * option error) :=
  match i with
  | Did op x =>
      match op in Op X return X -> option (Node.t * option error) with
      | UpdateNode n => fun e => Some (n, e)
      | _ => fun _ => None
      end x
  end.

Definition getNodeCall (i : Interaction) : option string :=
  match i with
  | Did op _ => match op with GetNode name => Some name | _ => None end
  end.

Definition sleepCall (i : Interaction) : option Duration :=
  match i with
  | Did op _ => match op with Sleep d => Some d | _ => None end
  end.

(** A draw of the random source for which the jitter of every wait of the
    retry is defined (as it is for every draw in [0, 1)). *)
Definition saneDraw (draw : float64) : Prop :=
  forall k, (1 <= k <= 4)%nat ->
    is_Some (to_int64 (mul (mul draw (of_ratio false 1 10)) (of_Z (baseWait k)))).

(** The kind of object an operation of the client is about. *)
Definition opKind {X : Type} (op : Op X) : option Kind :=
  match op with
  | List k _ _ => Some k
  | Create o | Delete o | Update o => Some (Object.Kind_ o)
  | _ => None
  end.

(** An operation of a program that works on the objects of the kinds [K]
    only: it lists, creates, deletes or updates an object of one of these
    kinds, or asks for the time, a random number or a generated text,
    logs, or reads the fields of the reconciler. *)
Definition kindsWithin (K : list Kind) (X : Type) (op : Op X) : Prop :=
  match op with
  | List k _ _ => k ∈ K
  | Create o | Delete o | Update o => Object.Kind_ o ∈ K
  | Now | RandFloat64 | RandIntn _ | RandInt31n _ | RandInt63n _ | Generated _
  | LogError _ _ | ReadFields => True
  | _ => False
  end.

(** An operation that is about no object of the kinds [K]. *)
Definition kindsWithout (K : list Kind) (X : Type) (op : Op X) : Prop :=
  match opKind op with
  | Some k => k ∉ K
  | None => True
  end.

(** The kinds of object the manage function of a kind works on. *)
Definition kindsOf (k : TargetKind) : list Kind :=
  match k with
  | Routes => [Route; Service]
  | _ => [objectKind k]
  end.

(** The namespace with a given index label, for the examples. *)
Definition indexed (i : Z) : Namespace.t := Examples.namespace "ns" i 0.

(** Whatever the environment answers, a result the program returns
    satisfies [Q]. *)
Fixpoint yields {A : Type} (Q : A -> Prop) (p : Prog A) : Prop :=
  match p with
  | Ret a => Q a
  | Stop _ => True
  | Vis op k => forall x, yields Q (k x)
  end.

(** The log message of the block of a kind in [manageNamespaceResources]. *)
Definition failure (k : TargetKind) : string :=
  match k with
  | ConfigMaps => "Failed to manage ConfigMaps"
  | Secrets => "Failed to manage Secrets"
  | Routes => "Failed to manage Routes"
  | ImageStreams => "Failed to manage ImageStreams"
  | BuildConfigs => "Failed to manage BuildConfigs"
  end.

(** The namespaces with the indices 0 to [n - 1] that pass the gate of an
    interval, by index. *)
Definition passing (n interval : Z) : list Z :=
  List.filter (fun i => shouldCreateResourceForNamespace (indexed i) interval) (seqZ 0 n).

(** A configuration whose Secrets are managed in every tenth namespace. *)
Definition sparseConfig : ScaleLoadConfig.t :=
  Example.configWith "production" (Some "0.6")
    (ResourceChurnConfig.mk
       (Example.resourceType true 1 1) (Example.resourceType true 2 10)
       (Example.resourceType true 1 1) (Example.resourceType true 1 1)
       (Example.resourceType true 1 1) (EventsConfig.mk true 50 [])).

(** What [manageNamespaceResources] has recorded for a namespace: a count
    under the key of a kind is the configured count of the kind, and the
    kind is enabled and passes the interval gate of the namespace. *)
Definition recorded (config : ScaleLoadConfig.t) (namespace : Namespace.t)
  (resourceCounts : gmap string Z) : Prop :=
  forall kind count,
    resourceCounts !! countsKey kind = Some count ->
    count = ResourceTypeConfig.Count (typeConfig kind config)
    /\ ResourceTypeConfig.Enabled (typeConfig kind config) = true
    /\ shouldCreateResourceForNamespace namespace
         (ResourceTypeConfig.NamespaceInterval (typeConfig kind config)) = true.

(** A total that is a multiple of the configured count of a kind, as the
    64-bit sum has it. *)
Definition multipleOfCount (config : ScaleLoadConfig.t) (kind : TargetKind)
  (resourceCounts : gmap string Z) : Prop :=
  exists k, 0 <= k
    /\ countOf resourceCounts (countsKey kind)
       = int64 (k * ResourceTypeConfig.Count (typeConfig kind config)).

(** The total of a kind in the status. *)
Definition totalOf (k : TargetKind) (t : ResourceCounts.t) : Z :=
  match k with
  | ConfigMaps => ResourceCounts.ConfigMaps t
  | Secrets => ResourceCounts.Secrets t
  | Routes => ResourceCounts.Routes t
  | ImageStreams => ResourceCounts.ImageStreams t
  | BuildConfigs => ResourceCounts.BuildConfigs t
  end.

(** The status updates of a trace, with their answers. *)
Definition statusUpdateCall (i : Interaction) : option (ScaleLoadConfig.t * option error) :=
  match i with
  | Did (StatusUpdate c) e => Some (c, e)
  | _ => None
  end.

(** The conditions of a configuration are Ready, Scaling and Degraded, and
    Degraded is False with the reason OperatingNormally. *)
Definition operatingNormally (c : ScaleLoadConfig.t) : Prop :=
  exists ready scaling t,
    ScaleLoadConfigStatus.Conditions (ScaleLoadConfig.Status c)
    = [ ready; scaling;
        Condition.mk "Degraded" ConditionFalse t "OperatingNormally"
          "Load generation is operating normally" ]
    /\ Condition.Type_ ready = "Ready"
    /\ Condition.Type_ scaling = "Scaling".

(** A status update carries the totals of [resourceCounts] and a Degraded
    condition that is False. *)
Definition statusCarries (resourceCounts : gmap string Z) (X : Type) (op : Op X) : Prop :=
  match op with
  | StatusUpdate c =>
      operatingNormally c
      /\ LoadGenerationMetrics.ErrorRate
           (ScaleLoadConfigStatus.Metrics (ScaleLoadConfig.Status c)) = "0.00"
      /\ forall kind,
           totalOf kind (ScaleLoadConfigStatus.TotalResources (ScaleLoadConfig.Status c))
           = int32 (countOf resourceCounts (countsKey kind))
  | _ => True
  end.

(** A status update has a Degraded condition that is False. *)
Definition statusSound (X : Type) (op : Op X) : Prop :=
  match op with
  | StatusUpdate c => operatingNormally c
  | _ => True
  end.

(** An operation that is no update of the status. *)
Definition notStatusUpdate (X : Type) (op : Op X) : Prop :=
  match op with
  | StatusUpdate _ => False
  | _ => True
  end.

(** The example configuration with a static rate of 5 calls per minute,
    and the example store that serves it. *)
Definition throttledConfig : ScaleLoadConfig.t :=
  ScaleLoadConfig.mk
    (ObjectMeta.mk "load" "" ∅ ∅ 0 None [ "scale.openshift.io/cleanup" ] 1)
    (ScaleLoadConfigSpec.mk true {[ "type" := "kwok" ]}
       (LoadProfile.mk "production" (Some "0.6") (Some 5) None (Some 5) None)
       (NamespaceConfig.mk "openshift-fake-" ∅ ∅)
       (AnnotationChurnConfig.mk true true true 60 300)
       Example.defaultChurn
       (CleanupConfig.mk true true 60 true))
    ScaleLoadConfigStatus.zero.

Definition throttledStore : Scripted.t :=
  Scripted.mk (fun _ => inr throttledConfig)
    (Scripted.nodes Examples.store) (Scripted.namespaces Examples.store)
    (Scripted.objects Examples.store) (Scripted.written Examples.store)
    (Scripted.clock Examples.store) (Scripted.draw Examples.store).

(** * Properties *)

(** ** float64 *)

Lemma shr_1_nonneg mrs : 0 <= shr_m mrs -> 0 <= shr_m (shr_1 mrs).
Proof.
  destruct mrs as [m r s]. simpl.
  destruct m as [|p|p]; simpl; try lia; destruct p; simpl; lia.
Qed.

Lemma iter_shr_1_nonneg n mrs :
  0 <= shr_m mrs -> 0 <= shr_m (SpecFloat.iter_pos shr_1 n mrs).
Proof.
  revert mrs. induction n as [n IH|n IH|]; intros mrs Hm; simpl.
  - apply IH, IH, shr_1_nonneg, Hm.
  - apply IH, IH, Hm.
  - apply shr_1_nonneg, Hm.
Qed.

Lemma shr_fexp_nonneg m e l :
  0 <= m -> 0 <= shr_m (fst (shr_fexp prec emax m e l)).
Proof.
  intros Hm. unfold shr_fexp, shr.
  assert (H0 : 0 <= shr_m (shr_record_of_loc m l))
    by (destruct l as [|[]]; simpl; exact Hm).
  destruct (fexp prec emax (Zdigits2 m + e) - e); simpl; auto.
  apply iter_shr_1_nonneg, H0.
Qed.

Lemma round_nearest_even_nonneg m l : 0 <= m -> 0 <= round_nearest_even m l.
Proof.
  intros Hm. unfold round_nearest_even.
  destruct l as [|[]]; try lia. destruct (Z.even m); lia.
Qed.

Lemma binary_round_aux_sign s m e l :
  0 <= m ->
  match binary_round_aux prec emax s m e l with
  | S754_zero s' | S754_infinity s' | S754_finite s' _ _ => s' = s
  | S754_nan => False
  end.
Proof.
  intros Hm. unfold binary_round_aux.
  pose proof (shr_fexp_nonneg m e l Hm) as H1.
  destruct (shr_fexp prec emax m e l) as [mrs' e'] eqn:E1. simpl in H1.
  pose proof (shr_fexp_nonneg _ e' loc_Exact
                (round_nearest_even_nonneg _ (loc_of_shr_record mrs') H1)) as H2.
  destruct (shr_fexp prec emax _ e' loc_Exact) as [mrs'' e''] eqn:E2. simpl in H2.
  destruct (shr_m mrs'') as [|p|p]; try reflexivity; try lia.
  destruct (e'' <=? emax - prec); reflexivity.
Qed.

Lemma of_Z_nonneg n : 0 <= n -> nonneg (of_Z n).
Proof.
  intros Hn. unfold of_Z, binary_normalize.
  destruct n as [|p|p]; try reflexivity; try lia.
  unfold binary_round.
  destruct (shl_align p 0 _) as [mz ez].
  pose proof (binary_round_aux_sign false (Z.pos mz) ez loc_Exact ltac:(lia)) as H.
  destruct (binary_round_aux _ _ _ _ _ _); simpl; auto.
Qed.

Lemma mul_nonneg x y : nonneg x -> nonneg y -> nonneg (mul x y).
Proof.
  unfold mul, SFmul.
  destruct x as [sx|sx| |sx mx ex], y as [sy|sy| |sy my ey]; simpl;
    intros Hx Hy; subst; try reflexivity; try exact I.
  pose proof (binary_round_aux_sign false (Z.pos (mx * my)) (ex + ey) loc_Exact
                ltac:(lia)) as H.
  simpl. destruct (binary_round_aux _ _ _ _ _ _); simpl; auto.
Qed.

Lemma Ceil_nonneg x : nonneg x -> nonneg (Ceil x).
Proof.
  destruct x as [s|s| |s m e]; simpl; auto.
  intros Hs; subst s. destruct (0 <=? e); [reflexivity|].
  set (d := 2 ^ (- e)). 
  assert (Hq : 0 <= Z.pos m / d).
  { destruct (Z.eq_dec d 0) as [->|Hd].
    - rewrite Z.div_0_r. lia.
    - apply Z.div_pos; [lia|]. subst d.
      assert (0 <= 2 ^ (- e)) by (apply Z.pow_nonneg; lia). lia. }
  destruct (Z.pos m mod d =? 0).
  - destruct (Z.pos m / d =? 0); [reflexivity|]. apply of_Z_nonneg; lia.
  - destruct (Z.pos m / d + 1 =? 0); [reflexivity|]. apply of_Z_nonneg; lia.
Qed.

Lemma trunc_nonneg x z : nonneg x -> trunc x = Some z -> 0 <= z.
Proof.
  destruct x as [s|s| |s m e]; simpl; try discriminate.
  - intros _ [= <-]. lia.
  - intros Hs [= <-]. subst s. destruct (0 <=? e) eqn:He.
    + assert (0 <= 2 ^ e) by (apply Z.pow_nonneg; lia). lia.
    + destruct (Z.eq_dec (2 ^ (- e)) 0) as [->|Hd].
      * rewrite Z.div_0_r. lia.
      * apply Z.div_pos; [lia|].
        assert (0 <= 2 ^ (- e)) by (apply Z.pow_nonneg; lia). lia.
Qed.

Lemma to_int_nonneg w x z : nonneg x -> to_int w x = Some z -> 0 <= z.
Proof.
  intros Hx. unfold to_int. destruct (trunc x) as [t|] eqn:Ht; [|discriminate].
  destruct (_ && _); [|discriminate]. intros [= <-]. eauto using trunc_nonneg.
Qed.

Lemma ceilTimes_nonneg n ratio t :
  0 <= n -> nonneg ratio -> ceilTimes n ratio = Some t -> 0 <= t.
Proof.
  intros Hn Hr. unfold ceilTimes, to_int64.
  apply to_int_nonneg, Ceil_nonneg, mul_nonneg; auto using of_Z_nonneg.
Qed.

Lemma ceilTimes_zero ratio : is_finite ratio = true -> ceilTimes 0 ratio = Some 0.
Proof. destruct ratio as [[]|[]| |[] m e]; try discriminate; reflexivity. Qed.

Lemma binary_normalize_nonneg m e : 0 <= m -> nonneg (binary_normalize prec emax m e false).
Proof.
  intros Hm. unfold binary_normalize.
  destruct m as [|p|p]; try reflexivity; try lia.
  unfold binary_round. destruct (shl_align p e _) as [mz ez].
  pose proof (binary_round_aux_sign false (Z.pos mz) ez loc_Exact ltac:(lia)) as H.
  destruct (binary_round_aux _ _ _ _ _ _); simpl; auto.
Qed.

Lemma of_ratio_nonneg n d : nonneg (of_ratio false n d).
Proof.
  unfold of_ratio. destruct n as [|p|p]; try reflexivity.
  unfold SFdiv, SFdiv_core_binary.
  set (s := _ - _ - Z.min _ _).
  set (m' := match s with Z0 => Z.pos p | Z.pos _ => Z.shiftl (Z.pos p) s | Z.neg _ => 0 end).
  assert (Hm' : 0 <= m').
  { subst m'. destruct s; try lia. apply Z.shiftl_nonneg. lia. }
  destruct (Z.div_eucl m' (Z.pos d)) as [q r] eqn:E.
  assert (Hq : 0 <= q).
  { assert (q = m' / Z.pos d) as -> by (unfold Z.div; now rewrite E).
    apply Z.div_pos; lia. }
  pose proof (binary_round_aux_sign (xorb false false) q
                (Z.min (fexp prec emax (Zdigits2 (Z.pos p) + 0 - (Zdigits2 (Z.pos d) + 0))) (0 - 0))
                (new_location (Z.pos d) r) Hq) as H.
  destruct (binary_round_aux _ _ _ _ _ _); simpl in *; auto.
Qed.

Import Strconv.

Lemma roundDecimal_nonneg m e : nonneg (roundDecimal false m e).
Proof.
  unfold roundDecimal. destruct m as [|p|p]; try reflexivity.
  destruct (0 <=? e) eqn:He.
  - apply of_Z_nonneg. assert (0 <= 10 ^ e) by (apply Z.pow_nonneg; lia). lia.
  - apply of_ratio_nonneg.
Qed.

Lemma roundBinary_nonneg m e : 0 <= m -> nonneg (roundBinary false m e).
Proof. apply binary_normalize_nonneg. Qed.

Lemma isDigit_digitVal c : isDigit c = true -> 0 <= digitVal c.
Proof. unfold isDigit, digitVal. lia. Qed.

Lemma isHexLetter_val c : isHexLetter c = true -> 0 <= hexLetterVal c.
Proof. unfold isHexLetter, hexLetterVal. lia. Qed.

Lemma readMantissa_nonneg hex s m :
  0 <= m_val m -> 0 <= m_val (fst (readMantissa hex s m)).
Proof.
  revert m. induction s as [|c r IH]; intros m Hm; simpl; [exact Hm|].
  destruct (Ascii.eqb c "_"); [now apply IH|].
  destruct (Ascii.eqb c ".").
  { destruct (m_sawdot m); [exact Hm|]. now apply IH. }
  destruct (isDigit c) eqn:Hd.
  { apply IH. simpl. pose proof (isDigit_digitVal c Hd). destruct hex; lia. }
  destruct (hex && isHexLetter c) eqn:Hh; [|exact Hm].
  apply IH. simpl. apply andb_prop in Hh as [_ Hh].
  pose proof (isHexLetter_val c Hh). lia.
Qed.

Lemma special_nonneg str f :
  unsigned str -> special (list_ascii_of_string str) = Some f -> nonneg f.
Proof.
  unfold special. destruct str as [|c r]; simpl.
  - intros _ [=].
  - intros Hu.
    destruct (Ascii.eqb_spec c "+") as [->|Hp].
    { simpl. destruct (_ || _); intros [= <-]; reflexivity. }
    destruct (Ascii.eqb_spec c "-") as [->|Hm]; [contradiction|].
    assert (forall X (a b d : X),
               match c with "+"%char => a | "-"%char => b | _ => d end = d) as Hc.
    { intros. destruct c as [[] [] [] [] [] [] [] []]; try reflexivity; congruence. }
    rewrite Hc. destruct (_ || _); [intros [= <-]; reflexivity|].
    destruct (eqb_chars _ _); intros [= <-]; exact I.
Qed.

Lemma readSign_unsigned str :
  unsigned str -> fst (readSign (list_ascii_of_string str)) = false.
Proof.
  destruct str as [|c r]; simpl; [reflexivity|].
  intros Hu. destruct c as [[] [] [] [] [] [] [] []]; try reflexivity; contradiction.
Qed.

Lemma ParseFloat_nonneg str : unsigned str -> nonneg (fst (ParseFloat str)).
Proof.
  intros Hu. unfold ParseFloat.
  destruct (special _) as [f|] eqn:Es; [simpl; eauto using special_nonneg|].
  pose proof (readSign_unsigned str Hu) as Hs.
  destruct (readSign _) as [neg r]. simpl in Hs. subst neg.
  set (hr := match r with
             | "0"%char :: x :: c :: r' =>
                 if Ascii.eqb (lower x) "x" then (true, c :: r') else (false, r)
             | _ => (false, r)
             end).
  destruct hr as [hex r'].
  pose proof (readMantissa_nonneg hex r' (Mantissa 0 0 false false) ltac:(simpl; lia)) as Hm.
  destruct (readMantissa hex r' _) as [m r'']. simpl in Hm.
  destruct (negb (m_sawdigits m)); [reflexivity|].
  destruct (readExponent hex r'') as [[e [|? ?]]|]; try reflexivity.
  destruct (negb (underscoreOK _)); [reflexivity|].
  assert (Hf : nonneg (if hex then roundBinary false (m_val m) (e - 4 * m_frac m)
                       else roundDecimal false (m_val m) (e - m_frac m))).
  { destruct hex; [now apply roundBinary_nonneg|apply roundDecimal_nonneg]. }
  destruct (if hex then _ else _); simpl in *; auto.
Qed.

(** ** The scaling plan *)

Lemma profileRatio_cases profile :
  profileRatio profile =
    if String.eqb profile "development" then lit_0_2
    else if String.eqb profile "staging" then lit_0_4
    else if String.eqb profile "extreme" then lit_1_0
    else lit_0_6.
Proof.
  unfold profileRatio.
  destruct (String.eqb_spec profile "development") as [->|H1]; [reflexivity|].
  destruct (String.eqb_spec profile "staging") as [->|H2]; [reflexivity|].
  destruct (String.eqb_spec profile "extreme") as [->|H3]; [reflexivity|].
  destruct (String.eqb_spec profile "production") as [->|H4]; [reflexivity|].
  cbn [list_to_map foldr curry fst snd uncurry].
  rewrite !lookup_insert_ne by congruence. reflexivity.
Qed.



Lemma schemaPattern_unsigned str : schemaPattern str = true -> unsigned str.
Proof.
  destruct str as [|c r]; [discriminate|]. unfold schemaPattern. simpl.
  intros Hd. apply andb_prop in Hd as [Hd _].
  destruct c as [[] [] [] [] [] [] [] []]; try exact I. discriminate.
Qed.

(** C8, as the code has it.  A string that [strconv.ParseFloat] rejects
    falls back to the ratio 0.6.  A string that parses is used as it is,
    with the sign it is written with: when the string has no leading
    minus sign, and so for every string the pattern of the schema admits,
    the target for [N >= 0] is not negative whenever the conversion to
    [int] is defined. *)
Theorem calculateTargetNamespaces_sign (config : ScaleLoadConfig.t) (s : string) (N : Z) :
  0 <= N ->
  LoadProfile.NamespacesPerNode (loadProfile config) = Some s ->
  (snd (parseFloat s) <> None ->
     calculateTargetNamespaces config N = to_int64 (Ceil (mul (of_Z N) lit_0_6)))
  /\ (unsigned s \/ schemaPattern s = true ->
      forall t, calculateTargetNamespaces config N = Some t -> 0 <= t).
Proof.
  intros HN Hs. unfold calculateTargetNamespaces. rewrite Hs. split.
  - destruct (parseFloat s) as [r [e|]]; simpl; [reflexivity|congruence].
  - intros Hu t.
    assert (Hu' : unsigned s) by (destruct Hu; auto using schemaPattern_unsigned).
    pose proof (ParseFloat_nonneg s Hu') as Hr. unfold parseFloat.
    destruct (ParseFloat s) as [r [e|]]; simpl in Hr.
    + apply ceilTimes_nonneg; [exact HN|]. apply of_ratio_nonneg.
    + apply ceilTimes_nonneg; assumption.
Qed.

Lemma calculateTargetNamespaces_sign_witness :
  calculateTargetNamespaces (Example.config "production" (Some "abc")) 10 = Some 6
  /\ 0 <= 8.
Proof.
  destruct (calculateTargetNamespaces_sign
              (Example.config "production" (Some "abc")) "abc" 10
              ltac:(lia) eq_refl) as [Hf _].
  split.
  - rewrite Hf; [vm_compute; reflexivity|]. vm_compute. discriminate.
  - apply (proj2 (calculateTargetNamespaces_sign
              (Example.config "production" (Some "0.07")) "0.07" 100
              ltac:(lia) eq_refl) (or_intror eq_refl) 8).
    vm_compute. reflexivity.
Defined.

(** C8 as stated fails: the ratio "-1" parses, is used, and the target
    for 10 nodes is -10. *)
Lemma calculateTargetNamespaces_negative :
  parseFloat "-1" = (of_Z (-1), None)
  /\ calculateTargetNamespaces (Example.config "production" (Some "-1")) 10 = Some (-10).
Proof. split; vm_compute; reflexivity. Qed.

(** For an explicit ratio the product is the float64 product: it can lie
    just above the exact product. *)
Lemma calculateTargetNamespaces_rounding :
  calculateTargetNamespaces (Example.config "production" (Some "0.07")) 100 = Some 8.
Proof. vm_compute. reflexivity. Qed.

(** ** Runs of programs *)

Section Runs.
Context {W : Type} (h : Handler W).

Lemma run_ret {A} (a : A) r w : run h (mret a) r w = Run.mk (Returned a) r w [].
Proof. reflexivity. Qed.

Lemma run_bind {A B} (p : Prog A) (f : A -> Prog B) r w :
  run h (p ≫= f) r w =
    let res := run h p r w in
    match Run.outcome res with
    | Returned a =>
        let res' := run h (f a) (Run.fields res) (Run.world res) in
        Run.mk (Run.outcome res') (Run.fields res') (Run.world res')
          (Run.trace res ++ Run.trace res')
    | Stopped why => Run.mk (Stopped why) (Run.fields res) (Run.world res) (Run.trace res)
    end.
Proof.
  revert r w. induction p as [a|why|X op k IH]; intros r w.
  - simpl. destruct (run h (f a) r w); reflexivity.
  - reflexivity.
  - change (Vis op k ≫= f) with (Vis op (fun x => k x ≫= f)).
    simpl. destruct (answer h op r w) as [[x r'] w'].
    rewrite IH. simpl.
    destruct (Run.outcome (run h (k x) r' w')); simpl; destruct (silent op); reflexivity.
Qed.

Lemma run_call {X} (op : Op X) r w :
  run h (call op) r w =
    let '(x, r', w') := answer h op r w in
    Run.mk (Returned x) r' w' (if silent op then [] else [Did op x]).
Proof. unfold call. simpl. destruct (answer h op r w) as [[x r'] w']. reflexivity. Qed.

Lemma run_readFields r w : run h readFields r w = Run.mk (Returned r) r w [].
Proof. reflexivity. Qed.

Lemma run_modifyFields f r w : run h (modifyFields f) r w = Run.mk (Returned tt) (f r) w [].
Proof. reflexivity. Qed.

(** *** What a program may ask *)

Lemma asksOnly_trace {A} P (p : Prog A) r w :
  asksOnly P p -> Forall (interactionOp P) (Run.trace (run h p r w)).
Proof.
  revert r w. induction p as [a|why|X op k IH]; intros r w Hp; simpl; try constructor.
  destruct Hp as [Hop Hk]. destruct (answer h op r w) as [[x r'] w']. simpl.
  destruct (silent op); [apply IH, Hk|]. constructor; [exact Hop|apply IH, Hk].
Qed.

Lemma asksOnly_bind {A B} P (p : Prog A) (f : A -> Prog B) :
  asksOnly P p -> (forall a, asksOnly P (f a)) -> asksOnly P (p ≫= f).
Proof.
  intros Hp Hf. induction p as [a|why|X op k IH]; simpl in *; auto.
  destruct Hp as [Hop Hk]. split; [exact Hop|]. intros x. apply IH, Hk.
Qed.

Lemma asksOnly_call {X} (P : forall X, Op X -> Prop) (op : Op X) :
  P _ op -> asksOnly P (call op).
Proof. intros Hop. simpl. auto. Qed.

Lemma asksOnly_forEach {Ix S R} P (l : list Ix) (s : S) (body : Ix -> S -> Prog (S + R)) :
  (forall i s, asksOnly P (body i s)) -> asksOnly P (forEach l s body).
Proof.
  intros Hb. revert s. induction l as [|i l IH]; intros s; simpl; [exact I|].
  apply asksOnly_bind; [apply Hb|]. intros [s'|v]; [apply IH|exact I].
Qed.

Lemma asksOnly_forAll {Ix S} P (l : list Ix) (s : S) (body : Ix -> S -> Prog S) :
  (forall i s, asksOnly P (body i s)) -> asksOnly P (forAll l s body).
Proof.
  intros Hb. revert s. induction l as [|i l IH]; intros s; simpl; [exact I|].
  apply asksOnly_bind; [apply Hb|]. intros s'. apply IH.
Qed.

Lemma asksOnly_impl {A} (P Q : forall X, Op X -> Prop) (p : Prog A) :
  (forall X (op : Op X), P X op -> Q X op) -> asksOnly P p -> asksOnly Q p.
Proof.
  intros HPQ. induction p as [a|why|X op k IH]; simpl; auto.
  intros [Hop Hk]. split; auto.
Qed.

End Runs.

Section Loops.
Context {W : Type} (h : Handler W).

Lemma returns_run {A} (p : Prog A) r w :
  returns p -> exists a, Run.outcome (run h p r w) = Returned a.
Proof.
  revert r w. induction p as [a|why|X op k IH]; intros r w Hp; simpl in *.
  - eauto.
  - contradiction.
  - destruct (answer h op r w) as [[x r'] w']. simpl. apply IH, Hp.
Qed.

Lemma returns_bind {A B} (p : Prog A) (f : A -> Prog B) :
  returns p -> (forall a, returns (f a)) -> returns (p ≫= f).
Proof.
  intros Hp Hf. induction p as [a|why|X op k IH]; simpl in *; auto.
Qed.

Lemma returns_forAll {Ix S} (l : list Ix) (s : S) (body : Ix -> S -> Prog S) :
  (forall i s, returns (body i s)) -> returns (forAll l s body).
Proof.
  intros Hb. revert s. induction l as [|i l IH]; intros s; simpl; [exact I|].
  apply returns_bind; [apply Hb|]. intros s'. apply IH.
Qed.

(** A loop with early exit, seen through a projection of the trace: when
    each iteration [i] makes the calls [G i], or a prefix of them when it
    leaves the function, the loop makes the calls of its iterations in
    order, all of them when it runs to its end.  [P] holds of every
    interaction, [P'] of those of the iterations that go on. *)
Lemma forEach_calls {Ix S R B} (proj : Interaction -> option B) (G : Ix -> list B)
  (P P' : Interaction -> Prop) (Q : R -> Prop)
  (body : Ix -> S -> Prog (S + R)) (l : list Ix) :
  (forall i s r w, i ∈ l ->
     let res := run h (body i s) r w in
     omap proj (Run.trace res) `prefix_of` G i
     /\ Forall P (Run.trace res)
     /\ match Run.outcome res with
        | Returned (inl _) => omap proj (Run.trace res) = G i /\ Forall P' (Run.trace res)
        | Returned (inr v) => Q v
        | Stopped _ => False
        end) ->
  forall s r w,
    let res := run h (forEach l s body) r w in
    omap proj (Run.trace res) `prefix_of` mjoin (G <$> l)
    /\ Forall P (Run.trace res)
    /\ match Run.outcome res with
       | Returned (inl _) =>
           omap proj (Run.trace res) = mjoin (G <$> l) /\ Forall P' (Run.trace res)
       | Returned (inr v) => Q v
       | Stopped _ => False
       end.
Proof.
  induction l as [|i l IH]; intros Hb s r w; simpl.
  - split; [apply prefix_nil|]. split; [constructor|]. split; [reflexivity|constructor].
  - rewrite run_bind. simpl.
    destruct (Hb i s r w ltac:(left)) as (Hpre & HP & Hout).
    destruct (Run.outcome (run h (body i s) r w)) as [[s'|v]|why] eqn:Eo; simpl.
    + destruct Hout as [Hout HP'].
      specialize (IH (fun i s r w Hi => Hb i s r w (list_elem_of_further _ _ _ Hi))
                     s' (Run.fields (run h (body i s) r w)) (Run.world (run h (body i s) r w))).
      simpl in IH. destruct IH as (IHpre & IHP & IHout).
      rewrite omap_app, Hout. split; [now apply prefix_app|].
      split; [now apply Forall_app|].
      destruct (Run.outcome (run h (forEach l s' body) _ _)) as [[s''|v]|why]; auto.
      destruct IHout as [-> IHP']. split; [reflexivity|now apply Forall_app].
    + rewrite app_nil_r. split; [|split; [exact HP|exact Hout]].
      eapply prefix_app_r in Hpre. exact Hpre.
    + contradiction.
Qed.

(** The same for a loop without exit. *)
Lemma forAll_calls {Ix S B} (proj : Interaction -> option B) (G : Ix -> list B)
  (P : Interaction -> Prop) (body : Ix -> S -> Prog S) (l : list Ix) :
  (forall i s r w, i ∈ l ->
     let res := run h (body i s) r w in
     Forall P (Run.trace res)
     /\ match Run.outcome res with
        | Returned _ => omap proj (Run.trace res) = G i
        | Stopped _ => omap proj (Run.trace res) `prefix_of` G i
        end) ->
  forall s r w,
    let res := run h (forAll l s body) r w in
    Forall P (Run.trace res)
    /\ match Run.outcome res with
       | Returned _ => omap proj (Run.trace res) = mjoin (G <$> l)
       | Stopped _ => omap proj (Run.trace res) `prefix_of` mjoin (G <$> l)
       end.
Proof.
  induction l as [|i l IH]; intros Hb s r w; simpl.
  - split; [constructor|reflexivity].
  - rewrite run_bind. simpl.
    destruct (Hb i s r w ltac:(left)) as (HP & Hout).
    destruct (Run.outcome (run h (body i s) r w)) as [s'|why] eqn:Eo; simpl.
    + specialize (IH (fun i s r w Hi => Hb i s r w (list_elem_of_further _ _ _ Hi))
                     s' (Run.fields (run h (body i s) r w)) (Run.world (run h (body i s) r w))).
      simpl in IH. destruct IH as (IHP & IHout).
      rewrite omap_app, Hout. split; [now apply Forall_app|].
      destruct (Run.outcome (run h (forAll l s' body) _ _)) as [s''|why].
      * now rewrite IHout.
      * now apply prefix_app.
    + split; [exact HP|]. eapply prefix_app_r in Hout. exact Hout.
Qed.

(** Interactions that are no calls of a kind leave its projection empty. *)
Lemma omap_nil {B} (proj : Interaction -> option B) (t : list Interaction) :
  Forall (fun i => proj i = None) t -> omap proj t = [].
Proof.
  induction 1 as [|i t Hi _ IH]; [reflexivity|]. simpl. now rewrite Hi.
Qed.

End Loops.

(** ** Slices and machine integers *)

Lemma int32_id z : minInt32 <= z <= maxInt32 -> int32 z = z.
Proof.
  unfold int32, wrap, minInt32, maxInt32. intros Hz.
  rewrite Z.mod_small; lia.
Qed.

Lemma index_Some {A} (l : list A) i :
  0 <= i < len l -> exists x, index l i = Some x /\ l !! Z.to_nat i = Some x.
Proof.
  unfold index, len. intros Hi.
  destruct (lookup_lt_is_Some_2 l (Z.to_nat i) ltac:(lia)) as [x Hx].
  exists x. destruct (i <? 0) eqn:E; [lia|]. auto.
Qed.

Lemma elem_of_countDown i hi lo : i ∈ countDown hi lo -> lo <= i <= hi.
Proof.
  unfold countDown. rewrite elem_of_reverse, elem_of_seqZ. lia.
Qed.

Lemma omap_reverse {A B} (f : A -> option B) (l : list A) :
  omap f (reverse l) = reverse (omap f l).
Proof.
  induction l as [|a l IH]; [reflexivity|].
  rewrite reverse_cons, omap_app, IH. simpl.
  destruct (f a); simpl; [now rewrite reverse_cons|now rewrite app_nil_r].
Qed.

Lemma omap_index_seqZ {A} (l : list A) (lo : Z) (n : nat) :
  0 <= lo -> lo + Z.of_nat n <= len l ->
  omap (index l) (seqZ lo (Z.of_nat n)) = take n (drop (Z.to_nat lo) l).
Proof.
  revert lo. induction n as [|n IH]; intros lo Hlo Hn.
  - reflexivity.
  - rewrite Nat2Z.inj_succ, seqZ_cons by lia. simpl.
    destruct (index_Some l lo ltac:(lia)) as (x & -> & Hx).
    replace (Z.pred (Z.succ (Z.of_nat n))) with (Z.of_nat n) by lia.
    rewrite IH by lia.
    rewrite (drop_S _ _ _ Hx). simpl. f_equal. f_equal. f_equal. lia.
Qed.

(** The elements [l[hi], ..., l[lo]] are the slice [l[lo:]] reversed when
    [hi] is the last index. *)
Lemma omap_index_countDown {A} (l : list A) (lo : Z) :
  0 <= lo <= len l ->
  omap (index l) (countDown (len l - 1) lo) = reverse (drop (Z.to_nat lo) l).
Proof.
  intros Hlo. unfold countDown. rewrite omap_reverse. f_equal.
  replace (len l - 1 - lo + 1) with (Z.of_nat (Z.to_nat (len l - lo))) by lia.
  rewrite omap_index_seqZ by lia.
  apply take_ge. rewrite length_drop. unfold len in *. lia.
Qed.

Lemma mjoin_option_list {A B} (f : A -> option B) (l : list A) :
  mjoin ((fun a => option_list (f a)) <$> l) = omap f l.
Proof.
  induction l as [|a l IH]; [reflexivity|].
  change (option_list (f a) ++ mjoin ((fun a => option_list (f a)) <$> l)
          = match f a with Some y => y :: omap f l | None => omap f l end).
  rewrite IH. destruct (f a); reflexivity.
Qed.

(** ** Scaling down the objects of a namespace *)

Section ScaleDown.
Context `{TimeLayout} {W : Type} (h : Handler W).

Ltac list_answer Hl :=
  rewrite run_bind, run_call; cbn [answer]; rewrite Hl;
  cbn -[int32 seqZ countDown forEach performResourceChurn fmap];
  match goal with items := ?t |- _ => change t with items end.

Ltac branches Ht Hc :=
  rewrite !(int32_id (len _)) by (unfold minInt32, maxInt32, len in *; lia);
  rewrite (int32_id (len _ - 1)) by (unfold minInt32, maxInt32, len in *; lia);
  replace (len _ <? _) with false by (symmetry; apply Z.ltb_ge; lia);
  replace (_ <? len _) with true by (symmetry; apply Z.ltb_lt; lia);
  cbn -[int32 seqZ countDown forEach performResourceChurn fmap].

Lemma manageImageStreams_scale_down config ns target r w listed w1 :
  h _ (List ImageStream ns (matchingLabels config "imagestream")) w = (inr listed, w1) ->
  let items := Object.mk ImageStream <$> listed in
  0 <= target < len items -> len items <= maxInt32 ->
  scalesDown (run h (manageImageStreams config ns target) r w) target
    (reverse (drop (Z.to_nat target) items)).
Proof.
  intros Hl items Ht Hc. unfold manageImageStreams, scalesDown.
  list_answer Hl. branches Ht Hc.
  rewrite run_bind.
  match goal with |- context [run h (forEach ?l ?s ?body) ?r ?w] =>
    pose proof (forEach_calls h deleteCall (fun i => option_list (index items i))
                  noCreate deleteWentThrough (fun v : Z * option error => exists e, snd v = Some e)
                  body l) as Hloop;
    specialize (fun Hb => Hloop Hb s r w); cbv zeta in Hloop;
    destruct (run h (forEach l s body) r w) as [out r' w' t]
  end.
  rewrite mjoin_option_list, omap_index_countDown in Hloop by lia.
  destruct Hloop as (Hpre & HP & Hout).
  { intros i s r0 w0 Hi. apply elem_of_countDown in Hi.
    destruct (index_Some items i ltac:(lia)) as (item & -> & _).
    simpl. destruct (h _ (Delete item) w0) as [[err|] w2]; simpl.
    - split; [reflexivity|]. split; [repeat constructor|]. eauto.
    - split; [reflexivity|]. split; [repeat constructor|].
      split; [reflexivity|]. repeat constructor. }
  simpl in *. unfold deleteCalls.
  destruct out as [[[]|[n err]]|why]; simpl; try contradiction; rewrite app_nil_r.
  - exists target, None. destruct Hout as [Heq HP']. split; [reflexivity|].
    split; [constructor; [reflexivity|exact HP]|]. split; [exact Hpre|].
    intros _. split; [reflexivity|]. split; [exact Heq|].
    constructor; [exact I|exact HP'].
  - exists n, err. destruct Hout as [e He]. simpl in He. subst err.
    split; [reflexivity|]. split; [constructor; [reflexivity|exact HP]|].
    split; [exact Hpre|]. discriminate.
Qed.

Lemma manageBuildConfigs_scale_down config ns target r w listed w1 :
  h _ (List BuildConfig ns (matchingLabels config "buildconfig")) w = (inr listed, w1) ->
  let items := Object.mk BuildConfig <$> listed in
  0 <= target < len items -> len items <= maxInt32 ->
  scalesDown (run h (manageBuildConfigs config ns target) r w) target
    (reverse (drop (Z.to_nat target) items)).
Proof.
  intros Hl items Ht Hc. unfold manageBuildConfigs, scalesDown.
  list_answer Hl. branches Ht Hc.
  rewrite run_bind.
  match goal with |- context [run h (forEach ?l ?s ?body) ?r ?w] =>
    pose proof (forEach_calls h deleteCall (fun i => option_list (index items i))
                  noCreate deleteWentThrough (fun v : Z * option error => exists e, snd v = Some e)
                  body l) as Hloop;
    specialize (fun Hb => Hloop Hb s r w); cbv zeta in Hloop;
    destruct (run h (forEach l s body) r w) as [out r' w' t]
  end.
  rewrite mjoin_option_list, omap_index_countDown in Hloop by lia.
  destruct Hloop as (Hpre & HP & Hout).
  { intros i s r0 w0 Hi. apply elem_of_countDown in Hi.
    destruct (index_Some items i ltac:(lia)) as (item & -> & _).
    simpl. destruct (h _ (Delete item) w0) as [[err|] w2]; simpl.
    - split; [reflexivity|]. split; [repeat constructor|]. eauto.
    - split; [reflexivity|]. split; [repeat constructor|].
      split; [reflexivity|]. repeat constructor. }
  simpl in *. unfold deleteCalls.
  destruct out as [[[]|[n err]]|why]; simpl; try contradiction; rewrite app_nil_r.
  - exists target, None. destruct Hout as [Heq HP']. split; [reflexivity|].
    split; [constructor; [reflexivity|exact HP]|]. split; [exact Hpre|].
    intros _. split; [reflexivity|]. split; [exact Heq|].
    constructor; [exact I|exact HP'].
  - exists n, err. destruct Hout as [e He]. simpl in He. subst err.
    split; [reflexivity|]. split; [constructor; [reflexivity|exact HP]|].
    split; [exact Hpre|]. discriminate.
Qed.

Lemma manageRoutes_scale_down config ns target r w listed w1 :
  h _ (List Route ns (matchingLabels config "route")) w = (inr listed, w1) ->
  let items := Object.mk Route <$> listed in
  0 <= target < len items -> len items <= maxInt32 ->
  scalesDown (run h (manageRoutes config ns target) r w) target
    (routeDeletes ns items target).
Proof.
  intros Hl items Ht Hc. unfold manageRoutes, scalesDown, routeDeletes.
  list_answer Hl. branches Ht Hc.
  rewrite run_bind.
  match goal with |- context [run h (forEach ?l ?s ?body) ?r ?w] =>
    pose proof (forEach_calls h deleteCall
                  (fun i => match index items i with
                            | Some route => [route; serviceOf ns i]
                            | None => []
                            end)
                  noCreate deleteWentThrough (fun v : Z * option error => exists e, snd v = Some e)
                  body l) as Hloop;
    specialize (fun Hb => Hloop Hb s r w); cbv zeta in Hloop;
    destruct (run h (forEach l s body) r w) as [out r' w' t]
  end.
  destruct Hloop as (Hpre & HP & Hout).
  { intros i s r0 w0 Hi. apply elem_of_countDown in Hi.
    destruct (index_Some items i ltac:(lia)) as (item & -> & _).
    simpl. destruct (h _ (Delete item) w0) as [[err|] w2]; simpl.
    - split; [now apply prefix_cons, prefix_nil|]. split; [repeat constructor|]. eauto.
    - fold (serviceOf ns i).
      destruct (h _ (Delete (serviceOf ns i)) w2) as [[err|] w3]; simpl.
      + destruct (IsNotFound err) eqn:Enf; simpl.
        * split; [reflexivity|]. split; [repeat constructor|].
          split; [reflexivity|].
          constructor; [now left|]. constructor; [|constructor].
          right. split; [reflexivity|eauto].
        * split; [reflexivity|]. split; [repeat constructor|]. eauto.
      + split; [reflexivity|]. split; [repeat constructor|].
        split; [reflexivity|]. repeat constructor. }
  simpl in *. unfold deleteCalls.
  destruct out as [[[]|[n err]]|why]; simpl; try contradiction; rewrite app_nil_r.
  - exists target, None. destruct Hout as [Heq HP']. split; [reflexivity|].
    split; [constructor; [reflexivity|exact HP]|]. split; [exact Hpre|].
    intros _. split; [reflexivity|]. split; [exact Heq|].
    constructor; [exact I|exact HP'].
  - exists n, err. destruct Hout as [e He]. simpl in He. subst err.
    split; [reflexivity|]. split; [constructor; [reflexivity|exact HP]|].
    split; [exact Hpre|]. discriminate.
Qed.

Lemma notCreateDelete_interaction i :
  interactionOp notCreateDelete i -> noCreate i /\ noDelete i /\ deleteWentThrough i.
Proof.
  destruct i as [X op x].
  destruct op; cbv [interactionOp notCreateDelete noCreate noDelete deleteWentThrough
                    createCall deleteCall]; intuition.
Qed.

Lemma notCreateDelete_trace t :
  Forall (interactionOp notCreateDelete) t ->
  Forall noCreate t /\ Forall deleteWentThrough t /\ deleteCalls t = [].
Proof.
  intros Ht. repeat split.
  - eapply Forall_impl; [exact Ht|]. intros i Hi. apply notCreateDelete_interaction, Hi.
  - eapply Forall_impl; [exact Ht|]. intros i Hi. apply notCreateDelete_interaction, Hi.
  - apply omap_nil. eapply Forall_impl; [exact Ht|].
    intros i Hi. apply notCreateDelete_interaction, Hi.
Qed.

(** The churn of a kind updates objects: it returns, and neither creates
    nor deletes. *)
Lemma performResourceChurn_returns config resources ns type :
  returns (performResourceChurn config resources ns type).
Proof.
  unfold performResourceChurn. destruct (len resources =? 0); [exact I|].
  apply returns_forAll. intros o n. simpl. intros draw.
  destruct (ltb draw _); simpl; [|exact I].
  intros now iteration [e|]; exact I.
Qed.

Lemma performResourceChurn_asks config resources ns type :
  asksOnly notCreateDelete (performResourceChurn config resources ns type).
Proof.
  unfold performResourceChurn. destruct (len resources =? 0); [exact I|].
  apply asksOnly_forAll. intros o n. simpl. split; [exact I|]. intros draw.
  destruct (ltb draw _); simpl; [|exact I].
  split; [exact I|]. intros now. split; [exact I|]. intros iteration.
  split; [exact I|]. intros [e|]; exact I.
Qed.

Lemma manageConfigMaps_scale_down config ns target r w listed w1 :
  h _ (List ConfigMap ns (matchingLabels config "configmap")) w = (inr listed, w1) ->
  let items := Object.mk ConfigMap <$> listed in
  0 <= target < len items -> len items <= maxInt32 ->
  scalesDown (run h (manageConfigMaps config ns target) r w) target
    (reverse (drop (Z.to_nat target) items)).
Proof.
  intros Hl items Ht Hc. unfold manageConfigMaps, scalesDown.
  list_answer Hl. branches Ht Hc.
  rewrite run_bind.
  match goal with |- context [run h (forEach ?l ?s ?body) ?r ?w] =>
    pose proof (forEach_calls h deleteCall (fun i => option_list (index items i))
                  noCreate deleteWentThrough (fun v : Z * option error => exists e, snd v = Some e)
                  body l) as Hloop;
    specialize (fun Hb => Hloop Hb s r w); cbv zeta in Hloop;
    destruct (run h (forEach l s body) r w) as [out r' w' t]
  end.
  rewrite mjoin_option_list, omap_index_countDown in Hloop by lia.
  destruct Hloop as (Hpre & HP & Hout).
  { intros i s r0 w0 Hi. apply elem_of_countDown in Hi.
    destruct (index_Some items i ltac:(lia)) as (item & -> & _).
    simpl. destruct (h _ (Delete item) w0) as [[err|] w2]; simpl.
    - destruct (h _ (LogError err "Failed to delete ConfigMap") w2) as [[] w3]; simpl.
      split; [reflexivity|]. split; [repeat constructor|]. eauto.
    - split; [reflexivity|]. split; [repeat constructor|].
      split; [reflexivity|]. repeat constructor. }
  simpl in *. unfold deleteCalls.
  destruct out as [[deleted|[n err]]|why]; simpl; try contradiction.
  - rewrite run_bind.
    destruct (returns_run h (performResourceChurn config items ns "configmap") r' w'
                (performResourceChurn_returns _ _ _ _)) as [updated Hu].
    pose proof (asksOnly_trace h _ _ r' w' (performResourceChurn_asks config items ns "configmap"))
      as Hc'.
    apply notCreateDelete_trace in Hc' as (Hc1 & Hc2 & Hc3).
    destruct (run h (performResourceChurn config items ns "configmap") r' w')
      as [out2 r2 w2 t2]. simpl in *. subst out2. simpl.
    rewrite app_nil_r, omap_app. fold (deleteCalls t2). rewrite Hc3, app_nil_r.
    exists target, None. destruct Hout as [Heq HP']. split; [reflexivity|].
    split; [constructor; [reflexivity|now apply Forall_app]|]. split; [exact Hpre|].
    intros _. split; [reflexivity|]. split; [exact Heq|].
    constructor; [exact I|now apply Forall_app].
  - rewrite app_nil_r. exists n, err. destruct Hout as [e He]. simpl in He. subst err.
    split; [reflexivity|]. split; [constructor; [reflexivity|exact HP]|].
    split; [exact Hpre|]. discriminate.
Qed.

Lemma manageSecrets_scale_down config ns target r w listed w1 :
  h _ (List Secret ns (matchingLabels config "secret")) w = (inr listed, w1) ->
  let items := Object.mk Secret <$> listed in
  0 <= target < len items -> len items <= maxInt32 ->
  scalesDown (run h (manageSecrets config ns target) r w) target
    (reverse (drop (Z.to_nat target) items)).
Proof.
  intros Hl items Ht Hc. unfold manageSecrets, scalesDown.
  list_answer Hl. branches Ht Hc.
  rewrite run_bind.
  match goal with |- context [run h (forEach ?l ?s ?body) ?r ?w] =>
    pose proof (forEach_calls h deleteCall (fun i => option_list (index items i))
                  noCreate deleteWentThrough (fun v : Z * option error => exists e, snd v = Some e)
                  body l) as Hloop;
    specialize (fun Hb => Hloop Hb s r w); cbv zeta in Hloop;
    destruct (run h (forEach l s body) r w) as [out r' w' t]
  end.
  rewrite mjoin_option_list, omap_index_countDown in Hloop by lia.
  destruct Hloop as (Hpre & HP & Hout).
  { intros i s r0 w0 Hi. apply elem_of_countDown in Hi.
    destruct (index_Some items i ltac:(lia)) as (item & -> & _).
    simpl. destruct (h _ (Delete item) w0) as [[err|] w2]; simpl.
    - destruct (h _ (LogError err "Failed to delete Secret") w2) as [[] w3]; simpl.
      split; [reflexivity|]. split; [repeat constructor|]. eauto.
    - split; [reflexivity|]. split; [repeat constructor|].
      split; [reflexivity|]. repeat constructor. }
  simpl in *. unfold deleteCalls.
  destruct out as [[deleted|[n err]]|why]; simpl; try contradiction.
  - rewrite run_bind.
    destruct (returns_run h (performResourceChurn config items ns "secret") r' w'
                (performResourceChurn_returns _ _ _ _)) as [updated Hu].
    pose proof (asksOnly_trace h _ _ r' w' (performResourceChurn_asks config items ns "secret"))
      as Hc'.
    apply notCreateDelete_trace in Hc' as (Hc1 & Hc2 & Hc3).
    destruct (run h (performResourceChurn config items ns "secret") r' w')
      as [out2 r2 w2 t2]. simpl in *. subst out2. simpl.
    rewrite app_nil_r, omap_app. fold (deleteCalls t2). rewrite Hc3, app_nil_r.
    exists target, None. destruct Hout as [Heq HP']. split; [reflexivity|].
    split; [constructor; [reflexivity|now apply Forall_app]|]. split; [exact Hpre|].
    intros _. split; [reflexivity|]. split; [exact Heq|].
    constructor; [exact I|now apply Forall_app].
  - rewrite app_nil_r. exists n, err. destruct Hout as [e He]. simpl in He. subst err.
    split; [reflexivity|]. split; [constructor; [reflexivity|exact HP]|].
    split; [exact Hpre|]. discriminate.
Qed.

End ScaleDown.



(** ** Deleting namespaces *)

Lemma mjoin_singletons {A B} (f : A -> B) (l : list A) :
  mjoin ((fun a => [f a]) <$> l) = f <$> l.
Proof.
  induction l as [|a l IH]; [reflexivity|].
  change (f a :: mjoin ((fun a => [f a]) <$> l) = f a :: (f <$> l)). now rewrite IH.
Qed.

(** C3.  [deleteNamespaces] sorts the namespaces by creation timestamp,
    oldest first, and asks to delete the first [count] of the sorted
    slice in this order: they are as many as [count] allows, and none of
    them is younger than a namespace it keeps.  Each delete carries the
    grace period of 30 seconds when [GracefulDeletes] is set and none
    otherwise.  When a delete fails it stops there with the error; when it
    returns without error it has made all these calls, each answered
    without error. *)
Theorem deleteNamespaces_oldest_first `{SliceSorter} {W : Type} (h : Handler W)
  (config : ScaleLoadConfig.t) (namespaces : list Namespace.t) (count : Z)
  (r : Reconciler.t) (w : W) :
  let res := run h (deleteNamespaces config namespaces count) r w in
  let sorted :=
    sortSlice (fun a b => GoTime.Before (Namespace.CreationTimestamp a)
                                          (Namespace.CreationTimestamp b)) namespaces in
  let grace := if CleanupConfig.GracefulDeletes (cleanupConfig config) then Some 30 else None in
  let doomed := take (Z.to_nat count) sorted in
  (exists err,
      Run.outcome res = Returned err
      /\ deleteNamespaceCalls (Run.trace res) `prefix_of` ((fun ns => (ns, grace)) <$> doomed)
      /\ (err = None ->
          deleteNamespaceCalls (Run.trace res) = (fun ns => (ns, grace)) <$> doomed
          /\ Forall namespaceDeleted (Run.trace res)))
  /\ sorted ≡ₚ namespaces
  /\ Sorted (fun a b => Namespace.CreationTimestamp a <= Namespace.CreationTimestamp b) sorted
  /\ len doomed = Z.min (Z.max count 0) (len namespaces)
  /\ (forall d k, d ∈ doomed -> k ∈ drop (Z.to_nat count) sorted ->
        Namespace.CreationTimestamp d <= Namespace.CreationTimestamp k).
Proof.
  intros res sorted grace doomed.
  assert (Hperm : sorted ≡ₚ namespaces) by apply sortSlice_Permutation.
  assert (Hsorted : Sorted (fun a b => Namespace.CreationTimestamp a
                                       <= Namespace.CreationTimestamp b) sorted)
    by apply (sortSlice_Sorted _ Namespace.CreationTimestamp).
  split; [|split; [exact Hperm|split; [exact Hsorted|split]]].
  - subst res. unfold deleteNamespaces. fold sorted. fold doomed. rewrite run_bind.
    match goal with |- context [run h (forEach ?l ?s ?body) ?r ?w] =>
      pose proof (forEach_calls h deleteNamespaceCall (fun ns => [(ns, grace)])
                    (fun _ => True) namespaceDeleted
                    (fun v : option error => exists e, v = Some e)
                    body l) as Hloop;
      specialize (fun Hb => Hloop Hb s r w); cbv zeta in Hloop;
      destruct (run h (forEach l s body) r w) as [out r' w' t]
    end.
    rewrite mjoin_singletons in Hloop.
    destruct Hloop as (Hpre & _ & Hout).
    { intros ns s r0 w0 _. subst grace.
      destruct (CleanupConfig.GracefulDeletes (cleanupConfig config)); simpl.
      - destruct (h _ (DeleteNamespace ns (Some 30)) w0) as [[err|] w2]; simpl.
        + split; [reflexivity|]. split; [repeat constructor|]. eauto.
        + split; [reflexivity|]. split; [repeat constructor|].
          split; [reflexivity|]. repeat constructor.
      - destruct (h _ (DeleteNamespace ns None) w0) as [[err|] w2]; simpl.
        + split; [reflexivity|]. split; [repeat constructor|]. eauto.
        + split; [reflexivity|]. split; [repeat constructor|].
          split; [reflexivity|]. repeat constructor. }
    simpl in *. unfold deleteNamespaceCalls.
    destruct out as [[[]|err]|why]; simpl; try contradiction; rewrite app_nil_r.
    + exists None. destruct Hout as [Heq HP']. auto.
    + exists err. destruct Hout as [e ->]. repeat split; auto; discriminate.
  - subst doomed. unfold len. rewrite length_take, (Permutation_length Hperm). lia.
  - intros d k Hd Hk.
    assert (Hss : StronglySorted (fun a b => Namespace.CreationTimestamp a
                                            <= Namespace.CreationTimestamp b) sorted).
    { apply Sorted.Sorted_StronglySorted; [|exact Hsorted]. intros a b c. lia. }
    rewrite <- (take_drop (Z.to_nat count) sorted) in Hss.
    exact (StronglySorted_app_1_elem_of _ _ _ d k Hss Hd Hk).
Qed.

Lemma deleteNamespaces_oldest_first_witness :
  deleteNamespaceCalls
    (Run.trace (run (Scripted.handler Examples.store)
                  (deleteNamespaces Examples.config
                     [Examples.namespace "ns" 0 200; Examples.namespace "ns-1" 1 100] 1)
                  Reconciler.init 0%nat))
  = [(Examples.namespace "ns-1" 1 100, Some 30)].
Proof.
  destruct (deleteNamespaces_oldest_first (Scripted.handler Examples.store) Examples.config
              [Examples.namespace "ns" 0 200; Examples.namespace "ns-1" 1 100] 1
              Reconciler.init 0%nat) as [(err & Hout & _ & Hall) _].
  assert (err = None) as -> by (vm_compute in Hout; congruence).
  destruct (Hall eq_refl) as [-> _]. vm_compute. reflexivity.
Defined.

(** ** Events *)

Lemma add_nonneg x y : nonneg x -> nonneg y -> nonneg (add x y).
Proof.
  unfold add, SFadd.
  destruct x as [sx|sx| |sx mx ex], y as [sy|sy| |sy my ey]; simpl;
    intros Hx Hy; subst; try reflexivity; try exact I.
  apply binary_normalize_nonneg. unfold cond_Zopp. lia.
Qed.

Lemma div_nonneg x y : nonneg x -> nonneg y -> nonneg (div x y).
Proof.
  unfold div, SFdiv.
  destruct x as [sx|sx| |sx mx ex], y as [sy|sy| |sy my ey]; simpl;
    intros Hx Hy; subst; try reflexivity; try exact I.
  unfold SFdiv_core_binary.
  set (s := _ - _ - Z.min _ _).
  set (m' := match s with Z0 => Z.pos mx | Z.pos _ => Z.shiftl (Z.pos mx) s | Z.neg _ => 0 end).
  assert (Hm' : 0 <= m').
  { subst m'. destruct s; try lia. apply Z.shiftl_nonneg. lia. }
  destruct (Z.div_eucl m' (Z.pos my)) as [q r] eqn:E.
  assert (Hq : 0 <= q).
  { assert (q = m' / Z.pos my) as -> by (unfold Z.div; now rewrite E).
    apply Z.div_pos; lia. }
  match goal with |- nonneg (binary_round_aux _ _ ?s ?m ?e ?l) =>
    pose proof (binary_round_aux_sign s m e l Hq) as Hs
  end.
  destruct (binary_round_aux _ _ _ _ _ _); simpl in *; auto.
Qed.

Lemma Hours_nonneg d : 0 <= d -> nonneg (GoTime.Hours d).
Proof.
  intros Hd. unfold GoTime.Hours.
  apply add_nonneg; [|apply div_nonneg]; apply of_Z_nonneg.
  - apply Z.quot_pos; [lia|]. unfold GoTime.Hour, GoTime.Minute, GoTime.Second. lia.
  - apply Z.rem_nonneg; [|lia]. unfold GoTime.Hour, GoTime.Minute, GoTime.Second. lia.
  - lia.
Qed.

Lemma trunc_floor x : nonneg x -> trunc x = floor x.
Proof.
  destruct x as [s|s| |s m e]; simpl; try reflexivity.
  intros Hs; subst s. destruct (0 <=? e); reflexivity.
Qed.

Lemma eventsPerHourOf_pos config : 0 < eventsPerHourOf config.
Proof. unfold eventsPerHourOf. destruct (Z.leb_spec (EventsConfig.EventsPerNodePerHour (ResourceChurnConfig.Events (resourceChurn config))) 0); lia. Qed.

Lemma eventsDue_floor config since computed :
  0 <= since -> to_int32 (eventsDue config since) = Some computed ->
  floor (eventsDue config since) = Some computed /\ 0 <= computed.
Proof.
  intros Hs Hc.
  assert (Hn : nonneg (eventsDue config since)).
  { apply mul_nonneg; [apply of_Z_nonneg|now apply Hours_nonneg].
    pose proof (eventsPerHourOf_pos config). lia. }
  split; [|eapply to_int_nonneg; eauto].
  rewrite <- trunc_floor by exact Hn.
  unfold to_int32, to_int in Hc. destruct (trunc _); [|discriminate].
  destruct (_ && _); congruence.
Qed.

Section Events.
Context `{TimeLayout} {W : Type} (h : Handler W).

Lemma run_generateEvent config ns i r w :
  0 < totalWeight (eventTypesOf config) ->
  exists t w' tr,
    run h (generateEvent config ns i) r w = Run.mk (Returned (eventAt config ns i t)) r w' tr
    /\ createAnswers tr = [].
Proof.
  intros Hv. unfold generateEvent, selectWeightedEventType, Int31n.
  destruct (Z.leb_spec (totalWeight (eventTypesOf config)) 0) as [|_]; [lia|].
  assert (Hne : eventTypesOf config <> []).
  { intros E. rewrite E in Hv. unfold totalWeight in Hv. simpl in Hv. lia. }
  cbn -[eventTypesOf totalWeight eventAt pickWeighted].
  destruct (h _ (RandInt31n (totalWeight (eventTypesOf config))) w) as [v w1].
  assert (Hsel : exists selected,
             match pickWeighted (eventTypesOf config) v 0 with
             | Some event => mret event
             | None => match eventTypesOf config with
                       | event :: _ => mret event
                       | [] => Stop (Panic "index out of range")
                       end
             end = (Ret selected : Prog EventTypeConfig.t)).
  { destruct (pickWeighted _ _ _); [eauto|].
    destruct (eventTypesOf config); [congruence|eauto]. }
  destruct Hsel as [selected ->].
  cbn -[eventTypesOf totalWeight eventAt pickWeighted].
  destruct (h _ Now w1) as [t1 w2].
  destruct (h _ Now w2) as [t2 w3].
  destruct (h _ Now w3) as [t3 w4].
  cbn -[eventAt]. eauto.
Qed.

Lemma events_loop config ns (l : list Z) :
  0 < totalWeight (eventTypesOf config) ->
  forall c f r w,
    let res := run h (forAll l (c, f) (fun i '(createdCount, failedCount) =>
                   event ← generateEvent config ns i;
                   e ← call (Create event);
                   match e with
                   | Some _ => mret (createdCount, int32 (failedCount + 1))
                   | None => mret (int32 (createdCount + 1), failedCount)
                   end)) r w in
    exists c' f',
      Run.outcome res = Returned (c', f')
      /\ Forall2 (fun i a => exists t, fst a = eventAt config ns i t) l
           (createAnswers (Run.trace res))
      /\ (0 <= c -> c + len l <= maxInt32 ->
          c' = c + len (filter (fun a => snd a = None) (createAnswers (Run.trace res)))).
Proof.
  intros Hv. induction l as [|i l IH]; intros c f r w.
  - simpl. exists c, f. split; [reflexivity|]. split; [constructor|].
    intros _ _. unfold len. simpl. lia.
  - cbn [forAll]. cbv zeta. rewrite run_bind, run_bind.
    destruct (run_generateEvent config ns i r w Hv) as (t & w1 & tr & -> & Htr).
    cbn -[eventAt forAll int32]. 
    destruct (h _ (Create (eventAt config ns i t)) w1) as [[err|] w2];
      cbn -[eventAt forAll int32].
    + specialize (IH c (int32 (f + 1)) r w2). cbv zeta in IH.
      destruct IH as (c' & f' & Hout & Hall & Hcount).
      destruct (run h (forAll l _ _) r w2) as [out r' w' t']. simpl in *. subst out.
      exists c', f'. split; [reflexivity|].
      unfold createAnswers in *. rewrite !omap_app, Htr. simpl.
      split; [constructor; eauto|].
      intros Hc Hlen. rewrite filter_cons_False by (simpl; congruence).
      apply Hcount; [lia|]. unfold len in *. simpl in Hlen. lia.
    + specialize (IH (int32 (c + 1)) f r w2). cbv zeta in IH.
      destruct IH as (c' & f' & Hout & Hall & Hcount).
      destruct (run h (forAll l _ _) r w2) as [out r' w' t']. simpl in *. subst out.
      exists c', f'. split; [reflexivity|].
      unfold createAnswers in *. rewrite !omap_app, Htr. simpl.
      split; [constructor; eauto|].
      intros Hc Hlen. rewrite filter_cons_True by reflexivity.
      unfold len in *. simpl in Hlen. simpl length.
      rewrite int32_id in Hcount by (unfold minInt32, maxInt32 in *; lia).
      rewrite Hcount by lia. lia.
Qed.

End Events.



(** ** Node annotations: the retry *)

Lemma retryBackoff_backoffAt : retryBackoff = backoffAt 1.
Proof. reflexivity. Qed.

Lemma grown_baseWait k :
  (1 <= k <= 4)%nat ->
  durationOfFloat (mul (of_Z (baseWait k)) (of_Z 2)) = mret (baseWait (S k)).
Proof.
  intros Hk.
  assert (k = 1 \/ k = 2 \/ k = 3 \/ k = 4)%nat as [-> | [-> | [-> | ->]]] by lia;
    vm_compute; reflexivity.
Qed.

Lemma jitter_positive : ltb zero (of_ratio false 1 10) = true.
Proof. vm_compute. reflexivity. Qed.

Lemma factor_not_zero : SFeqb (of_Z 2) zero = false.
Proof. vm_compute. reflexivity. Qed.

Lemma Step_backoffAt k :
  (1 <= k <= 4)%nat ->
  Step (backoffAt k) =
    Vis RandFloat64 (fun draw =>
      bind (extra ← durationOfFloat (mul (mul draw (of_ratio false 1 10)) (of_Z (baseWait k)));
            mret (int64 (baseWait k + extra)))
        (fun d => mret (d, backoffAt (S k)))).
Proof.
  intros Hk. unfold Step.
  change (Backoff.Steps (backoffAt k)) with (6 - Z.of_nat k).
  change (Backoff.Duration_ (backoffAt k)) with (baseWait k).
  change (Backoff.Factor (backoffAt k)) with (of_Z 2).
  change (Backoff.Jitter (backoffAt k)) with (of_ratio false 1 10).
  change (Backoff.Cap (backoffAt k)) with 0.
  destruct (Z.ltb_spec (6 - Z.of_nat k) 1) as [|_]; [lia|].
  rewrite factor_not_zero, jitter_positive, grown_baseWait by lia.
  unfold Jitter. rewrite jitter_positive.
  cbn [mbind mret Prog_bind Prog_ret bind call fst snd andb Z.ltb Z.compare].
  unfold backoffAt.
  replace (6 - Z.of_nat k - 1) with (6 - Z.of_nat (S k)) by lia. reflexivity.
Qed.

Section Retry.
Context `{TimeLayout} {W : Type} (h : Handler W).

Lemma retry_from nodeName nodeUpdate :
  (forall w, saneDraw (fst (h _ RandFloat64 w))) ->
  forall n k, (n + k = 6)%nat -> (1 <= k <= 5)%nat ->
  forall r w,
    let res := run h (backoffLoop n (backoffAt k) (updateAttempt nodeName nodeUpdate)) r w in
    exists result,
      Run.outcome res = Returned result
      /\ Run.fields res = r
      /\ attempts nodeName nodeUpdate k (Run.trace res) result.
Proof.
  intros Hsane. induction n as [|n IH]; intros k Hnk Hk r w; [lia|].
  cbn [backoffLoop]. cbn [backoffAt Backoff.Steps].
  destruct (Z.leb_spec (6 - Z.of_nat k) 0) as [|_]; [lia|].
  rewrite run_bind. unfold updateAttempt at 1.
  cbn -[backoffLoop backoffAt merged Step Z.eqb].
  destruct (h _ (GetNode nodeName) w) as [[e|current] w1];
    cbn -[backoffLoop backoffAt merged Step Z.eqb].
  { exists (Some e). repeat split. constructor. }
  destruct (h _ (UpdateNode (merged nodeUpdate current)) w1) as [[e|] w2];
    cbn -[backoffLoop backoffAt merged Step Z.eqb].
  2:{ exists None. repeat split. constructor. }
  destruct (IsConflict e) eqn:Ec; cbn -[backoffLoop backoffAt merged Step Z.eqb].
  2:{ exists (Some e). repeat split. now constructor. }
  destruct (Z.eqb_spec (6 - Z.of_nat k) 1) as [Hlast|Hmore].
  { assert (k = 5)%nat as -> by lia. exists (Some ErrWaitTimeout). repeat split.
    now constructor. }
  rewrite run_bind, Step_backoffAt by lia.
  cbn -[backoffLoop backoffAt merged baseWait mul of_Z of_ratio to_int64 int64].
  pose proof (Hsane w2 k ltac:(lia)) as [extra Hextra].
  destruct (h _ RandFloat64 w2) as [draw w3]. cbn [fst] in Hextra.
  unfold durationOfFloat. rewrite Hextra.
  cbn -[backoffLoop backoffAt merged baseWait mul of_Z of_ratio to_int64 int64].
  destruct (h _ (Sleep (int64 (baseWait k + extra))) w3) as [[] w4].
  cbn -[backoffLoop backoffAt merged baseWait mul of_Z of_ratio to_int64 int64].
  destruct (IH (S k) ltac:(lia) ltac:(lia) r w4) as (result & Hout & Hf & Hatt).
  destruct (run h (backoffLoop n (backoffAt (S k)) _) r w4) as [out r' w' t].
  simpl in *. subst out r'. exists result. repeat split.
  apply attempt_conflict; auto. lia.
Qed.

End Retry.

Lemma attempts_counts nodeName nodeUpdate k t result :
  attempts nodeName nodeUpdate k t result -> (1 <= k <= 5)%nat ->
  (length (omap getNodeCall t) <= 6 - k)%nat
  /\ (length (omap updateNodeAnswer t) <= 6 - k)%nat
  /\ (length (omap sleepCall t) <= 5 - k)%nat
  /\ length (filter (fun a => snd a = None) (omap updateNodeAnswer t))
     = (if result is None then 1 else 0)%nat
  /\ Forall (fun a => exists current, fst a = merged nodeUpdate current)
       (omap updateNodeAnswer t).
Proof.
  induction 1 as [k e|k current|k current e He|current e He
                 |k current e draw extra rest result Hk He Hextra Hrest IH];
    intros Hk'; simpl.
  - repeat split; try lia; constructor.
  - repeat split; try lia. repeat constructor. eauto.
  - repeat split; try lia. repeat constructor. eauto.
  - repeat split; try lia. repeat constructor. eauto.
  - destruct (IH ltac:(lia)) as (Hg & Hu & Hs & Hf & Hm).
    rewrite filter_cons_False by (simpl; congruence).
    unfold omap in *.
    repeat split; try lia; auto. constructor; eauto.
Qed.

Section Nodes.
Context `{TimeLayout} {W : Type} (h : Handler W).

Lemma run_applyUpdate nodeName nodeToUpdate r w :
  (forall w, saneDraw (fst (h _ RandFloat64 w))) ->
  let res := run h (applyUpdate nodeName nodeToUpdate) r w in
  Run.outcome res = Returned tt
  /\ exists t result,
      attempts nodeName nodeToUpdate 1 t result
      /\ Run.trace res
         = t ++ match result with
                | Some e => [Did (LogError e "Failed to update node annotations") tt]
                | None => []
                end.
Proof.
  intros Hsane. unfold applyUpdate, updateNodeWithRetry, ExponentialBackoff.
  rewrite retryBackoff_backoffAt. cbn [backoffAt Backoff.Steps]. 
  change (Z.to_nat (6 - Z.of_nat 1)) with 5%nat.
  rewrite run_bind.
  destruct (retry_from h nodeName nodeToUpdate Hsane 5 1 eq_refl ltac:(lia) r w)
    as (result & Hout & Hf & Hatt).
  destruct (run h (backoffLoop 5 (backoffAt 1) _) r w) as [out r' w' t].
  simpl in *. subst out r'. destruct result as [e|]; simpl.
  - destruct (h _ (LogError e "Failed to update node annotations") w') as [[] w2]. simpl.
    split; [reflexivity|]. exists t, (Some e). auto.
  - split; [reflexivity|]. exists t, None. auto.
Qed.

End Nodes.


Lemma sane_half : saneDraw (of_ratio false 1 2).
Proof.
  intros k Hk.
  assert (k = 1 \/ k = 2 \/ k = 3 \/ k = 4)%nat as [-> | [-> | [-> | ->]]] by lia;
    vm_compute; eauto.
Qed.


(** Conflicts on all five attempts: the retry fails with the timeout and
    nothing is persisted. *)
Lemma updateNodeWithRetry_exhausted :
  let res := run (Scripted.handler (Examples.conflicts 100))
               (updateNodeWithRetry "kwok-node-0" (Examples.node "kwok-node-0"))
               Reconciler.init 0%nat in
  Run.outcome res = Returned (Some ErrWaitTimeout)
  /\ length (omap updateNodeAnswer (Run.trace res)) = 5%nat
  /\ omap sleepCall (Run.trace res)
     = [105000000; 210000000; 420000000; 840000000].
Proof. vm_compute. auto. Qed.

(** ** The footprint of the manage functions *)

Lemma asksOnly_forEach_in {Ix S R} P (l : list Ix) (s : S) (body : Ix -> S -> Prog (S + R)) :
  (forall i s, i ∈ l -> asksOnly P (body i s)) -> asksOnly P (forEach l s body).
Proof.
  revert s. induction l as [|i l IH]; intros s Hb; simpl; [exact I|].
  apply asksOnly_bind; [apply Hb; left|].
  intros [s'|v]; [|exact I]. apply IH. intros j s0 Hj. apply Hb. now right.
Qed.

Lemma asksOnly_forAll_in {Ix S} P (l : list Ix) (s : S) (body : Ix -> S -> Prog S) :
  (forall i s, i ∈ l -> asksOnly P (body i s)) -> asksOnly P (forAll l s body).
Proof.
  revert s. induction l as [|i l IH]; intros s Hb; simpl; [exact I|].
  apply asksOnly_bind; [apply Hb; left|].
  intros s'. apply IH. intros j s0 Hj. apply Hb. now right.
Qed.

Lemma index_fmap_kind k (listed : list ObjectMeta.t) i item :
  index (Object.mk k <$> listed) i = Some item -> Object.Kind_ item = k.
Proof.
  unfold index. destruct (i <? 0); [discriminate|].
  rewrite list_lookup_fmap. destruct (listed !! Z.to_nat i); simpl; [|discriminate].
  now intros [= <-].
Qed.

Lemma kinds_disjoint kind kind' X (op : Op X) :
  kind' <> kind -> kindsWithin (kindsOf kind') X op -> kindsWithout (kindsOf kind) X op.
Proof.
  intros Hne. unfold kindsWithout.
  destruct op; simpl; try exact (fun _ => I); try contradiction;
    intros Hin Hin'; apply list_elem_of_In in Hin, Hin';
    destruct kind, kind'; try congruence; simpl in Hin, Hin'; intuition congruence.
Qed.

Section Footprint.
Context `{TimeLayout}.

Lemma performResourceChurn_kinds K config k (listed : list ObjectMeta.t) ns type :
  k ∈ K ->
  asksOnly (kindsWithin K) (performResourceChurn config (Object.mk k <$> listed) ns type).
Proof.
  intros Hk. unfold performResourceChurn. destruct (len _ =? 0); [exact I|].
  apply asksOnly_forAll_in. intros o n Ho.
  apply list_elem_of_fmap in Ho as (m & -> & _).
  simpl. split; [exact I|]. intros draw.
  destruct (ltb draw _); simpl; [|exact I].
  split; [exact I|]. intros now. split; [exact I|]. intros iteration.
  split; [exact Hk|]. intros [e|]; exact I.
Qed.

Ltac footprint :=
  repeat first
    [ exact I
    | progress intros
    | apply asksOnly_bind
    | apply asksOnly_forEach_in
    | apply asksOnly_forAll_in
    | match goal with
      | |- asksOnly _ (match index ?l ?i with _ => _ end) =>
          let E := fresh "E" in
          destruct (index l i) eqn:E; [apply index_fmap_kind in E|]
      | |- asksOnly _ (match ?x with _ => _ end) => destruct x
      | |- asksOnly _ (if ?b then _ else _) => destruct b
      | |- asksOnly _ (call _) => apply asksOnly_call
      | |- asksOnly _ (mret _) => exact I
      | |- asksOnly _ (Vis _ _) => split
      | |- asksOnly _ (Stop _) => exact I
      | |- asksOnly _ (_ ≫= _) => apply asksOnly_bind
      end ].

Lemma manage_kinds kind config ns target :
  asksOnly (kindsWithin (kindsOf kind)) (manage kind config ns target).
Proof.
  destruct kind; cbn [manage kindsOf objectKind].
  - unfold manageConfigMaps. footprint;
      try (apply performResourceChurn_kinds; repeat constructor);
      unfold kindsWithin; simpl; rewrite ?E; try exact I; (repeat constructor).
  - unfold manageSecrets. footprint;
      try (apply performResourceChurn_kinds; repeat constructor);
      unfold kindsWithin; simpl; rewrite ?E; try exact I; (repeat constructor).
  - unfold manageRoutes. footprint;
      unfold kindsWithin; simpl; rewrite ?E; try exact I; (repeat constructor).
  - unfold manageImageStreams. footprint;
      unfold kindsWithin; simpl; rewrite ?E; try exact I; (repeat constructor).
  - unfold manageBuildConfigs. footprint;
      unfold kindsWithin; simpl; rewrite ?E; try exact I; (repeat constructor).
Qed.


(** *** What a program returns *)

Lemma yields_impl {A} (Q Q' : A -> Prop) (p : Prog A) :
  (forall a, Q a -> Q' a) -> yields Q p -> yields Q' p.
Proof. intros HQ. induction p as [a|why|X op k IH]; simpl; auto. Qed.

Lemma yields_bind {A B} (Q' : A -> Prop) (Q : B -> Prop) (p : Prog A) (f : A -> Prog B) :
  yields Q' p -> (forall a, Q' a -> yields Q (f a)) -> yields Q (p ≫= f).
Proof. intros Hp Hf. induction p as [a|why|X op k IH]; simpl in *; auto. Qed.

Lemma yields_true {A} (p : Prog A) : yields (fun _ => True) p.
Proof. induction p; simpl; auto. Qed.

Lemma yields_forEach {Ix S R} (Inv : S -> Prop) (Q : R -> Prop) (l : list Ix) (s : S)
  (body : Ix -> S -> Prog (S + R)) :
  (forall i s, i ∈ l -> Inv s ->
     yields (fun r => match r with inl s' => Inv s' | inr v => Q v end) (body i s)) ->
  Inv s ->
  yields (fun r => match r with inl s' => Inv s' | inr v => Q v end) (forEach l s body).
Proof.
  revert s. induction l as [|i l IH]; intros s Hb Hs; simpl; [exact Hs|].
  eapply yields_bind; [apply Hb; [left|exact Hs]|].
  intros [s'|v] Hr; [|exact Hr]. apply IH; [|exact Hr].
  intros j s0 Hj. apply Hb. now right.
Qed.

Lemma yields_forAll {Ix S} (Inv : S -> Prop) (l : list Ix) (s : S)
  (body : Ix -> S -> Prog S) :
  (forall i s, i ∈ l -> Inv s -> yields Inv (body i s)) ->
  Inv s -> yields Inv (forAll l s body).
Proof.
  revert s. induction l as [|i l IH]; intros s Hb Hs; simpl; [exact Hs|].
  eapply yields_bind; [apply Hb; [left|exact Hs]|].
  intros s' Hr. apply IH; [|exact Hr]. intros j s0 Hj. apply Hb. now right.
Qed.

Lemma asksOnly_bind_yields {A B} P (Q : A -> Prop) (p : Prog A) (f : A -> Prog B) :
  asksOnly P p -> yields Q p -> (forall a, Q a -> asksOnly P (f a)) -> asksOnly P (p ≫= f).
Proof.
  intros Hp Hq Hf. induction p as [a|why|X op k IH]; simpl in *; auto.
  destruct Hp as [Hop Hk]. split; [exact Hop|]. intros x. apply IH; auto.
Qed.

Lemma yields_run {A W} (h : Handler W) (Q : A -> Prop) (p : Prog A) r w a :
  yields Q p -> Run.outcome (run h p r w) = Returned a -> Q a.
Proof.
  revert r w. induction p as [b|why|X op k IH]; intros r w Hp; simpl in *.
  - now intros [= <-].
  - discriminate.
  - destruct (answer h op r w) as [[x r'] w']. simpl.
    destruct (silent op); simpl; apply IH, Hp.
Qed.

(** *** The events *)

Lemma generateEvent_kind config ns i :
  yields (fun o => Object.Kind_ o = Event) (generateEvent config ns i).
Proof.
  unfold generateEvent. eapply yields_bind; [apply yields_true|].
  intros selected _. simpl. auto.
Qed.

Lemma generateEvent_asks K config ns i :
  asksOnly (kindsWithin K) (generateEvent config ns i).
Proof.
  unfold generateEvent, selectWeightedEventType, Int31n. footprint; exact I.
Qed.

Lemma manageEvents_kinds config ns :
  asksOnly (kindsWithin [Event]) (manageEvents config ns).
Proof.
  unfold manageEvents. cbn -[forAll generateEvent to_int32 eventsDue sinceLastReconcile].
  split; [exact I|]. intros r. split; [exact I|]. intros now.
  destruct (to_int32 _) as [computed|]; [|exact I].
  apply asksOnly_bind; [|intros [created failed]; exact I].
  apply asksOnly_forAll_in. intros i [created failed] _.
  eapply asksOnly_bind_yields;
    [apply generateEvent_asks|apply generateEvent_kind|].
  intros event Hevent. split.
  - unfold kindsWithin. simpl. rewrite Hevent. repeat constructor.
  - intros [e|]; exact I.
Qed.

(** *** The interval gate *)

Lemma rem_mod_zero i k : Z.rem i k = 0 <-> i mod k = 0.
Proof.
  destruct (Z.eq_dec k 0) as [->|Hk].
  - rewrite Z.rem_0_r_ext, Z.mod_0_r by reflexivity. tauto.
  - rewrite Z.rem_divide, Z.mod_divide by exact Hk. tauto.
Qed.

Lemma managed_skipped config namespace type key mng fail rc :
  ResourceTypeConfig.Enabled type = true ->
  shouldCreateResourceForNamespace namespace (ResourceTypeConfig.NamespaceInterval type) = false ->
  managed config namespace type key mng fail rc = mret rc.
Proof. intros He Hg. unfold managed. now rewrite He, Hg. Qed.

Lemma managed_without kind kind' config namespace rc :
  ResourceTypeConfig.Enabled (typeConfig kind config) = true ->
  shouldCreateResourceForNamespace namespace
    (ResourceTypeConfig.NamespaceInterval (typeConfig kind config)) = false ->
  asksOnly (kindsWithout (kindsOf kind))
    (managed config namespace (typeConfig kind' config) (countsKey kind') (manage kind')
       (failure kind') rc).
Proof.
  intros He Hg. destruct (decide (kind' = kind)) as [->|Hne].
  - rewrite managed_skipped by assumption. exact I.
  - unfold managed. footprint; try exact I.
    apply asksOnly_impl with (P := kindsWithin (kindsOf kind')); [|apply manage_kinds].
    intros X op. now apply kinds_disjoint.
Qed.

Lemma managed_records kind kind' config namespace rc :
  ResourceTypeConfig.Enabled (typeConfig kind config) = true ->
  shouldCreateResourceForNamespace namespace
    (ResourceTypeConfig.NamespaceInterval (typeConfig kind config)) = false ->
  rc !! countsKey kind = None ->
  yields (fun rc' => rc' !! countsKey kind = None)
    (managed config namespace (typeConfig kind' config) (countsKey kind') (manage kind')
       (failure kind') rc).
Proof.
  intros He Hg Hrc. destruct (decide (kind' = kind)) as [->|Hne].
  - rewrite managed_skipped by assumption. exact Hrc.
  - unfold managed.
    destruct (ResourceTypeConfig.Enabled (typeConfig kind' config)); [|exact Hrc].
    destruct (shouldCreateResourceForNamespace namespace
                (ResourceTypeConfig.NamespaceInterval (typeConfig kind' config)));
      [|exact Hrc].
    eapply yields_bind; [apply yields_true|]. intros [count [e|]] _; simpl.
    + intros _. exact Hrc.
    + rewrite lookup_insert_ne; [exact Hrc|].
      destruct kind, kind'; simpl; congruence.
Qed.


Lemma managedEvents_without kind config name rc :
  asksOnly (kindsWithout (kindsOf kind)) (managedEvents config name rc).
Proof.
  unfold managedEvents. destruct (EventsConfig.Enabled _); [|exact I].
  apply asksOnly_bind.
  - apply asksOnly_impl with (P := kindsWithin [Event]); [|apply manageEvents_kinds].
    intros X op. unfold kindsWithout.
    destruct op; simpl; try exact (fun _ => I); try contradiction;
      intros Hin Hin'; apply list_elem_of_In in Hin, Hin';
      destruct kind; simpl in Hin, Hin'; intuition congruence.
  - intros [count [e|]]; simpl; repeat split.
Qed.

Lemma managedEvents_records kind config name rc :
  rc !! countsKey kind = None ->
  yields (fun rc' => rc' !! countsKey kind = None) (managedEvents config name rc).
Proof.
  intros Hrc. unfold managedEvents. destruct (EventsConfig.Enabled _); [|exact Hrc].
  eapply yields_bind; [apply yields_true|]. intros [count [e|]] _; simpl.
  - intros _. exact Hrc.
  - rewrite lookup_insert_ne; [exact Hrc|]. destruct kind; simpl; congruence.
Qed.

Lemma manageNamespaceResources_without kind config namespace :
  ResourceTypeConfig.Enabled (typeConfig kind config) = true ->
  shouldCreateResourceForNamespace namespace
    (ResourceTypeConfig.NamespaceInterval (typeConfig kind config)) = false ->
  asksOnly (kindsWithout (kindsOf kind)) (manageNamespaceResources config namespace).
Proof.
  intros He Hg. unfold manageNamespaceResources.
  apply asksOnly_bind; [apply asksOnly_call; exact I|]. intros startTime.
  apply asksOnly_bind.
  { unfold checkNamespaceStatus. apply asksOnly_bind; [apply asksOnly_call; exact I|].
    intros [e|ns]; exact I. }
  intros [ready phase]. destruct (negb ready); [exact I|].
  apply asksOnly_bind; [exact (managed_without kind ConfigMaps config namespace _ He Hg)|].
  intros rc1.
  apply asksOnly_bind; [exact (managed_without kind Secrets config namespace _ He Hg)|].
  intros rc2.
  apply asksOnly_bind; [exact (managed_without kind Routes config namespace _ He Hg)|].
  intros rc3.
  apply asksOnly_bind; [exact (managed_without kind ImageStreams config namespace _ He Hg)|].
  intros rc4.
  apply asksOnly_bind; [exact (managed_without kind BuildConfigs config namespace _ He Hg)|].
  intros rc5.
  apply asksOnly_bind; [apply managedEvents_without|]. intros rc6.
  apply asksOnly_bind; [|intros d; exact I].
  unfold Since. apply asksOnly_bind; [apply asksOnly_call; exact I|]. intros now. exact I.
Qed.

Lemma manageNamespaceResources_records_none kind config namespace :
  ResourceTypeConfig.Enabled (typeConfig kind config) = true ->
  shouldCreateResourceForNamespace namespace
    (ResourceTypeConfig.NamespaceInterval (typeConfig kind config)) = false ->
  yields (fun result => fst result !! countsKey kind = None)
    (manageNamespaceResources config namespace).
Proof.
  intros He Hg. unfold manageNamespaceResources.
  eapply yields_bind; [apply yields_true|]. intros startTime _.
  eapply yields_bind; [apply yields_true|]. intros [ready phase] _.
  destruct (negb ready); [apply lookup_empty|].
  eapply yields_bind;
    [exact (managed_records kind ConfigMaps config namespace _ He Hg (lookup_empty _))|].
  intros rc1 H1.
  eapply yields_bind; [exact (managed_records kind Secrets config namespace _ He Hg H1)|].
  intros rc2 H2.
  eapply yields_bind; [exact (managed_records kind Routes config namespace _ He Hg H2)|].
  intros rc3 H3.
  eapply yields_bind; [exact (managed_records kind ImageStreams config namespace _ He Hg H3)|].
  intros rc4 H4.
  eapply yields_bind; [exact (managed_records kind BuildConfigs config namespace _ He Hg H4)|].
  intros rc5 H5.
  eapply yields_bind; [exact (managedEvents_records kind config _ _ H5)|].
  intros rc6 H6.
  eapply yields_bind; [apply yields_true|]. intros d _. exact H6.
Qed.

End Footprint.

(** C2.  The interval gate.  [shouldCreateResourceForNamespace] is true
    when the interval is at most 1, when the namespace has no index label,
    and when the label does not parse as a number; otherwise it is true
    exactly when the index is a multiple of the interval.  With the
    interval 10 and the indices 0 to 29 the namespaces that pass are 0, 10
    and 20.  For a kind that is enabled and whose gate is false,
    [manageNamespaceResources] performs no operation on objects of that
    kind (for routes, on no Route and no Service), and its result has no
    count for it. *)
Theorem shouldCreateResourceForNamespace_gate `{TimeLayout} {W : Type} (h : Handler W)
  (kind : TargetKind) (config : ScaleLoadConfig.t) (namespace : Namespace.t)
  (interval : Z) (r : Reconciler.t) (w : W) :
  (interval <= 1 -> shouldCreateResourceForNamespace namespace interval = true)
  /\ (Namespace.Labels namespace !! namespaceIndex = None ->
      shouldCreateResourceForNamespace namespace interval = true)
  /\ (forall indexStr i e,
        Namespace.Labels namespace !! namespaceIndex = Some indexStr ->
        Strconv.Atoi indexStr = (i, Some e) ->
        shouldCreateResourceForNamespace namespace interval = true)
  /\ (forall indexStr i,
        1 < interval ->
        Namespace.Labels namespace !! namespaceIndex = Some indexStr ->
        Strconv.Atoi indexStr = (i, None) ->
        shouldCreateResourceForNamespace namespace interval = true <-> i mod interval = 0)
  /\ passing 30 10 = [0; 10; 20]
  /\ (ResourceTypeConfig.Enabled (typeConfig kind config) = true ->
      shouldCreateResourceForNamespace namespace
        (ResourceTypeConfig.NamespaceInterval (typeConfig kind config)) = false ->
      let res := run h (manageNamespaceResources config namespace) r w in
      Forall (interactionOp (kindsWithout (kindsOf kind))) (Run.trace res)
      /\ forall resourceCounts err,
           Run.outcome res = Returned (resourceCounts, err) ->
           resourceCounts !! countsKey kind = None).
Proof.
  unfold shouldCreateResourceForNamespace at 1 2 3 4.
  split; [|split; [|split; [|split; [|split]]]].
  - intros Hi. destruct (Z.leb_spec interval 1); [reflexivity|lia].
  - intros ->. now destruct (interval <=? 1).
  - intros indexStr i e -> ->. now destruct (interval <=? 1).
  - intros indexStr i Hi -> ->. destruct (Z.leb_spec interval 1); [lia|].
    rewrite Z.eqb_eq. apply rem_mod_zero.
  - vm_compute. reflexivity.
  - intros He Hg. split.
    + apply asksOnly_trace. now apply manageNamespaceResources_without.
    + intros resourceCounts err Hout.
      exact (yields_run h _ _ r w _
               (manageNamespaceResources_records_none kind config namespace He Hg) Hout).
Qed.

(** The namespace of index 3 does not pass the gate of the interval 10:
    its run touches no Secret and records no count of secrets. *)
Lemma shouldCreateResourceForNamespace_gate_witness :
  ResourceTypeConfig.Enabled (typeConfig Secrets sparseConfig) = true
  /\ shouldCreateResourceForNamespace (indexed 3)
       (ResourceTypeConfig.NamespaceInterval (typeConfig Secrets sparseConfig)) = false
  /\ let res := run (Scripted.handler Examples.store)
                  (manageNamespaceResources sparseConfig (indexed 3)) Reconciler.init 0%nat in
     Forall (interactionOp (kindsWithout (kindsOf Secrets))) (Run.trace res)
     /\ forall resourceCounts err,
          Run.outcome res = Returned (resourceCounts, err) ->
          resourceCounts !! countsKey Secrets = None.
Proof.
  split; [reflexivity|]. split; [vm_compute; reflexivity|].
  apply (shouldCreateResourceForNamespace_gate (Scripted.handler Examples.store)
           Secrets sparseConfig (indexed 3) 10 Reconciler.init 0%nat);
    [reflexivity|vm_compute; reflexivity].
Defined.

(** ** The counts the manage functions return *)

Section Counts.
Context `{TimeLayout}.

Ltac phase Q :=
  eapply (yields_bind (fun r => match r with inl _ => True | inr v => Q v end));
  [ match goal with
    | |- yields _ (if ?c then _ else _) =>
        destruct c; [apply (yields_forEach (fun _ => True) Q); [|exact I]; intros ? ? _ _|exact I]
    end
  | let Hv := fresh "Hv" in intros [?|?] Hv; [|exact Hv] ].

Ltac answers :=
  repeat first
    [ exact I
    | discriminate
    | reflexivity
    | progress intros
    | match goal with
      | |- yields _ (match ?x with _ => _ end) => destruct x
      | |- yields _ (if ?c then _ else _) => destruct c
      end
    | progress simpl ].

Lemma manage_returns_target kind config ns target :
  yields (fun result => snd result = None -> fst result = target)
    (manage kind config ns target).
Proof.
  set (Q := fun result : Z * option error => snd result = None -> fst result = target).
  destruct kind; cbn [manage].
  - unfold manageConfigMaps. simpl. intros [err|listed]; [subst Q; simpl; discriminate|].
    phase Q; [subst Q; answers|]. phase Q; [subst Q; answers|].
    eapply yields_bind; [apply yields_true|]. intros updated _. subst Q. simpl. auto.
  - unfold manageSecrets. simpl. intros [err|listed]; [subst Q; simpl; discriminate|].
    phase Q; [subst Q; answers|]. phase Q; [subst Q; answers|].
    eapply yields_bind; [apply yields_true|]. intros updated _. subst Q. simpl. auto.
  - unfold manageRoutes. simpl. intros [err|listed]; [subst Q; simpl; discriminate|].
    phase Q; [subst Q; answers|]. phase Q; [subst Q; answers|].
    subst Q. simpl. auto.
  - unfold manageImageStreams. simpl. intros [err|listed]; [subst Q; simpl; discriminate|].
    phase Q; [subst Q; answers|]. phase Q; [subst Q; answers|].
    subst Q. simpl. auto.
  - unfold manageBuildConfigs. simpl. intros [err|listed]; [subst Q; simpl; discriminate|].
    phase Q; [subst Q; answers|]. phase Q; [subst Q; answers|].
    subst Q. simpl. auto.
Qed.


Lemma countsKey_inj kind kind' : countsKey kind = countsKey kind' -> kind = kind'.
Proof. destruct kind, kind'; simpl; congruence. Qed.

Lemma managed_recorded kind config namespace rc :
  recorded config namespace rc ->
  yields (recorded config namespace)
    (managed config namespace (typeConfig kind config) (countsKey kind) (manage kind)
       (failure kind) rc).
Proof.
  intros Hrc. unfold managed.
  destruct (ResourceTypeConfig.Enabled (typeConfig kind config)) eqn:He; [|exact Hrc].
  destruct (shouldCreateResourceForNamespace namespace
              (ResourceTypeConfig.NamespaceInterval (typeConfig kind config))) eqn:Hg;
    [|exact Hrc].
  eapply yields_bind; [apply manage_returns_target|].
  intros [count [e|]] Hcount; simpl in *.
  - intros _. exact Hrc.
  - intros kind' c. destruct (decide (kind' = kind)) as [->|Hne].
    + rewrite lookup_insert_eq. intros [= <-]. auto.
    + rewrite lookup_insert_ne by (intros Heq; apply Hne; now apply countsKey_inj).
      apply Hrc.
Qed.

Lemma managedEvents_recorded config namespace name rc :
  recorded config namespace rc ->
  yields (recorded config namespace) (managedEvents config name rc).
Proof.
  intros Hrc. unfold managedEvents. destruct (EventsConfig.Enabled _); [|exact Hrc].
  eapply yields_bind; [apply yields_true|]. intros [count [e|]] _; simpl.
  - intros _. exact Hrc.
  - intros kind c. rewrite lookup_insert_ne by (destruct kind; simpl; congruence).
    apply Hrc.
Qed.

Lemma manageNamespaceResources_recorded config namespace :
  yields (fun result => recorded config namespace (fst result))
    (manageNamespaceResources config namespace).
Proof.
  assert (recorded config namespace ∅) as H0.
  { intros kind c. rewrite lookup_empty. discriminate. }
  unfold manageNamespaceResources.
  eapply yields_bind; [apply yields_true|]. intros startTime _.
  eapply yields_bind; [apply yields_true|]. intros [ready phase] _.
  destruct (negb ready); [exact H0|].
  eapply yields_bind; [exact (managed_recorded ConfigMaps config namespace _ H0)|].
  intros rc1 H1.
  eapply yields_bind; [exact (managed_recorded Secrets config namespace _ H1)|].
  intros rc2 H2.
  eapply yields_bind; [exact (managed_recorded Routes config namespace _ H2)|].
  intros rc3 H3.
  eapply yields_bind; [exact (managed_recorded ImageStreams config namespace _ H3)|].
  intros rc4 H4.
  eapply yields_bind; [exact (managed_recorded BuildConfigs config namespace _ H4)|].
  intros rc5 H5.
  eapply yields_bind; [exact (managedEvents_recorded config namespace _ _ H5)|].
  intros rc6 H6.
  eapply yields_bind; [apply yields_true|]. intros d _. exact H6.
Qed.

(** *** The sums over the namespaces *)

Lemma wrap_add_l w a b : 0 < w -> wrap w (wrap w a + b) = wrap w (a + b).
Proof.
  intros Hw. unfold wrap.
  replace ((a + 2 ^ (w - 1)) mod 2 ^ w - 2 ^ (w - 1) + b + 2 ^ (w - 1))
    with ((a + 2 ^ (w - 1)) mod 2 ^ w + b) by lia.
  rewrite Zplus_mod_idemp_l. f_equal. f_equal. lia.
Qed.

Lemma wrap_small w a : 0 < w -> - 2 ^ (w - 1) <= a < 2 ^ (w - 1) -> wrap w a = a.
Proof.
  intros Hw Ha. unfold wrap.
  assert (2 ^ w = 2 * 2 ^ (w - 1)) as Hp.
  { replace w with (Z.succ (w - 1)) at 1 by lia. apply Z.pow_succ_r. lia. }
  rewrite Z.mod_small by lia. lia.
Qed.

Lemma wrap_32_64 a : int32 (int64 a) = int32 a.
Proof.
  unfold int32, int64, wrap.
  change (64 - 1) with 63. change (32 - 1) with 31.
  set (q := (a + 2 ^ 63) / 2 ^ 64).
  assert ((a + 2 ^ 63) mod 2 ^ 64 = a + 2 ^ 63 - 2 ^ 64 * q) as ->.
  { pose proof (Z.div_mod (a + 2 ^ 63) (2 ^ 64) ltac:(lia)). subst q. lia. }
  replace (a + 2 ^ 63 - 2 ^ 64 * q - 2 ^ 63 + 2 ^ 31)
    with (a + 2 ^ 31 + (- q * 2 ^ 32) * 2 ^ 32)
    by (change (2 ^ 64) with (2 ^ 32 * 2 ^ 32); ring).
  rewrite Z.mod_add by lia. reflexivity.
Qed.

Lemma addCounts_multiple config namespace kind rc counts :
  minInt32 <= ResourceTypeConfig.Count (typeConfig kind config) <= maxInt32 ->
  recorded config namespace counts ->
  multipleOfCount config kind rc ->
  multipleOfCount config kind (addCounts rc counts).
Proof.
  intros Hrange Hcounts (k & Hk & Hrc). unfold multipleOfCount, countOf, addCounts in *.
  rewrite lookup_union_with.
  destruct (counts !! countsKey kind) as [c|] eqn:Hc.
  - destruct (Hcounts kind c Hc) as (-> & _ & _).
    exists (k + 1). split; [lia|].
    destruct (rc !! countsKey kind) as [a|]; simpl in *.
    + rewrite Hrc. unfold int64. rewrite wrap_add_l by lia. f_equal. lia.
    + replace ((k + 1) * ResourceTypeConfig.Count (typeConfig kind config))
        with (k * ResourceTypeConfig.Count (typeConfig kind config)
              + ResourceTypeConfig.Count (typeConfig kind config)) by lia.
      unfold int64 in *. rewrite <- wrap_add_l by lia. rewrite <- Hrc. simpl.
      symmetry. apply wrap_small; [lia|]. unfold minInt32, maxInt32 in Hrange. lia.
  - exists k. split; [exact Hk|].
    destruct (rc !! countsKey kind) as [a|]; simpl in *; exact Hrc.
Qed.

Lemma manageLoadResources_multiple config kwokNodes targetNamespaces kind
  `{SliceSorter} :
  minInt32 <= ResourceTypeConfig.Count (typeConfig kind config) <= maxInt32 ->
  yields (fun result => multipleOfCount config kind (snd (fst result)))
    (manageLoadResources config kwokNodes targetNamespaces).
Proof.
  intros Hrange.
  assert (multipleOfCount config kind ∅) as Hzero.
  { exists 0. split; [lia|]. reflexivity. }
  unfold manageLoadResources.
  eapply yields_bind; [apply yields_true|]. intros [err|existing] _; [exact Hzero|].
  eapply (yields_bind
            (fun up => match up with
                       | inl _ => True
                       | inr v => multipleOfCount config kind (snd (fst v))
                       end)).
  { destruct (_ <? _); [|exact I].
    eapply yields_bind; [apply yields_true|]. intros [e|] _; [exact Hzero|].
    eapply yields_bind; [apply yields_true|]. intros [e|refreshed] _; [exact Hzero|exact I]. }
  intros [[existing' current]|v] Hv; [|exact Hv].
  eapply (yields_bind
            (fun down => match down with
                         | inl _ => True
                         | inr v => multipleOfCount config kind (snd (fst v))
                         end)).
  { destruct (_ <? _); [|exact I].
    eapply yields_bind; [apply yields_true|]. intros [e|] _; [exact Hzero|exact I]. }
  intros [current'|v] Hv'; [|exact Hv'].
  eapply yields_bind; [apply yields_true|]. intros [err|namespaces] _; [exact Hzero|].
  eapply yields_bind.
  { apply (yields_forAll (multipleOfCount config kind)); [|exact Hzero].
    intros ns rc _ Hrc.
    eapply yields_bind; [apply yields_true|]. intros ready _.
    destruct (negb ready); [exact Hrc|].
    eapply yields_bind; [apply manageNamespaceResources_recorded|].
    intros [counts [e|]] Hcounts; simpl in *.
    - intros _. exact Hrc.
    - now apply addCounts_multiple with (namespace := ns). }
  intros rc Hrc. exact Hrc.
Qed.

End Counts.

(** ** The status *)

Lemma errorRate_zero : Strconv.FormatFloat_f zero 2 = "0.00".
Proof. vm_compute. reflexivity. Qed.

Lemma errorRate_low :
  exists errorRate, Strconv.ParseFloat "0.00" = (errorRate, None)
                    /\ gtb errorRate lit_10_0 = false.
Proof. vm_compute. eexists. split; reflexivity. Qed.

Lemma updateStatus_carries config kwokNodeCount namespaceCount resourceCounts :
  asksOnly (statusCarries resourceCounts)
    (updateStatus config kwokNodeCount namespaceCount resourceCounts).
Proof.
  unfold updateStatus. split; [exact I|]. intros [err|latestConfig].
  { simpl. auto. }
  unfold calculateMetrics, updateConditions, updatePrometheusMetrics, modifyFields, readFields.
  cbn -[Strconv.ParseFloat Strconv.FormatFloat_f Strconv.FormatInt int32 countOf mul div of_Z
        of_ratio GoTime.Minutes GoTime.Milliseconds getTotalResourceCount gtb lit_10_0 zero
        String.append].
  rewrite errorRate_zero. destruct errorRate_low as (errorRate & -> & ->).
  repeat (split; [exact I|]; intros ?).
  split.
  - split; [|split].
    + unfold operatingNormally, withStatus.
      cbn [ScaleLoadConfig.Status ScaleLoadConfigStatus.Conditions].
      eexists _, _, _. split; [reflexivity|].
      split; [destruct (negb _); [|destruct (_ =? _)]|destruct (_ =? _)]; reflexivity.
    + reflexivity.
    + intros kind. destruct kind; reflexivity.
  - intros [e|]; simpl; auto.
Qed.

(** *** Where the status is written *)

Ltac asks_with hook :=
  repeat first
    [ exact I
    | hook
    | progress intros
    | apply asksOnly_forEach
    | apply asksOnly_forAll
    | match goal with
      | |- asksOnly _ (match ?x with _ => _ end) => destruct x
      | |- asksOnly _ (if ?b then _ else _) => destruct b
      | |- asksOnly _ (Vis _ _) => split
      | |- asksOnly _ (call _) => split
      | |- asksOnly _ readFields => split
      | |- asksOnly _ (modifyFields _) => unfold modifyFields
      | |- asksOnly _ (mret _) => exact I
      | |- asksOnly _ (Ret _) => exact I
      | |- asksOnly _ (Stop _) => exact I
      | |- asksOnly _ (_ ≫= _) => apply asksOnly_bind
      end ].

Ltac asks := asks_with fail.

Section Quiet.
Context `{TimeLayout} `{SliceSorter}.

Lemma kindsWithin_notStatusUpdate K X (op : Op X) :
  kindsWithin K X op -> notStatusUpdate X op.
Proof. destruct op; simpl; auto. Qed.

Lemma manageNamespaceResources_quiet config namespace :
  asksOnly notStatusUpdate (manageNamespaceResources config namespace).
Proof.
  assert (forall kind rc,
            asksOnly notStatusUpdate
              (managed config namespace (typeConfig kind config) (countsKey kind)
                 (manage kind) (failure kind) rc)) as Hmanaged.
  { intros kind rc. unfold managed. asks.
    eapply asksOnly_impl; [|apply manage_kinds]. apply kindsWithin_notStatusUpdate. }
  unfold manageNamespaceResources, checkNamespaceStatus, managedEvents, Since.
  apply asksOnly_bind; [asks|]. intros startTime.
  apply asksOnly_bind; [asks|]. intros [ready phase]. destruct (negb ready); [exact I|].
  apply asksOnly_bind; [exact (Hmanaged ConfigMaps _)|]. intros rc1.
  apply asksOnly_bind; [exact (Hmanaged Secrets _)|]. intros rc2.
  apply asksOnly_bind; [exact (Hmanaged Routes _)|]. intros rc3.
  apply asksOnly_bind; [exact (Hmanaged ImageStreams _)|]. intros rc4.
  apply asksOnly_bind; [exact (Hmanaged BuildConfigs _)|]. intros rc5.
  apply asksOnly_bind; [|asks].
  destruct (EventsConfig.Enabled _); [|exact I].
  apply asksOnly_bind; [|asks].
  eapply asksOnly_impl; [|apply manageEvents_kinds]. apply kindsWithin_notStatusUpdate.
Qed.

Lemma createNamespaces_quiet config kwokNodes count :
  asksOnly notStatusUpdate (createNamespaces config kwokNodes count).
Proof. unfold createNamespaces, getManagedNamespaces, Intn. asks. Qed.

Lemma deleteNamespaces_quiet config namespaces count :
  asksOnly notStatusUpdate (deleteNamespaces config namespaces count).
Proof. unfold deleteNamespaces, forgetResourceManager, modifyFields, readFields. asks. Qed.

Lemma manageLoadResources_quiet config kwokNodes targetNamespaces :
  asksOnly notStatusUpdate (manageLoadResources config kwokNodes targetNamespaces).
Proof.
  unfold manageLoadResources, getManagedNamespaces, isNamespaceReady, checkNamespaceStatus.
  asks_with ltac:(first [ apply createNamespaces_quiet | apply deleteNamespaces_quiet
                         | apply manageNamespaceResources_quiet ]).
Qed.

Lemma backoffLoop_quiet fuel b (condition : Prog (bool * option error)) :
  asksOnly notStatusUpdate condition ->
  asksOnly notStatusUpdate (backoffLoop fuel b condition).
Proof.
  intros Hc. revert b. induction fuel as [|fuel IH]; intros b; simpl; [exact I|].
  destruct (_ <=? _); [exact I|].
  apply asksOnly_bind; [exact Hc|]. intros [ok [e|]]; [exact I|].
  destruct ok; [exact I|]. destruct (_ =? _); [exact I|].
  apply asksOnly_bind.
  { unfold Step, Jitter, durationOfFloat. asks. }
  intros [d b']. split; [exact I|]. intros _. apply IH.
Qed.

Lemma churnAnnotations_quiet table chance node :
  Forall (fun g : generator => forall node, asksOnly notStatusUpdate (snd g node)) table ->
  asksOnly notStatusUpdate (churnAnnotations table chance node).
Proof.
  intros Htable. unfold churnAnnotations. apply asksOnly_forAll_in.
  intros [annotation generate] [node' updated] Hin.
  rewrite Forall_forall in Htable. specialize (Htable _ Hin). simpl in Htable.
  asks. apply Htable.
Qed.

Lemma updateNodeAnnotations_quiet config kwokNodes :
  asksOnly notStatusUpdate (updateNodeAnnotations config kwokNodes).
Proof.
  unfold updateNodeAnnotations, updateOneNode, prepareUpdate, applyUpdate,
    shouldUpdateNodeAnnotations, updateNetworkingAnnotations,
    updateMachineConfigAnnotations, updateClusterAnnotations, generateMachineReference,
    updateNodeWithRetry, ExponentialBackoff, Since, Int63n, Intn.
  asks_with ltac:(first
    [ apply backoffLoop_quiet; unfold updateAttempt
    | apply churnAnnotations_quiet;
      unfold ovnAnnotations, machineConfigAnnotations, oneOf, Intn;
      repeat (constructor; [simpl; intros|]); try apply Forall_nil ]).
Qed.

End Quiet.

Section Sound.
Context `{TimeLayout} `{SliceSorter}.

Lemma notStatusUpdate_statusSound X (op : Op X) : notStatusUpdate X op -> statusSound X op.
Proof. destruct op; simpl; auto. contradiction. Qed.

Lemma updateStatus_statusSound config kwokNodeCount namespaceCount resourceCounts :
  asksOnly statusSound (updateStatus config kwokNodeCount namespaceCount resourceCounts).
Proof.
  eapply asksOnly_impl; [|apply updateStatus_carries].
  intros X op. destruct op; simpl; auto. tauto.
Qed.

Lemma Reconcile_statusSound name : asksOnly statusSound (Reconcile name).
Proof.
  unfold Reconcile, reconcileActive, handleDeletion, handleConfigDeletion,
    cleanupManagedNamespaces, checkAPIRateLimit, getKwokNodes, errorCountInc,
    kwokNodeCountSet, setLastReconcileTime, reconcileTimeObserve, Since,
    forgetResourceManager.
  asks_with ltac:(first
    [ apply updateStatus_statusSound
    | match goal with
      | |- asksOnly _ (manageLoadResources _ _ _) =>
          eapply asksOnly_impl;
            [apply notStatusUpdate_statusSound|apply manageLoadResources_quiet]
      | |- asksOnly _ (updateNodeAnnotations _ _) =>
          eapply asksOnly_impl;
            [apply notStatusUpdate_statusSound|apply updateNodeAnnotations_quiet]
      end ]).
Qed.

End Sound.

Lemma statusUpdates_of_asks {W A} (h : Handler W) (P : forall X, Op X -> Prop)
  (Q : ScaleLoadConfig.t -> Prop) (p : Prog A) r w :
  (forall c, P _ (StatusUpdate c) -> Q c) ->
  asksOnly P p ->
  Forall (fun update => Q (fst update)) (omap statusUpdateCall (Run.trace (run h p r w))).
Proof.
  intros HPQ Hp. pose proof (asksOnly_trace h P p r w Hp) as Ht.
  induction Ht as [|[X op x] t Hop _ IH]; simpl; [constructor|].
  destruct op; simpl; try exact IH. constructor; [|exact IH]. apply HPQ, Hop.
Qed.

(** C9.  The Degraded condition is never True.  [calculateMetrics] writes
    the error rate 0.00, [updateConditions] reads it from the status it is
    given, and 0.00 is not above 10: every status update that
    [updateStatus] issues carries the error rate 0.00 and the conditions
    Ready, Scaling and Degraded, with Degraded False for the reason
    OperatingNormally.  [Reconcile] writes the status through
    [updateStatus] only, so the same holds of every status update of a
    reconcile, whatever the environment answers. *)
Theorem degraded_never_true `{TimeLayout} `{SliceSorter} {W : Type} (h : Handler W)
  (name : string) (config : ScaleLoadConfig.t) (kwokNodeCount namespaceCount : Z)
  (resourceCounts : gmap string Z) (r : Reconciler.t) (w : W) :
  Strconv.FormatFloat_f zero 2 = "0.00"
  /\ Forall (fun update =>
               operatingNormally (fst update)
               /\ LoadGenerationMetrics.ErrorRate
                    (ScaleLoadConfigStatus.Metrics (ScaleLoadConfig.Status (fst update)))
                  = "0.00")
       (omap statusUpdateCall
          (Run.trace (run h (updateStatus config kwokNodeCount namespaceCount resourceCounts)
                        r w)))
  /\ Forall (fun update => operatingNormally (fst update))
       (omap statusUpdateCall (Run.trace (run h (Reconcile name) r w))).
Proof.
  split; [exact errorRate_zero|]. split.
  - apply (statusUpdates_of_asks h (statusCarries resourceCounts)
             (fun c => operatingNormally c
                       /\ LoadGenerationMetrics.ErrorRate
                            (ScaleLoadConfigStatus.Metrics (ScaleLoadConfig.Status c))
                          = "0.00")).
    + simpl. tauto.
    + apply updateStatus_carries.
  - apply (statusUpdates_of_asks h statusSound operatingNormally).
    + simpl. tauto.
    + apply Reconcile_statusSound.
Qed.

(** A reconcile of the example store writes the status once, with Degraded
    False. *)
Lemma degraded_never_true_example :
  (fun update =>
     (fun c => (Condition.Type_ c, Condition.Status c, Condition.Reason c))
       <$> ScaleLoadConfigStatus.Conditions (ScaleLoadConfig.Status (fst update)))
    <$> omap statusUpdateCall
          (Run.trace (run (Scripted.handler Examples.store) (Reconcile "load")
                        Reconciler.init 0%nat))
  = [ [ ("Ready", ConditionTrue, "LoadGenerationActive");
        ("Scaling", ConditionTrue, "ResourcesScaling");
        ("Degraded", ConditionFalse, "OperatingNormally") ] ].
Proof. vm_compute. reflexivity. Qed.




(** ** The rate budget *)

Lemma int32_int64_small z : minInt32 <= z <= maxInt32 -> int32 (int64 z) = z.
Proof.
  intros Hz. rewrite wrap_32_64. unfold int32. apply wrap_small; [lia|].
  unfold minInt32, maxInt32 in Hz. change (32 - 1) with 31. lia.
Qed.

Section Budget.
Context `{TimeLayout} `{SliceSorter} {W : Type} (h : Handler W).

Ltac step :=
  cbn -[manageLoadResources updateNodeAnnotations updateStatus calculateTargetNamespaces
        handleDeletion handleConfigDeletion getEffectiveAPIRate GoTime.Sub GoTime.Minute
        int32 int64 Z.leb Z.mul Z.add calculateReconcileInterval len].

Lemma reconcileActive_denied config nodes target startTime now r w w1 w2 :
  (forall selector, h _ (ListNodes selector) w = (inr nodes, w1)) ->
  calculateTargetNamespaces config (len nodes) = Some target ->
  minInt32 <= 5 * target <= maxInt32 ->
  h _ Now w1 = (now, w2) ->
  let expired := GoTime.Minute <=? GoTime.Sub now (Reconciler.lastRateLimitReset r) in
  let counter := if expired then 0 else Reconciler.apiCallCounter r in
  fst (getEffectiveAPIRate config (len nodes)) < counter + 5 * target ->
  exists selector,
    run h (reconcileActive config startTime) r w
    = Run.mk (Returned (Result.mk false GoTime.Minute, None))
        (Reconciler.mk (Reconciler.lastReconcileTime r) (Reconciler.resourceManagers r)
           counter (if expired then now else Reconciler.lastRateLimitReset r)
           (len nodes) (Reconciler.GeneratedNamespaces r)
           (Reconciler.ErrorCount r) (Reconciler.ReconcileTime r))
        w2
        [ Did (ListNodes selector) (inr nodes); Did Now now ].
Proof.
  intros Hlist Htarget Hrange Hnow expired counter Hdeny.
  eexists. unfold reconcileActive, getKwokNodes.
  step. rewrite Hlist. step. rewrite Htarget. step. rewrite Hnow. step.
  replace (target * 5) with (5 * target) by lia. rewrite int32_int64_small by exact Hrange.
  fold expired. subst counter.
  destruct expired; step;
    (rewrite (proj2 (Z.leb_gt _ _)) by (simpl in Hdeny; lia)); reflexivity.
Qed.

(** C5.  A tick of an enabled configuration that is denied by the rate
    budget.  The estimate is five calls per target namespace.  When the
    calls counted in the current window plus the estimate exceed the
    effective rate, [Reconcile] returns a requeue after one minute and no
    error; all it has done is read the clock, get the configuration and
    list the nodes: no namespace and no object is created, deleted or
    updated, no node is written and no status is updated.  The counter of
    the window is not increased and the time of the last reconcile is
    kept. *)
Theorem rate_limit_denial name config nodes target start now finish r w w0 w1 w2 w3 w4 :
  h _ Now w = (start, w0) ->
  h _ (GetScaleLoadConfig name) w0 = (inr config, w1) ->
  cleanupFinalizer ∈ ObjectMeta.Finalizers (ScaleLoadConfig.Meta config) ->
  deletionTimestampIsZero config = true ->
  ScaleLoadConfigSpec.Enabled (spec config) = true ->
  (forall selector, h _ (ListNodes selector) w1 = (inr nodes, w2)) ->
  calculateTargetNamespaces config (len nodes) = Some target ->
  minInt32 <= 5 * target <= maxInt32 ->
  h _ Now w2 = (now, w3) ->
  h _ Now w3 = (finish, w4) ->
  let expired := GoTime.Minute <=? GoTime.Sub now (Reconciler.lastRateLimitReset r) in
  let counter := if expired then 0 else Reconciler.apiCallCounter r in
  fst (getEffectiveAPIRate config (len nodes)) < counter + 5 * target ->
  let res := run h (Reconcile name) r w in
  Run.outcome res = Returned (Result.mk false GoTime.Minute, None)
  /\ (exists selector,
        Run.trace res
        = [ Did Now start; Did (GetScaleLoadConfig name) (inr config);
            Did (ListNodes selector) (inr nodes); Did Now now; Did Now finish ])
  /\ Reconciler.apiCallCounter (Run.fields res) = counter
  /\ Reconciler.lastReconcileTime (Run.fields res) = Reconciler.lastReconcileTime r.
Proof.
  intros Hstart Hget Hfin Hdel Hen Hlist Htarget Hrange Hnow Hfinish expired counter Hdeny res.
  subst res. unfold Reconcile.
  rewrite run_bind, run_call. unfold answer. rewrite Hstart.
  set (r1 := match Reconciler.resourceManagers r with
             | Some _ => r
             | None => setResourceManagers (Some ∅) r
             end).
  assert (Reconciler.apiCallCounter r1 = Reconciler.apiCallCounter r
          /\ Reconciler.lastRateLimitReset r1 = Reconciler.lastRateLimitReset r
          /\ Reconciler.lastReconcileTime r1 = Reconciler.lastReconcileTime r)
    as (Hc1 & Hw1 & Ht1) by (subst r1; destruct (Reconciler.resourceManagers r); auto).
  destruct (reconcileActive_denied config nodes target start now r1 w1 w2 w3
              Hlist Htarget Hrange Hnow) as (selector & Hrun).
  { rewrite Hc1, Hw1. exact Hdeny. }
  cbn -[reconcileActive handleDeletion handleConfigDeletion updateStatus GoTime.Sub
        GoTime.Minute].
  rewrite Hget.
  cbn -[reconcileActive handleDeletion handleConfigDeletion updateStatus GoTime.Sub
        GoTime.Minute].
  rewrite bool_decide_eq_true_2 by exact Hfin. rewrite Hdel, Hen.
  cbn -[reconcileActive handleDeletion handleConfigDeletion updateStatus GoTime.Sub
        GoTime.Minute run].
  fold r1.
  match goal with
  | |- context [run h (bind ?p ?f) r1 w1] =>
      change (run h (bind p f) r1 w1) with (run h (p ≫= f) r1 w1);
      rewrite (run_bind h p f r1 w1)
  end.
  rewrite Hrun. cbn -[GoTime.Sub GoTime.Minute]. rewrite Hfinish.
  cbn -[GoTime.Sub GoTime.Minute].
  split; [reflexivity|]. split; [eexists; reflexivity|].
  subst counter expired. rewrite Hc1, Hw1, Ht1. auto.
Qed.

End Budget.

(** The example store, with a static rate of 5 calls per minute: the
    estimate for two target namespaces is 10. *)
Lemma rate_limit_denial_witness :
  let res := run (Scripted.handler throttledStore) (Reconcile "load") Reconciler.init 0%nat in
  Run.outcome res = Returned (Result.mk false GoTime.Minute, None)
  /\ (exists selector,
        Run.trace res
        = [ Did Now 0; Did (GetScaleLoadConfig "load") (inr throttledConfig);
            Did (ListNodes selector)
              (inr [Examples.node "kwok-node-0"; Examples.node "kwok-node-1";
                    Examples.node "kwok-node-2"]);
            Did Now (3 * GoTime.Second); Did Now (4 * GoTime.Second) ])
  /\ Reconciler.apiCallCounter (Run.fields res) = 0
  /\ Reconciler.lastReconcileTime (Run.fields res) = GoTime.zeroTime.
Proof.
  apply (rate_limit_denial (Scripted.handler throttledStore) "load" throttledConfig
           [Examples.node "kwok-node-0"; Examples.node "kwok-node-1";
            Examples.node "kwok-node-2"]
           2 0 (3 * GoTime.Second) (4 * GoTime.Second) Reconciler.init
           0%nat 1%nat 2%nat 3%nat 4%nat 5%nat).
  - reflexivity.
  - reflexivity.
  - vm_compute. repeat constructor.
  - reflexivity.
  - reflexivity.
  - intros selector. reflexivity.
  - vm_compute. reflexivity.
  - vm_compute. split; discriminate.
  - reflexivity.
  - reflexivity.
  - vm_compute. reflexivity.
Defined.
